(** * Campaign updater: aggregation, column, alias and row resolution

    A shallow embedding of [app.py] (the Google Sheets campaign updater) and
    the properties of its five parts: the two aggregators
    ([load_and_process_csv], [process_campaign_data_by_name]), the column
    resolver ([get_column_index]), the alias resolver
    ([find_alternate_campaign_name_with_new_structure]), and the row matching
    and write sequencing done inline by [main].

    Modelling conventions.
    - A Python [str] is the list of its Unicode code points, so that
      [==], [str.strip] and the ordering used by [groupby] are the ones
      Python applies.
    - A raised exception is the [Raise] branch of [result]; [None] is the
      [None] of [option].
    - Python integers are [Z]. The numbers of a pandas column are those of
      its dtype: an int64 column holds integers and adds them modulo 2^64
      ([wrap64]); a float64 column holds binary64 floats (the primitive
      floats of the kernel, with their rounding), NaN standing for a
      missing cell.
    - A pandas frame is the list of its rows, as [read_csv] parsed them;
      the dtype of a column is the one [read_csv] infers from all its
      cells.
    - The interpreter is CPython 3.11 (Unicode 14.0) on x86-64, with the
      compensated group sums of pandas ([group_sum], [group_mean]). *)

From Stdlib Require Import String Ascii.
From Stdlib Require Import ZArith NArith List Bool Lia Permutation.
From Stdlib Require Import Sorted Floats.
Import ListNotations.

Local Open Scope Z_scope.

(** ** Python values *)

Inductive exn : Set :=
| IndexError
| KeyError
| ValueError
| OverflowError.

Inductive result (A : Type) : Type :=
| Ok (a : A)
| Raise (e : exn).

Arguments Ok {A} a.
Arguments Raise {A} e.

Definition bind {A B : Type} (m : result A) (k : A -> result B) : result B :=
  match m with
  | Ok a => k a
  | Raise e => Raise e
  end.

Notation "x <- m ;; k" := (bind m (fun x => k))
  (at level 61, m at next level, right associativity).

Fixpoint mapM {A B : Type} (f : A -> result B) (l : list A) : result (list B) :=
  match l with
  | [] => Ok []
  | x :: l' => y <- f x ;; ys <- mapM f l' ;; Ok (y :: ys)
  end.

(** A [str] is a sequence of code points. *)
Definition str : Set := list N.

Module PyStr.

(** The code points of a literal of ASCII characters. *)
Definition of_string (s : string) : str :=
  map N_of_ascii (list_ascii_of_string s).

Definition eqb (a b : str) : bool :=
  if list_eq_dec N.eq_dec a b then true else false.

(** [str.isspace] on one code point: the characters that [str.strip()]
    removes. *)
Definition isspace (c : N) : bool :=
  (((9 <=? c) && (c <=? 13)) || ((28 <=? c) && (c <=? 32))
   || (c =? 133) || (c =? 160) || (c =? 5760)
   || ((8192 <=? c) && (c <=? 8202))
   || (c =? 8232) || (c =? 8233) || (c =? 8239) || (c =? 8287)
   || (c =? 12288))%N.

Fixpoint lstrip (s : str) : str :=
  match s with
  | [] => []
  | c :: s' => if isspace c then lstrip s' else s
  end.

Definition rstrip (s : str) : str := rev (lstrip (rev s)).

Definition strip (s : str) : str := rstrip (lstrip s).

(** Lexicographic comparison by code point ([<] of Python). *)
Fixpoint ltb (a b : str) : bool :=
  match a, b with
  | _, [] => false
  | [], _ :: _ => true
  | x :: a', y :: b' => (x <? y)%N || ((x =? y)%N && ltb a' b')
  end.

End PyStr.

(** A literal: [py "Calls"] is the [str] ['Calls']. *)
Definition py (x : string) : str := PyStr.of_string x.

(** ** Sequences *)

(** [enumerate(l)], counting from [start]. *)
Fixpoint enumerate_from {A : Type} (start : Z) (l : list A) : list (Z * A) :=
  match l with
  | [] => []
  | x :: l' => (start, x) :: enumerate_from (start + 1) l'
  end.

Definition enumerate {A : Type} (l : list A) : list (Z * A) :=
  enumerate_from 0 l.

Definition len {A : Type} (l : list A) : Z := Z.of_nat (length l).

(** [l[i]] of Python: a negative [i] counts from the end, and an index
    outside [-len(l) .. len(l)-1] raises [IndexError]. *)
Definition getitem {A : Type} (l : list A) (i : Z) : result A :=
  let j := if i <? 0 then len l + i else i in
  if j <? 0 then Raise IndexError
  else match nth_error l (Z.to_nat j) with
       | Some x => Ok x
       | None => Raise IndexError
       end.

(** ** Column resolver ([get_column_index]) *)

(** [[i for i, cell in enumerate(header_row) if cell.strip() == label]]. *)
Definition occurrences (label : str) (header_row : list str) : list Z :=
  map fst (filter (fun ic => PyStr.eqb (PyStr.strip (snd ic)) label)
                  (enumerate header_row)).

Definition get_column_index (label : str) (index : Z) (header_row : list str)
  : result (option Z) :=
  let occurrences := occurrences label header_row in
  if index <? len occurrences
  then i <- getitem occurrences index ;; Ok (Some (i + 1))
  else Ok None.

(** The same list for an enumeration that starts at [start]. *)
Definition occurrences_from (start : Z) (label : str) (header_row : list str)
  : list Z :=
  map fst (filter (fun ic => PyStr.eqb (PyStr.strip (snd ic)) label)
                  (enumerate_from start header_row)).

(** The number of cells of a header row that equal [label] once trimmed. *)
Definition count_matches (label : str) (header_row : list str) : nat :=
  length (filter (fun cell => PyStr.eqb (PyStr.strip cell) label) header_row).

(** ** Row matcher (the loop of [main] that locates a campaign's row) *)

(** A value compared with a sheet cell: a campaign name, or an entry of the
    alias table, which holds strings, numbers (numeric cells are read as
    numbers) and NaN. *)
Inductive cell : Set :=
| NaN
| Str (t : str)
| Num (z : Z).

Definition cell_eqb (a b : cell) : bool :=
  match a, b with
  | Str x, Str y => PyStr.eqb x y
  | Num x, Num y => x =? y
  | _, _ => false
  end.

(** [for j, row_data in enumerate(data): if row_data[0].strip() == name:
    camp_row_index = j + 1; break], with [enumerate] started at [j]. The
    result is [camp_row_index]; [row_data[0]] raises on an empty row. *)
Fixpoint locate_row_from (j : Z) (data : list (list str)) (name : cell)
  : result (option Z) :=
  match data with
  | [] => Ok None
  | row_data :: rest =>
      c <- getitem row_data 0 ;;
      if cell_eqb (Str (PyStr.strip c)) name then Ok (Some (j + 1))
      else locate_row_from (j + 1) rest name
  end.

Definition locate_row (data : list (list str)) (name : cell)
  : result (option Z) :=
  locate_row_from 0 data name.

(** ** Alias resolver
       ([find_alternate_campaign_name_with_new_structure]) *)

(** The settings frame: its column names and its rows of cells. *)
Record DataFrame : Set := {
  columns : list str;
  rows : list (list cell)
}.

(** Position of the first element satisfying [p]. *)
Fixpoint find_index {A : Type} (p : A -> bool) (l : list A) : option nat :=
  match l with
  | [] => None
  | x :: l' => if p x then Some O else option_map S (find_index p l')
  end.

(** [df[name].values]: the cells of the column called [name]. *)
Definition column_values (df : DataFrame) (name : str) : result (list cell) :=
  match find_index (PyStr.eqb name) (columns df) with
  | Some c => Ok (map (fun r => nth c r NaN) (rows df))
  | None => Raise KeyError
  end.

(** [df.iloc[row_index]]. *)
Definition iloc (df : DataFrame) (row_index : nat) : list cell :=
  nth row_index (rows df) [].

Definition notna (c : cell) : bool :=
  match c with NaN => false | _ => true end.

Definition dropna (l : list cell) : list cell := filter notna l.

(** [Series.unique()]: first occurrences, in order. *)
Fixpoint unique (l : list cell) : list cell :=
  match l with
  | [] => []
  | x :: l' => x :: filter (fun y => negb (cell_eqb x y)) (unique l')
  end.

(** [df[df[col] == name].index[0]]: the first row holding [name] in the
    column whose cells are [vals]. *)
Definition first_row (vals : list cell) (name : str) : result nat :=
  match find_index (fun c => cell_eqb c (Str name)) vals with
  | Some r => Ok r
  | None => Raise IndexError
  end.

Definition contains (vals : list cell) (name : str) : bool :=
  existsb (fun c => cell_eqb c (Str name)) vals.

(** The [for col in settings_df.columns[1:]] loop. *)
Fixpoint scan_columns (df : DataFrame) (campaign_name : str) (cols : list str)
  : result (list cell) :=
  match cols with
  | [] => Ok []
  | col :: cols' =>
      vals <- column_values df col ;;
      if contains vals campaign_name then
        row_index <- first_row vals campaign_name ;;
        let alternate_names := unique (dropna (iloc df row_index)) in
        Ok (filter (fun name => negb (cell_eqb name (Str campaign_name)))
                   alternate_names)
      else scan_columns df campaign_name cols'
  end.

Definition find_alternate_campaign_name_with_new_structure
  (settings_df : DataFrame) (campaign_name : str) : result (list cell) :=
  camp <- column_values settings_df (py "Camp") ;;
  if contains camp campaign_name then
    row_index <- first_row camp campaign_name ;;
    Ok (unique (dropna (skipn 1 (iloc settings_df row_index))))
  else scan_columns settings_df campaign_name (tl (columns settings_df)).

(** A frame as [get_all_records] builds it: distinct column names, the first
    one [Camp], and one cell per column in every row. *)
Definition well_formed (df : DataFrame) : Prop :=
  NoDup (columns df) /\
  hd_error (columns df) = Some (py "Camp") /\
  Forall (fun r => length r = length (columns df)) (rows df).

(** The cell at row [r], column [c] of the table. *)
Definition cell_at (df : DataFrame) (r c : nat) : option cell :=
  match nth_error (rows df) r with
  | Some row => nth_error row c
  | None => None
  end.

(** The row-major scan: rows top to bottom, the cells of a row left to
    right from column 1; the row of the first cell equal to [name]. *)
Definition first_row_row_major (df : DataFrame) (name : str) : option nat :=
  find_index (fun row => contains (skipn 1 row) name) (rows df).

(** ** Aggregators *)

(** The values present in a column (NaN skipped). *)
Fixpoint present {A : Type} (l : list (option A)) : list A :=
  match l with
  | [] => []
  | Some x :: l' => x :: present l'
  | None :: l' => present l'
  end.

Definition Zsum (l : list Z) : Z := fold_right Z.add 0 l.

(** *** Numbers of a column *)

(** The int64 that a two's complement addition leaves: [z] modulo 2^64,
    taken between -2^63 and 2^63 - 1. *)
Definition wrap64 (z : Z) : Z := (z + 2 ^ 63) mod 2 ^ 64 - 2 ^ 63.

Definition in_int64 (z : Z) : bool := (- 2 ^ 63 <=? z) && (z <? 2 ^ 63).

(** The float64 nearest to an integer (the cast of an int64 to float64). *)
Definition to_float (z : Z) : float :=
  SF2Prim (binary_normalize prec emax z 0 false).

Definition isfinite (f : float) : bool :=
  negb (PrimFloat.is_nan f || PrimFloat.is_infinity f).

Definition notnan (f : float) : bool := negb (PrimFloat.is_nan f).

(** A numeric cell as [read_csv] parsed its text: an integer (of 64 bits,
    signed), or a float, NaN when the cell is empty. A column that
    [read_csv] does not read as int64 or float64 (text, booleans, integers
    beyond 64 bits) has no cells of this type. *)
Inductive num : Set :=
| Int (z : Z)
| Float (f : float).

Definition is_int (n : num) : bool :=
  match n with Int _ => true | Float _ => false end.

(** A column is int64 when every cell of the file is an integer, and
    float64 otherwise (an empty cell makes it float64). *)
Definition is_int64 (column : list num) : bool := forallb is_int column.

(** The integers of the cells of an int64 column. *)
Definition ints (cells : list num) : list Z :=
  flat_map (fun n => match n with Int z => [z] | Float _ => [] end) cells.

(** The floats of the cells of a float64 column, and of an int64 column
    cast to float64. *)
Definition floats (cells : list num) : list float :=
  map (fun n => match n with Int z => to_float z | Float f => f end) cells.

(** One step of the compensated (Kahan) summation of [group_sum] and
    [group_mean]:
    [y = val - compensation; t = sumx + y;
     compensation = t - sumx - y; if compensation != compensation:
     compensation = 0; sumx = t]. *)
Definition kahan_step (acc : float * float) (val : float) : float * float :=
  let (sumx, compensation) := acc in
  let y := (val - compensation)%float in
  let t := (sumx + y)%float in
  let compensation := (t - sumx - y)%float in
  let compensation :=
    if PrimFloat.is_nan compensation then 0%float else compensation in
  (t, compensation).

Definition kahan_sum (vals : list float) : float :=
  fst (fold_left kahan_step vals (0%float, 0%float)).

(** The ['sum'] reduction of a group of cells of a column, [int64] telling
    the dtype of the column: int64 cells add up modulo 2^64; float64 cells
    add up in float64, NaN cells skipped; a group without value sums
    to 0. *)
Definition nansum (int64 : bool) (group : list num) : num :=
  if int64 then Int (wrap64 (Zsum (ints group)))
  else Float (kahan_sum (filter notnan (floats group))).

(** The ['mean'] reduction: the cells are taken as float64, NaN cells are
    skipped, and the mean of no value is NaN. *)
Definition nanmean (group : list num) : float :=
  match filter notnan (floats group) with
  | [] => nan
  | vals => (kahan_sum vals / to_float (len vals))%float
  end.

(** The group keys of [groupby]: the distinct keys, sorted. *)
Fixpoint insert_key (k : str) (l : list str) : list str :=
  match l with
  | [] => [k]
  | x :: l' => if PyStr.ltb x k then x :: insert_key k l' else k :: l
  end.

Definition sort_keys (l : list str) : list str := fold_right insert_key [] l.

Definition group_keys (keys : list str) : list str :=
  sort_keys (nodup (list_eq_dec N.eq_dec) keys).

Definition is_key (k : str) (key : option str) : bool :=
  match key with
  | Some x => PyStr.eqb x k
  | None => false
  end.

Definition isSome {A : Type} (o : option A) : bool :=
  match o with Some _ => true | None => false end.

(** *** CTC mode ([load_and_process_csv]) *)

Module CtcReport.
(** A row of the uploaded report, as [read_csv] gives it; the four
    metric columns are numeric. *)
Record row : Set := {
  Campaign : option str;
  Calls : num;
  Connects : num;
  Calls_to_Connect : num;
  Abandoned : num
}.
End CtcReport.

Module CtcSummary.
Record row : Set := {
  Camp : str;
  Calls : num;
  Connects : num;
  CTC : float;
  Abandoned : num
}.
End CtcSummary.

(** The function on a report that has its five columns (the selection of
    a column that the report lacks is in [aggregate]). The dtype of each
    column is the one of the file as read, before the rows without
    campaign are dropped. *)
Definition load_and_process_csv (file : list CtcReport.row)
  : list CtcSummary.row :=
  let calls_int64 := is_int64 (map CtcReport.Calls file) in
  let connects_int64 := is_int64 (map CtcReport.Connects file) in
  let abandoned_int64 := is_int64 (map CtcReport.Abandoned file) in
  let data := filter (fun r => isSome (CtcReport.Campaign r)) file in
  map (fun camp =>
         let group :=
           filter (fun r => is_key camp (CtcReport.Campaign r)) data in
         {| CtcSummary.Camp := camp;
            CtcSummary.Calls :=
              nansum calls_int64 (map CtcReport.Calls group);
            CtcSummary.Connects :=
              nansum connects_int64 (map CtcReport.Connects group);
            CtcSummary.CTC := nanmean (map CtcReport.Calls_to_Connect group);
            CtcSummary.Abandoned :=
              nansum abandoned_int64 (map CtcReport.Abandoned group) |})
      (group_keys (present (map CtcReport.Campaign data))).

(** *** Log mode ([process_campaign_data_by_name]) *)

(** A cell of the [Recording Length (Seconds)] column as [read_csv] parsed
    its text: an integer (of 64 bits, signed), a float (NaN when the cell
    is empty), or the text itself when the column holds text. The columns
    modelled are the int64, float64 and object (text) ones; one read as
    booleans or as unsigned integers has no cells of this type. *)
Inductive value : Set :=
| VInt (z : Z)
| VFloat (f : float)
| VStr (t : str).

Module LogReport.
Record row : Set := {
  Current_campaign : option str;
  Recording_Length : value
}.
End LogReport.

Module LogSummary.
Record row : Set := {
  Camp : str;
  Recording_Length_Seconds : Z;
  Logged_Calls : Z;
  Dial_Time : str
}.
End LogSummary.

(** The dtype [read_csv] gives the column: object as soon as one cell is
    text (every cell is then kept as text), int64 when every cell is an
    integer, float64 otherwise. *)
Inductive dtype : Set :=
| int64
| float64
| object.

Definition is_text (v : value) : bool :=
  match v with VStr _ => true | _ => false end.

Definition is_integer (v : value) : bool :=
  match v with VInt _ => true | _ => false end.

Definition dtype_of (column : list value) : dtype :=
  if existsb is_text column then object
  else if forallb is_integer column then int64
  else float64.

Definition is_digit (c : N) : bool := ((48 <=? c) && (c <=? 57))%N.

(** The code points of the digit zero of each script of Unicode 14.0 (the
    characters of category Nd come in runs of ten, from zero to nine). *)
Definition decimal_zeros : list N :=
  [48; 1632; 1776; 1984; 2406; 2534; 2662; 2790; 2918; 3046; 3174; 3302;
   3430; 3558; 3664; 3792; 3872; 4160; 4240; 6112; 6160; 6470; 6608; 6784;
   6800; 6992; 7088; 7232; 7248; 42528; 43216; 43264; 43472; 43504; 43600;
   44016; 65296; 66720; 68912; 69734; 69872; 69942; 70096; 70384; 70736;
   70864; 71248; 71360; 71472; 71904; 72016; 72784; 73040; 73120; 92768;
   92864; 93008; 120782; 120792; 120802; 120812; 120822; 123200; 123632;
   125264; 130032]%N.

(** The value of a decimal digit, of any script. *)
Definition decimal_digit (c : N) : option Z :=
  match find (fun zero => (zero <=? c) && (c <? zero + 10))%N decimal_zeros
  with
  | Some zero => Some (Z.of_N (c - zero))
  | None => None
  end.

(** The whitespace [int()] skips around the literal: the ASCII blanks
    (tab to carriage return, and the space) and the Unicode spaces above
    ASCII; the separators U+001C to U+001F, which [str.strip] removes, are
    not among them. *)
Definition int_space (c : N) : bool :=
  if (c <? 127)%N then ((9 <=? c) && (c <=? 13))%N || (c =? 32)%N
  else PyStr.isspace c.

Fixpoint skip_space (t : str) : str :=
  match t with
  | [] => []
  | c :: t' => if int_space c then skip_space t' else t
  end.

(** The digits at the head of [t], single underscores allowed between
    them: their value, their number and what follows them; [None] for a
    doubled or a trailing underscore. *)
Fixpoint scan_digits (acc : Z) (digits : N) (prev_underscore : bool)
  (t : str) : option (Z * N * str) :=
  match t with
  | [] => if prev_underscore then None else Some (acc, digits, [])
  | c :: t' =>
      if (c =? 95)%N then
        if prev_underscore then None else scan_digits acc digits true t'
      else
        match decimal_digit c with
        | Some d => scan_digits (10 * acc + d) (digits + 1)%N false t'
        | None =>
            if prev_underscore then None else Some (acc, digits, t)
        end
  end.

(** The most digits [int()] reads ([sys.get_int_max_str_digits()]). *)
Definition int_max_str_digits : N := 4300.

(** [int(t)] for a [str]: whitespace, an optional sign, the digits, then
    whitespace up to the end; [None] where Python raises [ValueError]. *)
Definition py_int (t : str) : option Z :=
  let t := skip_space t in
  let (negative, t) :=
    match t with
    | c :: t' =>
        if (c =? 45)%N then (true, t')
        else if (c =? 43)%N then (false, t')
        else (false, t)
    | [] => (false, t)
    end in
  match t with
  | c :: _ =>
      if (c =? 95)%N then None
      else
        match scan_digits 0 0 false t with
        | Some (n, digits, rest) =>
            if (digits =? 0)%N || (int_max_str_digits <? digits)%N then None
            else
              match skip_space rest with
              | [] => Some (if negative then - n else n)
              | _ :: _ => None
              end
        | None => None
        end
  | [] => None
  end.

(** The integer part of a finite float (truncation toward zero). *)
Definition truncate (f : float) : Z :=
  match Prim2SF f with
  | S754_finite negative m e =>
      let n := if 0 <=? e then Zpos m * 2 ^ e else Zpos m / 2 ^ (- e) in
      if negative then - n else n
  | _ => 0
  end.

(** The cast of a finite float64 to int64: its integer part; outside the
    range of int64 the cast is the one of the processor, which on x86-64
    gives -2^63. *)
Definition float_to_int64 (f : float) : Z :=
  let n := truncate f in
  if in_int64 n then n else - 2 ^ 63.

(** The cast of a float64 column refuses a value that is not finite. *)
Definition float64_to_int (f : float) : result Z :=
  if isfinite f then Ok (float_to_int64 f) else Raise ValueError.

(** The storing of a Python integer in an int64 column. *)
Definition int64_of (z : Z) : result Z :=
  if in_int64 z then Ok z else Raise OverflowError.

(** [astype(int)] on one cell of a column of dtype [column]. In an int64
    column the cell is kept. In a float64 column, where an integer cell
    stands for its float, an infinite value is refused and a finite one is
    truncated toward zero. In an object column every cell is a text, which
    goes through [int()]: a cell parsed as an integer is the text of that
    integer, a cell parsed as a float is a text that [int()] refuses. (No
    float stands in an int64 column and no text in a numeric one: these
    cases are given the result of the float and [ValueError].) *)
Definition astype_int (column : dtype) (v : value) : result Z :=
  match column, v with
  | object, VStr t =>
      match py_int t with
      | Some z => int64_of z
      | None => Raise ValueError
      end
  | object, VInt z => int64_of z
  | object, VFloat _ => Raise ValueError
  | int64, VInt z => Ok z
  | _, VInt z => float64_to_int (to_float z)
  | _, VFloat f => float64_to_int f
  | _, VStr _ => Raise ValueError
  end.

Definition notnull (v : value) : bool :=
  match v with VFloat f => notnan f | _ => true end.

(** Decimal digits of [n], most significant first. *)
Fixpoint digits_fuel (fuel : nat) (n : N) (acc : str) : str :=
  match fuel with
  | O => acc
  | S fuel' =>
      let acc' := (48 + n mod 10)%N :: acc in
      if (n / 10 =? 0)%N then acc' else digits_fuel fuel' (n / 10)%N acc'
  end.

Definition decimal (n : N) : str :=
  digits_fuel (S (N.to_nat (N.log2 n))) n [].

Definition zfill (width : nat) (d : str) : str :=
  repeat 48%N (width - length d) ++ d.

(** The format [{n:02}] of an integer: zero-padded to two characters, the
    sign counting as one. *)
Definition format_02 (n : Z) : str :=
  if n <? 0 then 45%N :: zfill 1 (decimal (Z.to_N (- n)))
  else zfill 2 (decimal (Z.to_N n)).

Definition seconds_to_hms (seconds : Z) : str :=
  let hours := seconds / 3600 in
  let minutes := (seconds mod 3600) / 60 in
  let seconds := seconds mod 60 in
  format_02 hours ++ py ":" ++ format_02 minutes ++ py ":" ++ format_02 seconds.

(** The dtype of the recording lengths is the one of the file as read,
    before the incomplete rows are dropped; the seconds of a campaign add
    up in int64. *)
Definition process_campaign_data_by_name (file : list LogReport.row)
  : result (list LogSummary.row) :=
  let column := dtype_of (map LogReport.Recording_Length file) in
  let df := filter (fun r => isSome (LogReport.Current_campaign r)
                             && notnull (LogReport.Recording_Length r)) file in
  lengths <- mapM (astype_int column) (map LogReport.Recording_Length df) ;;
  let df := combine (map LogReport.Current_campaign df) lengths in
  Ok (map (fun camp =>
             let group := filter (fun r => is_key camp (fst r)) df in
             let Recording_Length_Seconds := wrap64 (Zsum (map snd group)) in
             {| LogSummary.Camp := camp;
                LogSummary.Recording_Length_Seconds :=
                  Recording_Length_Seconds;
                LogSummary.Logged_Calls := len group;
                LogSummary.Dial_Time :=
                  seconds_to_hms Recording_Length_Seconds |})
          (group_keys (present (map fst df)))).

(** The value of a string of decimal digits (the reading of a field of a
    formatted duration). *)
Definition decimal_value (t : str) : Z :=
  fold_left (fun v c => 10 * v + (Z.of_N c - 48)) t 0.

(** ** Update orchestrator ([main], once [Execute] is pressed with a file) *)

(** The uploaded file as [pd.read_csv] returns it to the aggregator: a
    report that has the columns the aggregator names, given by its rows,
    or one that lacks such a column. *)
Inductive upload (A : Set) : Set :=
| Report (rows : list A)
| Lacks_column.

Arguments Report {A} rows.
Arguments Lacks_column {A}.

(** A list of rows stands for the report that has them. *)
Coercion Report : list >-> upload.

(** The selected update type, with the uploaded file as the function it
    selects reads it. *)
Inductive request : Set :=
| CTC (uploaded_file : upload CtcReport.row)
| Log_type (uploaded_file : upload LogReport.row).

Inductive summary_row : Set :=
| CtcRow (row : CtcSummary.row)
| LogRow (row : LogSummary.row).

(** A value handed to [update_cell]: a number or a text. *)
Inductive written : Set :=
| WNumber (n : num)
| WText (t : str).

Definition WInt (z : Z) : written := WNumber (Int z).

Inductive message : Set :=
| Invalid_day_index        (* "Invalid day index for one or more columns. ..." *)
| An_error_occurred (e : exn).

(** What a run does to the outside: the calls to Streamlit and the cell
    writes, in order. The spreadsheet service is taken to answer every
    request; its failures are not part of the model. *)
Inductive event : Set :=
| st_write
| st_error (m : message)
| st_info (alt_name : cell) (camp_name : str)
| st_success (camp_name : str) (day : Z)
| st_warning (camp_name : str)
| update_cell (row : Z) (col : option Z) (v : written).

(** A computation that emits events and returns or raises. *)
Definition io (A : Type) : Type := (list event * result A)%type.

Definition ret {A : Type} (a : A) : io A := ([], Ok a).

Definition emit (e : event) : io unit := ([e], Ok tt).

Definition lift {A : Type} (r : result A) : io A := ([], r).

Definition io_bind {A B : Type} (m : io A) (k : A -> io B) : io B :=
  match m with
  | (t, Ok a) => let (t', r) := k a in (t ++ t', r)
  | (t, Raise e) => (t, Raise e)
  end.

Notation "x <~ m ;; k" := (io_bind m (fun x => k))
  (at level 61, m at next level, right associativity).

(** [try: m  except Exception as e: st.error(...)]. *)
Definition try_except (m : io unit) : io unit :=
  match m with
  | (t, Raise e) => (t ++ [st_error (An_error_occurred e)], Ok tt)
  | _ => m
  end.

Fixpoint for_each {A : Type} (l : list A) (body : A -> io unit) : io unit :=
  match l with
  | [] => ret tt
  | x :: l' => _ <~ body x ;; for_each l' body
  end.

Definition update_columns (req : request) : list str :=
  match req with
  | CTC _ => [py "Calls"; py "CTC"; py "Abandoned"; py "Connects"]
  | Log_type _ => [py "Logged Calls"; py "Dial Time"]
  end.

(** The selection of the columns the aggregator names ([subset=[...]],
    [agg({...})]): [KeyError] on a report that lacks one. *)
Definition rows_of_report {A : Set} (file : upload A) : result (list A) :=
  match file with
  | Report rows => Ok rows
  | Lacks_column => Raise KeyError
  end.

Definition aggregate (req : request) : result (list summary_row) :=
  match req with
  | CTC uploaded_file =>
      data <- rows_of_report uploaded_file ;;
      Ok (map CtcRow (load_and_process_csv data))
  | Log_type uploaded_file =>
      df <- rows_of_report uploaded_file ;;
      summary <- process_campaign_data_by_name df ;;
      Ok (map LogRow summary)
  end.

Definition camp_of (row : summary_row) : str :=
  match row with
  | CtcRow r => CtcSummary.Camp r
  | LogRow r => LogSummary.Camp r
  end.

(** [d[k]] and [k in d] for a dict kept as an association list. *)
Fixpoint dict_get {V : Type} (d : list (str * V)) (k : str) : result V :=
  match d with
  | [] => Raise KeyError
  | (k', v) :: d' => if PyStr.eqb k' k then Ok v else dict_get d' k
  end.

Definition dict_mem {V : Type} (d : list (str * V)) (k : str) : bool :=
  existsb (fun kv => PyStr.eqb (fst kv) k) d.

Definition isNone {A : Type} (o : option A) : bool :=
  match o with Some _ => false | None => true end.

Definition number (f : float) : written := WNumber (Float f).

(** The retry of the row search with each alternate name, in order. *)
Fixpoint try_alternates (data : list (list str)) (camp_name : str)
  (alternate_names : list cell) : io (option Z) :=
  match alternate_names with
  | [] => ret None
  | alt_name :: rest =>
      camp_row_index <~ lift (locate_row data alt_name) ;;
      match camp_row_index with
      | Some i => _ <~ emit (st_info alt_name camp_name) ;; ret (Some i)
      | None => try_alternates data camp_name rest
      end
  end.

Definition find_camp_row (data : list (list str)) (settings_df : DataFrame)
  (camp_name : str) : io (option Z) :=
  camp_row_index <~ lift (locate_row data (Str camp_name)) ;;
  match camp_row_index with
  | Some i => ret (Some i)
  | None =>
      alternate_names <~
        lift (find_alternate_campaign_name_with_new_structure
                settings_df camp_name) ;;
      try_alternates data camp_name alternate_names
  end.

Definition write (target_columns : list (str * option Z)) (camp_row_index : Z)
  (label : str) (v : written) : io unit :=
  col <~ lift (dict_get target_columns label) ;;
  emit (update_cell camp_row_index col v).

Definition update_row (target_columns : list (str * option Z))
  (camp_row_index : Z) (row : summary_row) : io unit :=
  match row with
  | CtcRow r =>
      _ <~ write target_columns camp_row_index (py "Calls")
             (WNumber (CtcSummary.Calls r)) ;;
      _ <~ write target_columns camp_row_index (py "Connects")
             (WNumber (CtcSummary.Connects r)) ;;
      _ <~ write target_columns camp_row_index (py "CTC")
             (number (CtcSummary.CTC r)) ;;
      write target_columns camp_row_index (py "Abandoned")
        (WNumber (CtcSummary.Abandoned r))
  | LogRow r =>
      _ <~ write target_columns camp_row_index (py "Logged Calls")
             (WInt (LogSummary.Logged_Calls r)) ;;
      if dict_mem target_columns (py "Dial Time") then
        write target_columns camp_row_index (py "Dial Time")
          (WText (LogSummary.Dial_Time r))
      else ret tt
  end.

(** [req] is the update type with the uploaded file, [day_index] the
    selected day minus one, [data] the cells of the worksheet
    ([get_all_values]) and [settings_df] the frame of the [AhmedSettings]
    sheet. *)
Definition main (req : request) (day_index : Z) (data : list (list str))
  (settings_df : DataFrame) : io unit :=
  connects_target_df <~ lift (aggregate req) ;;
  _ <~ emit st_write ;;
  try_except (
    header_row <~ lift (getitem data 1) ;;
    target_columns <~
      lift (mapM (fun col =>
                    i <- get_column_index col day_index header_row ;;
                    Ok (col, i))
                 (update_columns req)) ;;
    if existsb isNone (map snd target_columns) then
      emit (st_error Invalid_day_index)
    else
      for_each connects_target_df (fun row =>
        let camp_name := camp_of row in
        camp_row_index <~ find_camp_row data settings_df camp_name ;;
        match camp_row_index with
        | Some i =>
            _ <~ update_row target_columns i row ;;
            emit (st_success camp_name (day_index + 1))
        | None => emit (st_warning camp_name)
        end)).

Definition is_update_cell (e : event) : bool :=
  match e with update_cell _ _ _ => true | _ => false end.

(** The cell writes a run issued. *)
Definition writes (run : io unit) : list event :=
  filter is_update_cell (fst run).

(** ** Reference notions used to state the properties *)

(** Row [j] of the grid is the first whose trimmed first cell is [name]:
    it matches, and every row above it has a first cell that does not. *)
Definition first_match (data : list (list str)) (name : str) (j : nat)
  : Prop :=
  (exists c rest,
     nth_error data j = Some (c :: rest) /\ PyStr.strip c = name) /\
  (forall j', (j' < j)%nat ->
     exists c rest,
       nth_error data j' = Some (c :: rest) /\ PyStr.strip c <> name).

(** Two settings tables used as examples: an alias placed on two rows, in
    different columns, and an alias shared by two campaigns. *)
Definition settings_two_columns : DataFrame :=
  {| columns := [py "Camp"; py "Alt1"; py "Alt2"];
     rows := [[Str (py "Camp X"); Str (py ""); Str (py "North")];
              [Str (py "Camp Y"); Str (py "North"); Str (py "")]] |}.

Definition settings_shared_alias : DataFrame :=
  {| columns := [py "Camp"; py "Alt1"];
     rows := [[Str (py "Camp Y"); Str (py "Camp X")];
              [Str (py "Camp Z"); Str (py "Camp X")]] |}.

(** The scenario of the CTC aggregation: two report rows for "Camp A". *)
Definition camp_a_first : CtcReport.row :=
  {| CtcReport.Campaign := Some (py "Camp A");
     CtcReport.Calls := Int 10;
     CtcReport.Connects := Int 5;
     CtcReport.Calls_to_Connect := Int 50;
     CtcReport.Abandoned := Int 1 |}.

Definition camp_a_second : CtcReport.row :=
  {| CtcReport.Campaign := Some (py "Camp A");
     CtcReport.Calls := Int 20;
     CtcReport.Connects := Int 10;
     CtcReport.Calls_to_Connect := Int 60;
     CtcReport.Abandoned := Int 2 |}.

(** A report row with a campaign and no [Calls] value. *)
Definition camp_a_without_calls : CtcReport.row :=
  {| CtcReport.Campaign := Some (py "Camp A");
     CtcReport.Calls := Float nan;
     CtcReport.Connects := Int 5;
     CtcReport.Calls_to_Connect := Int 50;
     CtcReport.Abandoned := Int 1 |}.

(** A report row with 2^62 calls. *)
Definition camp_a_many_calls : CtcReport.row :=
  {| CtcReport.Campaign := Some (py "Camp A");
     CtcReport.Calls := Int (2 ^ 62);
     CtcReport.Connects := Int 1;
     CtcReport.Calls_to_Connect := Int 1;
     CtcReport.Abandoned := Int 0 |}.

(** The number [z], as an integer or as the float of an integer. *)
Definition is_number (n : num) (z : Z) : Prop :=
  n = Int z \/ n = Float (to_float z).

(** A numeric cell is missing. *)
Definition isna (n : num) : bool :=
  match n with Float f => PrimFloat.is_nan f | Int _ => false end.

(** The integers of a report are 64-bit integers, as [read_csv] has them
    in an int64 or a float64 column. *)
Definition int64_cell (n : num) : bool :=
  match n with Int z => in_int64 z | Float _ => true end.

Definition int64_report (file : list CtcReport.row) : Prop :=
  Forall (fun r => int64_cell (CtcReport.Calls r)
                   && int64_cell (CtcReport.Connects r)
                   && int64_cell (CtcReport.Calls_to_Connect r)
                   && int64_cell (CtcReport.Abandoned r) = true) file.

(** The dtypes of the three columns that are summed. *)
Definition sum_dtypes (file : list CtcReport.row) : bool * bool * bool :=
  (is_int64 (map CtcReport.Calls file),
   is_int64 (map CtcReport.Connects file),
   is_int64 (map CtcReport.Abandoned file)).

(** The rows of a report that belong to campaign [camp]. *)
Definition rows_of (camp : str) (file : list CtcReport.row)
  : list CtcReport.row :=
  filter (fun r => is_key camp (CtcReport.Campaign r)) file.

(** A CTC row misses a required field. *)
Definition misses_field (r : CtcReport.row) : Prop :=
  CtcReport.Campaign r = None \/ isna (CtcReport.Calls r) = true \/
  isna (CtcReport.Connects r) = true \/
  isna (CtcReport.Calls_to_Connect r) = true \/
  isna (CtcReport.Abandoned r) = true.

(** A string of decimal digits. *)
Definition all_digits (t : str) : Prop :=
  Forall (fun c => is_digit c = true) t.

(** A recording length that is present and is not an integer: a finite
    float with a fractional part, or text that [int()] rejects. *)
Definition non_integer (v : value) : Prop :=
  match v with
  | VFloat f => isfinite f = true /\ to_float (truncate f) <> f
  | VStr t => py_int t = None
  | VInt _ => False
  end.

(** A numeric recording length (not a text). *)
Definition numeric (v : value) : Prop := is_text v = false.

(** A recording length that is infinite (an integer beyond the range of
    float64 counts as such). *)
Definition infinite (v : value) : bool :=
  match v with
  | VInt z => negb (isfinite (to_float z))
  | VFloat f => PrimFloat.is_infinity f
  | VStr _ => false
  end.

(** The whole seconds of a numeric recording length, in a column of dtype
    [column]: the integer of an int64 column, the integer part of a finite
    float. *)
Definition whole_seconds (column : dtype) (v : value) : Z :=
  match column, v with
  | int64, VInt z => z
  | _, VInt z => float_to_int64 (to_float z)
  | _, VFloat f => float_to_int64 f
  | _, VStr _ => 0
  end.

(** The recording lengths of a log that are numbers are within 64 bits:
    the integers, and the integer parts of the floats. *)
Definition int64_length (v : value) : bool :=
  match v with
  | VInt z => in_int64 z
  | VFloat f => in_int64 (truncate f)
  | VStr _ => true
  end.

Definition int64_log (file : list LogReport.row) : Prop :=
  Forall (fun r => int64_length (LogReport.Recording_Length r) = true) file.

(** The log rows of campaign [camp] that have a recording length. *)
Definition calls_of (camp : str) (file : list LogReport.row)
  : list LogReport.row :=
  filter (fun r => is_key camp (LogReport.Current_campaign r)
                   && notnull (LogReport.Recording_Length r)) file.

(** A log of one call of 12.5 seconds. *)
Definition fractional_call : LogReport.row :=
  {| LogReport.Current_campaign := Some (py "Camp A");
     LogReport.Recording_Length := VFloat 12.5 |}.

(** A log of one call of 2^62 seconds. *)
Definition long_call : LogReport.row :=
  {| LogReport.Current_campaign := Some (py "Camp A");
     LogReport.Recording_Length := VInt (2 ^ 62) |}.

(** Logs of one call each: a length given by the text "12.5", an infinite
    length, a length written in Arabic-Indic digits (U+0661 U+0662), a call
    without campaign and a call without length. *)
Definition text_call : LogReport.row :=
  {| LogReport.Current_campaign := Some (py "Camp A");
     LogReport.Recording_Length := VStr (py "12.5") |}.

Definition infinite_call : LogReport.row :=
  {| LogReport.Current_campaign := Some (py "Camp A");
     LogReport.Recording_Length := VFloat infinity |}.

Definition arabic_indic_call : LogReport.row :=
  {| LogReport.Current_campaign := Some (py "Camp A");
     LogReport.Recording_Length := VStr [1633; 1634]%N |}.

Definition call_without_campaign : LogReport.row :=
  {| LogReport.Current_campaign := None;
     LogReport.Recording_Length := VFloat 30 |}.

Definition call_without_length : LogReport.row :=
  {| LogReport.Current_campaign := Some (py "Camp A");
     LogReport.Recording_Length := VFloat nan |}.

(** A report row without campaign. *)
Definition row_without_campaign : CtcReport.row :=
  {| CtcReport.Campaign := None;
     CtcReport.Calls := Int 100;
     CtcReport.Connects := Int 50;
     CtcReport.Calls_to_Connect := Int 2;
     CtcReport.Abandoned := Int 10 |}.

(** A sheet whose header row has two weekdays of CTC columns. *)
Definition two_day_sheet : list (list str) :=
  [[py "Week 1"];
   [py "Campaign"; py "Calls"; py "CTC"; py "Abandoned"; py "Connects";
    py "Calls"; py "CTC"; py "Abandoned"; py "Connects"];
   [py "Camp A"]].

(** Row [j] of the grid is empty and every row above it has a first cell
    that is not [name] once trimmed. *)
Definition first_empty_row (data : list (list str)) (name : str) (j : nat)
  : Prop :=
  nth_error data j = Some [] /\
  (forall j', (j' < j)%nat ->
     exists c rest,
       nth_error data j' = Some (c :: rest) /\ PyStr.strip c <> name).

(** A settings frame without columns, as built from a sheet that has no
    records. *)
Definition settings_empty : DataFrame := {| columns := []; rows := [] |}.

(** The order of the summary rows: [a < b] on campaign names. *)
Definition key_lt (a b : str) : Prop := PyStr.ltb a b = true.

(** The report rows that have a campaign. *)
Definition with_campaign (file : list CtcReport.row) : list CtcReport.row :=
  filter (fun r => isSome (CtcReport.Campaign r)) file.

(** The log rows that have a campaign and a recording length. *)
Definition complete_calls (file : list LogReport.row) : list LogReport.row :=
  filter (fun r => isSome (LogReport.Current_campaign r)
                   && notnull (LogReport.Recording_Length r)) file.

(** An event stays inside the worksheet: a cell write addresses a row of
    the grid and a column of its header row (both 1-based). *)
Definition in_grid (data : list (list str)) (e : event) : Prop :=
  match e with
  | update_cell row col _ =>
      1 <= row <= len data /\
      exists c header_row,
        nth_error data 1 = Some header_row /\ col = Some c /\
        1 <= c <= len header_row
  | _ => True
  end.

(** A sheet with one campaign row, "Camp Y". *)
Definition camp_y_sheet : list (list str) :=
  [[py "Week 1"];
   [py "Campaign"; py "Calls"; py "CTC"; py "Abandoned"; py "Connects"];
   [py "Camp Y"]].

(** A summary row is of the kind the update type produces. *)
Definition row_kind_ok (req : request) (row : summary_row) : Prop :=
  match req, row with
  | CTC _, CtcRow _ => True
  | Log_type _, LogRow _ => True
  | _, _ => False
  end.

(** The column resolved for a label on the header row, for the day. *)
Definition resolved (day_index : Z) (header_row : list str) (label : str)
  : option Z :=
  match get_column_index label day_index header_row with
  | Ok o => o
  | Raise _ => None
  end.

(** The writes of a campaign updated on sheet row [i]: one per metric
    column, in the order of the code, each at the column resolved for its
    label. *)
Definition row_writes (day_index : Z) (header_row : list str) (i : Z)
  (row : summary_row) : list event :=
  let col := resolved day_index header_row in
  match row with
  | CtcRow r =>
      [update_cell i (col (py "Calls")) (WNumber (CtcSummary.Calls r));
       update_cell i (col (py "Connects")) (WNumber (CtcSummary.Connects r));
       update_cell i (col (py "CTC")) (number (CtcSummary.CTC r));
       update_cell i (col (py "Abandoned"))
                   (WNumber (CtcSummary.Abandoned r))]
  | LogRow r =>
      [update_cell i (col (py "Logged Calls"))
                   (WInt (LogSummary.Logged_Calls r));
       update_cell i (col (py "Dial Time")) (WText (LogSummary.Dial_Time r))]
  end.

(** The events of one summary row in a run that meets no failure. The
    campaign found under its own name is updated on that row: its writes,
    then the success message. Otherwise its alternate names are tried in
    order: the first that matches a row gives the row, announced by an
    info message before the writes; when none matches, the warning is the
    only event. *)
Definition row_trace (data : list (list str)) (settings_df : DataFrame)
  (day_index : Z) (header_row : list str) (row : summary_row)
  (t : list event) : Prop :=
  let camp_name := camp_of row in
  let updated i :=
    row_writes day_index header_row i row
    ++ [st_success camp_name (day_index + 1)] in
  (exists i, locate_row data (Str camp_name) = Ok (Some i) /\ t = updated i) \/
  (locate_row data (Str camp_name) = Ok None /\
   exists alternate_names,
     find_alternate_campaign_name_with_new_structure settings_df camp_name
     = Ok alternate_names /\
     ((exists before alt_name after i,
         alternate_names = before ++ alt_name :: after /\
         Forall (fun a => locate_row data a = Ok None) before /\
         locate_row data alt_name = Ok (Some i) /\
         t = st_info alt_name camp_name :: updated i) \/
      (Forall (fun a => locate_row data a = Ok None) alternate_names /\
       t = [st_warning camp_name]))).

(** A sheet with two campaign rows, "Camp A" and "Camp Y". *)
Definition camp_a_y_sheet : list (list str) :=
  [[py "Week 1"];
   [py "Campaign"; py "Calls"; py "CTC"; py "Abandoned"; py "Connects"];
   [py "Camp A"];
   [py "Camp Y"]].

(** A report row for "Camp X". *)
Definition camp_x_row : CtcReport.row :=
  {| CtcReport.Campaign := Some (py "Camp X");
     CtcReport.Calls := Int 7;
     CtcReport.Connects := Int 2;
     CtcReport.Calls_to_Connect := Float 3.5;
     CtcReport.Abandoned := Int 0 |}.

(** The body of the loop of [main] over the summary rows, for the target
    columns resolved before the loop. *)
Definition treat_row (data : list (list str)) (settings_df : DataFrame)
  (target_columns : list (str * option Z)) (day_index : Z)
  (row : summary_row) : io unit :=
  let camp_name := camp_of row in
  camp_row_index <~ find_camp_row data settings_df camp_name ;;
  match camp_row_index with
  | Some i =>
      _ <~ update_row target_columns i row ;;
      emit (st_success camp_name (day_index + 1))
  | None => emit (st_warning camp_name)
  end.

(** The target columns [main] builds before its loop:
    [{col: get_column_index(col, day_index, header_row) for col in
    update_columns}]. *)
Definition resolve_columns (cols : list str) (day_index : Z)
  (header_row : list str) : result (list (str * option Z)) :=
  mapM (fun col => i <- get_column_index col day_index header_row ;;
                   Ok (col, i)) cols.

(** A sheet with two campaign rows, "Camp A" and "Camp C". *)
Definition camp_a_c_sheet : list (list str) :=
  [[py "Week 1"];
   [py "Campaign"; py "Calls"; py "CTC"; py "Abandoned"; py "Connects"];
   [py "Camp A"];
   [py "Camp C"]].

(** Report rows for "Camp B" and "Camp C". *)
Definition camp_b_row : CtcReport.row :=
  {| CtcReport.Campaign := Some (py "Camp B");
     CtcReport.Calls := Int 4;
     CtcReport.Connects := Int 2;
     CtcReport.Calls_to_Connect := Int 2;
     CtcReport.Abandoned := Int 0 |}.

Definition camp_c_row : CtcReport.row :=
  {| CtcReport.Campaign := Some (py "Camp C");
     CtcReport.Calls := Int 6;
     CtcReport.Connects := Int 3;
     CtcReport.Calls_to_Connect := Int 2;
     CtcReport.Abandoned := Int 1 |}.

(** The trimmed first cell of a sheet row, if the row has one. *)
Definition trimmed_key (row : list str) : option str :=
  option_map PyStr.strip (hd_error row).

(** * Properties *)

(** ** Strings and sequences *)

Lemma pystr_eqb_eq (a b : str) : PyStr.eqb a b = true <-> a = b.
Proof.
  unfold PyStr.eqb. destruct (list_eq_dec N.eq_dec a b); split; congruence.
Qed.

Lemma pystr_eqb_refl (a : str) : PyStr.eqb a a = true.
Proof. now apply pystr_eqb_eq. Qed.

Lemma pystr_eqb_neq (a b : str) : PyStr.eqb a b = false <-> a <> b.
Proof.
  unfold PyStr.eqb. destruct (list_eq_dec N.eq_dec a b); split; congruence.
Qed.

Lemma getitem_nonneg {A : Type} (l : list A) (i : Z) (x : A) :
  0 <= i -> nth_error l (Z.to_nat i) = Some x -> getitem l i = Ok x.
Proof.
  intros Hi Hx. unfold getitem.
  destruct (i <? 0) eqn:E; [apply Z.ltb_lt in E; lia|].
  rewrite E, Hx. reflexivity.
Qed.

Lemma getitem_from_end {A : Type} (l : list A) (i : Z) (x : A) :
  i < 0 -> 0 <= len l + i -> nth_error l (Z.to_nat (len l + i)) = Some x ->
  getitem l i = Ok x.
Proof.
  intros Hi Hj Hx. unfold getitem.
  destruct (i <? 0) eqn:E; [|apply Z.ltb_ge in E; lia].
  destruct (len l + i <? 0) eqn:E'; [apply Z.ltb_lt in E'; lia|].
  rewrite Hx. reflexivity.
Qed.

Lemma getitem_before_start {A : Type} (l : list A) (i : Z) :
  len l + i < 0 -> getitem l i = Raise IndexError.
Proof.
  intros Hj. unfold getitem.
  assert (Hi : i < 0) by (unfold len in *; lia).
  apply Z.ltb_lt in Hi. rewrite Hi.
  apply Z.ltb_lt in Hj. rewrite Hj. reflexivity.
Qed.

(** ** Column resolver *)

Section ColumnResolver.

Variable label : str.

Let hit (cell : str) : bool := PyStr.eqb (PyStr.strip cell) label.

Lemma occurrences_from_cons (start : Z) (cell : str) (h : list str) :
  occurrences_from start label (cell :: h) =
  if hit cell then start :: occurrences_from (start + 1) label h
  else occurrences_from (start + 1) label h.
Proof.
  unfold occurrences_from, hit. simpl.
  destruct (PyStr.eqb (PyStr.strip cell) label); reflexivity.
Qed.

Lemma count_matches_cons (cell : str) (h : list str) :
  count_matches label (cell :: h) =
  if hit cell then S (count_matches label h) else count_matches label h.
Proof.
  unfold count_matches, hit. simpl.
  destruct (PyStr.eqb (PyStr.strip cell) label); reflexivity.
Qed.

Lemma count_matches_app (h1 h2 : list str) :
  count_matches label (h1 ++ h2) =
  (count_matches label h1 + count_matches label h2)%nat.
Proof.
  unfold count_matches. rewrite filter_app, length_app. reflexivity.
Qed.

Lemma length_occurrences_from (start : Z) (h : list str) :
  length (occurrences_from start label h) = count_matches label h.
Proof.
  revert start. induction h as [|cell h IH]; intros start.
  - reflexivity.
  - rewrite occurrences_from_cons, count_matches_cons.
    destruct (hit cell); simpl; rewrite IH; reflexivity.
Qed.

(** The [i]-th entry of the occurrence list is the position of the cell
    that matches and has [i] matching cells before it. *)
Lemma nth_occurrence (h : list str) :
  forall (start : Z) (i : nat),
    (i < count_matches label h)%nat ->
    exists p : nat,
      nth_error (occurrences_from start label h) i
      = Some (start + Z.of_nat p) /\
      (exists cell, nth_error h p = Some cell /\ PyStr.strip cell = label) /\
      count_matches label (firstn p h) = i.
Proof.
  induction h as [|cell h IH]; intros start i Hi.
  - unfold count_matches in Hi. simpl in Hi. lia.
  - rewrite count_matches_cons in Hi. rewrite occurrences_from_cons.
    destruct (hit cell) eqn:Hc.
    + destruct i as [|i].
      * exists O. simpl. split; [f_equal; lia|]. split; [|reflexivity].
        exists cell. split; [reflexivity|]. now apply pystr_eqb_eq.
      * destruct (IH (start + 1) i) as (p & Hp & Hcell & Hcount); [lia|].
        exists (S p). simpl nth_error. split; [rewrite Hp; f_equal; lia|].
        split; [exact Hcell|].
        simpl firstn. rewrite count_matches_cons, Hc, Hcount. reflexivity.
    + destruct (IH (start + 1) i) as (p & Hp & Hcell & Hcount); [lia|].
      exists (S p). simpl nth_error. split; [rewrite Hp; f_equal; lia|].
      split; [exact Hcell|].
      simpl firstn. rewrite count_matches_cons, Hc, Hcount. reflexivity.
Qed.

Lemma occurrences_from_0 (h : list str) :
  occurrences label h = occurrences_from 0 label h.
Proof. reflexivity. Qed.

Lemma len_occurrences (h : list str) :
  len (occurrences label h) = Z.of_nat (count_matches label h).
Proof.
  unfold len. now rewrite occurrences_from_0, length_occurrences_from.
Qed.

Lemma count_matches_split (h : list str) (p : nat) (cell : str) :
  nth_error h p = Some cell -> PyStr.strip cell = label ->
  count_matches label h =
  S (count_matches label (firstn p h)
     + count_matches label (skipn (S p) h))%nat.
Proof.
  intros Hp Hcell.
  rewrite <- (firstn_skipn p h) at 1.
  rewrite count_matches_app. 
  assert (Hs : skipn p h = cell :: skipn (S p) h).
  { clear Hcell. revert h Hp. induction p as [|p IH]; intros [|x h] Hp;
      simpl in Hp; try discriminate.
    - now inversion Hp.
    - simpl. now apply IH. }
  rewrite Hs, count_matches_cons. unfold hit.
  rewrite Hcell, pystr_eqb_refl. lia.
Qed.

End ColumnResolver.

(** C2. For a header row with [k] cells equal to the label once trimmed, the
    resolver returns, for an occurrence index [0 <= i < k], one plus the
    0-based position of the i-th such cell (the matching cell with exactly
    [i] matching cells before it), and returns not-found for [i >= k]. *)
Theorem get_column_index_occurrence (label : str) (header_row : list str)
  (i : Z) :
  0 <= i ->
  let k := Z.of_nat (count_matches label header_row) in
  (i < k ->
   exists p : nat,
     get_column_index label i header_row = Ok (Some (Z.of_nat p + 1)) /\
     (exists cell,
        nth_error header_row p = Some cell /\ PyStr.strip cell = label) /\
     count_matches label (firstn p header_row) = Z.to_nat i) /\
  (k <= i -> get_column_index label i header_row = Ok None).
Proof.
  intros Hi k. unfold get_column_index.
  rewrite len_occurrences. fold k. split; intros Hk.
  - destruct (nth_occurrence label header_row 0 (Z.to_nat i))
      as (p & Hp & Hcell & Hcount); [lia|].
    exists p. apply Z.ltb_lt in Hk. rewrite Hk.
    rewrite occurrences_from_0, (getitem_nonneg _ _ _ Hi Hp). simpl.
    repeat split; auto.
  - apply Z.ltb_ge in Hk. rewrite Hk. reflexivity.
Qed.

Lemma get_column_index_occurrence_witness :
  0 <= 1 /\
  let header_row := [py "Calls"; py "CTC"; py "Calls"; py "CTC"] in
  let k := Z.of_nat (count_matches (py "Calls") header_row) in
  (1 < k ->
   exists p : nat,
     get_column_index (py "Calls") 1 header_row = Ok (Some (Z.of_nat p + 1)) /\
     (exists cell,
        nth_error header_row p = Some cell /\
        PyStr.strip cell = py "Calls") /\
     count_matches (py "Calls") (firstn p header_row) = Z.to_nat 1) /\
  (k <= 1 -> get_column_index (py "Calls") 1 header_row = Ok None).
Proof.
  split; [lia|].
  apply (get_column_index_occurrence (py "Calls")
           [py "Calls"; py "CTC"; py "Calls"; py "CTC"] 1).
  lia.
Defined.

(** C10. A negative occurrence index never yields not-found: with at least
    [|index|] occurrences of the label the resolver returns the 1-based
    position of the occurrence counted from the end (exactly [|index| - 1]
    matching cells follow it; [-1] selects the last), and with fewer the
    call raises the out-of-range error. *)
Theorem get_column_index_negative (label : str) (header_row : list str)
  (index : Z) :
  index < 0 ->
  let k := Z.of_nat (count_matches label header_row) in
  get_column_index label index header_row <> Ok None /\
  (- index <= k ->
   exists p : nat,
     get_column_index label index header_row = Ok (Some (Z.of_nat p + 1)) /\
     (exists cell,
        nth_error header_row p = Some cell /\ PyStr.strip cell = label) /\
     Z.of_nat (count_matches label (skipn (S p) header_row)) = - index - 1) /\
  (k < - index -> get_column_index label index header_row = Raise IndexError).
Proof.
  intros Hneg k.
  assert (Hlt : (index <? len (occurrences label header_row)) = true).
  { apply Z.ltb_lt. unfold len. lia. }
  assert (Hfew : k < - index ->
                 get_column_index label index header_row = Raise IndexError).
  { intros Hk. unfold get_column_index. rewrite Hlt.
    rewrite getitem_before_start; [reflexivity|].
    rewrite len_occurrences. fold k. lia. }
  assert (Hmany : - index <= k ->
    exists p : nat,
     get_column_index label index header_row = Ok (Some (Z.of_nat p + 1)) /\
     (exists cell,
        nth_error header_row p = Some cell /\ PyStr.strip cell = label) /\
     Z.of_nat (count_matches label (skipn (S p) header_row)) = - index - 1).
  { intros Hk.
    destruct (nth_occurrence label header_row 0 (Z.to_nat (k + index)))
      as (p & Hp & (cell & Hcell & Hstrip) & Hcount); [lia|].
    exists p. split; [|split].
    - unfold get_column_index. rewrite Hlt.
      rewrite (getitem_from_end _ _ (0 + Z.of_nat p)); try assumption.
      + reflexivity.
      + rewrite len_occurrences. fold k. lia.
      + rewrite len_occurrences. fold k. exact Hp.
    - exists cell. auto.
    - pose proof (count_matches_split label header_row p cell Hcell Hstrip).
      subst k. lia. }
  split; [|split; assumption].
  destruct (Z_le_gt_dec (- index) k) as [Hk|Hk].
  - destruct (Hmany Hk) as (p & Hp & _). rewrite Hp. discriminate.
  - rewrite Hfew by lia. discriminate.
Qed.

Lemma get_column_index_negative_witness :
  -1 < 0 /\
  let header_row := [py "Calls"; py "CTC"; py "Calls"; py "CTC"] in
  let k := Z.of_nat (count_matches (py "CTC") header_row) in
  get_column_index (py "CTC") (-1) header_row <> Ok None /\
  (- -1 <= k ->
   exists p : nat,
     get_column_index (py "CTC") (-1) header_row
     = Ok (Some (Z.of_nat p + 1)) /\
     (exists cell,
        nth_error header_row p = Some cell /\ PyStr.strip cell = py "CTC") /\
     Z.of_nat (count_matches (py "CTC") (skipn (S p) header_row))
     = - -1 - 1) /\
  (k < - -1 ->
   get_column_index (py "CTC") (-1) header_row = Raise IndexError).
Proof.
  split; [lia|].
  apply (get_column_index_negative (py "CTC")
           [py "Calls"; py "CTC"; py "Calls"; py "CTC"] (-1)).
  lia.
Defined.

(** ** Row matcher *)

Lemma getitem_head {A : Type} (x : A) (l : list A) : getitem (x :: l) 0 = Ok x.
Proof. reflexivity. Qed.

Lemma first_match_nil (name : str) (j : nat) : ~ first_match [] name j.
Proof.
  intros [(c & rest & H & _) _]. destruct j; discriminate.
Qed.

Lemma first_match_here (c : str) (row : list str) (data : list (list str))
  (name : str) (j : nat) :
  PyStr.strip c = name ->
  first_match ((c :: row) :: data) name j <-> j = O.
Proof.
  intros Hc. split.
  - intros [_ Hbefore]. destruct j as [|j]; [reflexivity|].
    destruct (Hbefore O) as (c' & rest' & Hnth & Hne); [lia|].
    simpl in Hnth. inversion Hnth; subst. contradiction.
  - intros ->. split.
    + exists c, row. auto.
    + intros j' Hj'. lia.
Qed.

Lemma first_match_later (c : str) (row : list str) (data : list (list str))
  (name : str) (j : nat) :
  PyStr.strip c <> name ->
  first_match ((c :: row) :: data) name j <->
  exists j0, j = S j0 /\ first_match data name j0.
Proof.
  intros Hc. split.
  - intros [(c' & rest' & Hnth & Heq) Hbefore].
    destruct j as [|j].
    + simpl in Hnth. inversion Hnth; subst. contradiction.
    + exists j. split; [reflexivity|]. split.
      * exists c', rest'. auto.
      * intros j' Hj'. apply (Hbefore (S j')). lia.
  - intros (j0 & -> & (Hmatch & Hbefore)). split.
    + exact Hmatch.
    + intros [|j'] Hj'.
      * exists c, row. auto.
      * apply Hbefore. lia.
Qed.

Lemma first_match_empty_row (data : list (list str)) (name : str) (j : nat) :
  ~ first_match ([] :: data) name j.
Proof.
  intros [(c & rest & Hnth & _) Hbefore]. destruct j as [|j].
  - discriminate.
  - destruct (Hbefore O) as (c' & rest' & H0 & _); [lia|]. discriminate.
Qed.

Lemma locate_row_from_spec (name : str) (data : list (list str)) :
  forall (start i : Z),
    locate_row_from start data (Str name) = Ok (Some i) <->
    exists j, i = start + Z.of_nat j + 1 /\ first_match data name j.
Proof.
  induction data as [|row data IH]; intros start i.
  - simpl. split; [discriminate|].
    intros (j & _ & H). now apply first_match_nil in H.
  - destruct row as [|c row].
    + simpl. split; [discriminate|].
      intros (j & _ & H). now apply first_match_empty_row in H.
    + cbn [locate_row_from]. rewrite getitem_head. cbn [bind cell_eqb].
      destruct (PyStr.eqb (PyStr.strip c) name) eqn:E.
      * apply pystr_eqb_eq in E. split.
        -- intros H. inversion H; subst i. exists O. split; [lia|].
           now apply first_match_here.
        -- intros (j & -> & H). apply first_match_here in H; [|assumption].
           subst j. f_equal. f_equal. lia.
      * apply pystr_eqb_neq in E. rewrite IH. split.
        -- intros (j & -> & H). exists (S j). split; [lia|].
           apply first_match_later; [assumption|]. eauto.
        -- intros (j & -> & H). apply first_match_later in H; [|assumption].
           destruct H as (j0 & -> & H). exists j0. split; [lia|assumption].
Qed.

(** C3 (as stated). The matched row would always be a data row, that is a
    sheet row of index at least 3; the title row of this grid repeats a
    campaign name and is the row returned. *)
Lemma locate_row_matches_title_row :
  let data := [[py "Camp A"; py ""];
               [py "Campaign"; py "Calls"];
               [py "Camp A"; py "7"]] in
  locate_row data (Str (py "Camp A")) = Ok (Some 1) /\
  ~ (forall (grid : list (list str)) (name : str) (i : Z),
       locate_row grid (Str name) = Ok (Some i) -> 3 <= i).
Proof.
  split; [reflexivity|].
  intros H.
  specialize (H [[py "Camp A"; py ""];
                 [py "Campaign"; py "Calls"];
                 [py "Camp A"; py "7"]] (py "Camp A") 1 eq_refl).
  lia.
Qed.

(** C3 (amended). The row matcher scans every row of the grid from row 0,
    the title and header rows included, comparing each row's trimmed
    column-0 value to the campaign name exactly; it returns [j + 1] for the
    first row [j] that matches, whichever row that is. *)
Theorem locate_row_first_match (data : list (list str)) (name : str) (i : Z) :
  locate_row data (Str name) = Ok (Some i) <->
  exists j, i = Z.of_nat j + 1 /\ first_match data name j.
Proof.
  unfold locate_row. rewrite locate_row_from_spec. reflexivity.
Qed.

(** ** Alias resolver *)

Lemma cell_eqb_Str (x : cell) (name : str) :
  cell_eqb x (Str name) = true <-> x = Str name.
Proof.
  destruct x as [|t|z]; simpl; try (split; discriminate).
  rewrite pystr_eqb_eq. split; congruence.
Qed.

Lemma cell_eqb_eq (x y : cell) : cell_eqb x y = true -> x = y.
Proof.
  destruct x, y; simpl; try discriminate.
  - intros H. apply pystr_eqb_eq in H. congruence.
  - intros H. apply Z.eqb_eq in H. congruence.
Qed.

Lemma find_index_first {A : Type} (p : A -> bool) (l : list A) :
  forall (n : nat) (x : A),
    nth_error l n = Some x -> p x = true ->
    (forall m y, (m < n)%nat -> nth_error l m = Some y -> p y = false) ->
    find_index p l = Some n.
Proof.
  induction l as [|a l IH]; intros n x Hn Hx Hbefore.
  - destruct n; discriminate.
  - destruct n as [|n]; simpl in *.
    + inversion Hn; subst. now rewrite Hx.
    + rewrite (Hbefore O a) by (reflexivity || lia).
      rewrite (IH n x Hn Hx); [reflexivity|].
      intros m y Hm Hy. apply (Hbefore (S m) y); [lia|exact Hy].
Qed.

Lemma existsb_false_nth {A : Type} (p : A -> bool) (l : list A) :
  (forall n x, nth_error l n = Some x -> p x = false) ->
  existsb p l = false.
Proof.
  intros H. destruct (existsb p l) eqn:E; [|reflexivity].
  apply existsb_exists in E. destruct E as (x & Hin & Hx).
  apply In_nth_error in Hin. destruct Hin as (n & Hn).
  rewrite (H n x Hn) in Hx. discriminate.
Qed.

Lemma existsb_true_nth {A : Type} (p : A -> bool) (l : list A) (n : nat)
  (x : A) :
  nth_error l n = Some x -> p x = true -> existsb p l = true.
Proof.
  intros Hn Hx. apply existsb_exists. exists x. split; [|exact Hx].
  eapply nth_error_In; eauto.
Qed.

Lemma In_unique (x : cell) (l : list cell) :
  notna x = true -> In x l -> In x (unique l).
Proof.
  intros Hx. induction l as [|a l IH]; intros Hin; [contradiction|].
  simpl. destruct Hin as [->|Hin]; [now left|].
  destruct (cell_eqb a x) eqn:E.
  - left. now apply cell_eqb_eq.
  - right. apply filter_In. split; [now apply IH|]. now rewrite E.
Qed.

Section AliasTable.

Variable df : DataFrame.
Hypothesis Hwf : well_formed df.

Lemma camp_column :
  column_values df (py "Camp") = Ok (map (fun r => nth 0 r NaN) (rows df)).
Proof.
  destruct Hwf as (_ & Hhd & _). unfold column_values.
  destruct (columns df) as [|c0 cols]; [discriminate|].
  simpl in Hhd. inversion Hhd; subst c0. cbn [find_index].
  now rewrite pystr_eqb_refl.
Qed.

Lemma named_column (c : nat) (col : str) :
  nth_error (columns df) c = Some col ->
  column_values df col = Ok (map (fun r => nth c r NaN) (rows df)).
Proof.
  intros Hc. destruct Hwf as (Hnd & _ & _). unfold column_values.
  rewrite (find_index_first (PyStr.eqb col) _ c col Hc (pystr_eqb_refl col));
    [reflexivity|].
  intros m y Hm Hy. apply pystr_eqb_neq. intros Heq. subst y.
  rewrite NoDup_nth_error in Hnd.
  assert (m = c); [|lia].
  apply Hnd; [|now rewrite Hy, Hc].
  apply nth_error_Some. now rewrite Hy.
Qed.

Lemma cell_at_column (r c : nat) (x : cell) :
  cell_at df r c = Some x ->
  nth_error (map (fun row => nth c row NaN) (rows df)) r = Some x.
Proof.
  unfold cell_at. intros H. rewrite nth_error_map.
  destruct (nth_error (rows df) r) as [row|]; [|discriminate]. simpl.
  f_equal. now apply nth_error_nth.
Qed.

Lemma column_cell_at (r c : nat) (x : cell) :
  (c < length (columns df))%nat ->
  nth_error (map (fun row => nth c row NaN) (rows df)) r = Some x ->
  cell_at df r c = Some x.
Proof.
  intros Hc. unfold cell_at. rewrite nth_error_map.
  destruct (nth_error (rows df) r) as [row|] eqn:Hr; [|discriminate].
  simpl. intros H. inversion H; subst x.
  apply nth_error_nth'.
  destruct Hwf as (_ & _ & Hlen). rewrite Forall_forall in Hlen.
  rewrite (Hlen row); [exact Hc|]. eapply nth_error_In; eauto.
Qed.

Lemma cell_at_width (r c : nat) (x : cell) :
  cell_at df r c = Some x -> (c < length (columns df))%nat.
Proof.
  unfold cell_at. destruct (nth_error (rows df) r) as [row|] eqn:Hr;
    [|discriminate].
  intros H. destruct Hwf as (_ & _ & Hlen). rewrite Forall_forall in Hlen.
  rewrite <- (Hlen row) by (eapply nth_error_In; eauto).
  apply nth_error_Some. congruence.
Qed.

(** A column that holds [name]: the test succeeds and the row selected is
    the first one holding it. *)
Lemma column_hit (name : str) (r c : nat) :
  cell_at df r c = Some (Str name) ->
  (forall r', (r' < r)%nat -> cell_at df r' c <> Some (Str name)) ->
  let vals := map (fun row => nth c row NaN) (rows df) in
  contains vals name = true /\ first_row vals name = Ok r.
Proof.
  intros Hcell Hfirst vals.
  pose proof (cell_at_width _ _ _ Hcell) as Hc.
  pose proof (cell_at_column _ _ _ Hcell) as Hnth. fold vals in Hnth.
  split.
  - eapply existsb_true_nth; [exact Hnth|]. now apply cell_eqb_Str.
  - unfold first_row.
    rewrite (find_index_first _ vals r (Str name) Hnth); [reflexivity| |].
    + now apply cell_eqb_Str.
    + intros m y Hm Hy.
      destruct (cell_eqb y (Str name)) eqn:E; [|reflexivity].
      apply cell_eqb_Str in E. subst y.
      apply column_cell_at in Hy; [|exact Hc].
      now apply Hfirst in Hy.
Qed.

(** A column that does not hold [name]: the test fails. *)
Lemma column_miss (name : str) (c : nat) :
  (c < length (columns df))%nat ->
  (forall r', cell_at df r' c <> Some (Str name)) ->
  contains (map (fun row => nth c row NaN) (rows df)) name = false.
Proof.
  intros Hc Hnone. apply existsb_false_nth. intros n x Hn.
  destruct (cell_eqb x (Str name)) eqn:E; [|reflexivity].
  apply cell_eqb_Str in E. subst x.
  apply column_cell_at in Hn; [|exact Hc]. now apply Hnone in Hn.
Qed.

Lemma scan_columns_first (name : str) (r c : nat) :
  cell_at df r c = Some (Str name) ->
  (forall r', (r' < r)%nat -> cell_at df r' c <> Some (Str name)) ->
  forall (cols : list str) (k : nat),
    skipn k (columns df) = cols -> (k <= c)%nat ->
    (forall c' r', (k <= c' < c)%nat ->
                   cell_at df r' c' <> Some (Str name)) ->
    scan_columns df name cols =
    Ok (filter (fun x => negb (cell_eqb x (Str name)))
               (unique (dropna (iloc df r)))).
Proof.
  intros Hcell Hfirst.
  pose proof (cell_at_width _ _ _ Hcell) as Hc.
  induction cols as [|col cols IH]; intros k Hk Hkc Hnone.
  - exfalso.
    assert (length (skipn k (columns df)) = 0%nat) by now rewrite Hk.
    rewrite length_skipn in H. lia.
  - assert (Hcol : nth_error (columns df) k = Some col).
    { rewrite <- (firstn_skipn k (columns df)), Hk.
      rewrite nth_error_app2; rewrite length_firstn; [|lia].
      replace (k - Nat.min k (length (columns df)))%nat with O by lia.
      reflexivity. }
    assert (Hrest : skipn (S k) (columns df) = cols).
    { replace (S k) with (1 + k)%nat by lia.
      rewrite <- skipn_skipn, Hk. reflexivity. }
    cbn [scan_columns]. rewrite (named_column k col Hcol). cbn [bind].
    destruct (Nat.eq_dec k c) as [->|Hne].
    + destruct (column_hit name r c Hcell Hfirst) as [Hin Hrow].
      rewrite Hin, Hrow. reflexivity.
    + rewrite column_miss.
      * apply (IH (S k)); [exact Hrest|lia|].
        intros c' r' Hc'. apply Hnone. lia.
      * lia.
      * intros r'. apply Hnone. lia.
Qed.

(** The resolver on a name absent from column 0: the first column, left to
    right, that holds the name selects the row, and in that column the
    topmost row holding it. *)
Lemma find_alternate_column_major (name : str) (r c : nat) :
  (forall r', cell_at df r' 0 <> Some (Str name)) ->
  (1 <= c)%nat ->
  cell_at df r c = Some (Str name) ->
  (forall c' r', (1 <= c' < c)%nat -> cell_at df r' c' <> Some (Str name)) ->
  (forall r', (r' < r)%nat -> cell_at df r' c <> Some (Str name)) ->
  find_alternate_campaign_name_with_new_structure df name =
  Ok (filter (fun x => negb (cell_eqb x (Str name)))
             (unique (dropna (iloc df r)))).
Proof.
  intros Hcol0 Hc Hcell Hcols Hrows.
  unfold find_alternate_campaign_name_with_new_structure.
  rewrite camp_column. cbn [bind].
  rewrite column_miss; [| |exact Hcol0].
  - apply (scan_columns_first name r c Hcell Hrows _ 1%nat);
      [|exact Hc|exact Hcols].
    destruct (columns df); reflexivity.
  - pose proof (cell_at_width _ _ _ Hcell). lia.
Qed.

(** The resolver on a canonical name: the first row whose column 0 holds
    it, from column 1 on. *)
Lemma find_alternate_canonical (name : str) (r : nat) :
  cell_at df r 0 = Some (Str name) ->
  (forall r', (r' < r)%nat -> cell_at df r' 0 <> Some (Str name)) ->
  find_alternate_campaign_name_with_new_structure df name =
  Ok (unique (dropna (skipn 1 (iloc df r)))).
Proof.
  intros Hcell Hfirst.
  unfold find_alternate_campaign_name_with_new_structure.
  rewrite camp_column. cbn [bind].
  destruct (column_hit name r 0 Hcell Hfirst) as [Hin Hrow].
  rewrite Hin, Hrow. reflexivity.
Qed.

Lemma cell_at_iloc (r c : nat) (x : cell) :
  cell_at df r c = Some x -> nth_error (iloc df r) c = Some x.
Proof.
  unfold cell_at, iloc.
  destruct (nth_error (rows df) r) as [row|] eqn:Hr; [|discriminate].
  now rewrite (nth_error_nth _ _ _ Hr).
Qed.

End AliasTable.

Lemma settings_two_columns_wf : well_formed settings_two_columns.
Proof.
  repeat split.
  - repeat (constructor; [simpl; intuition discriminate|]). constructor.
  - repeat constructor.
Qed.

Lemma settings_shared_alias_wf : well_formed settings_shared_alias.
Proof.
  repeat split.
  - repeat (constructor; [simpl; intuition discriminate|]). constructor.
  - repeat constructor.
Qed.

(** C5 (as stated). With the name absent from column 0, the row used would
    be the one found by scanning rows top to bottom and the cells of each
    row left to right. In this table "North" is in row 0 (column 2) and in
    row 1 (column 1): the row-major scan meets row 0 first, and the resolver
    answers with row 1. *)
Lemma alias_scan_is_not_row_major :
  first_row_row_major settings_two_columns (py "North") = Some 0%nat /\
  find_alternate_campaign_name_with_new_structure
    settings_two_columns (py "North")
  = Ok [Str (py "Camp Y"); Str (py "")] /\
  ~ (forall (df : DataFrame) (name : str) (r : nat),
       well_formed df ->
       (forall r', cell_at df r' 0 <> Some (Str name)) ->
       first_row_row_major df name = Some r ->
       find_alternate_campaign_name_with_new_structure df name =
       Ok (filter (fun x => negb (cell_eqb x (Str name)))
                  (unique (dropna (iloc df r))))).
Proof.
  split; [reflexivity|]. split; [reflexivity|].
  intros H.
  specialize (H settings_two_columns (py "North") 0%nat
                settings_two_columns_wf).
  assert (Hcol0 : forall r',
             cell_at settings_two_columns r' 0 <> Some (Str (py "North"))).
  { intros [|[|[|r']]]; cbv; discriminate. }
  specialize (H Hcol0 eq_refl). vm_compute in H. discriminate.
Qed.

(** C5 (amended). With the name absent from column 0 and present in other
    cells, the resolver uses the first matching cell of a column-major scan:
    columns 1, 2, ... left to right, and within the first column holding
    the name its rows top to bottom. The answer is built from that row alone
    (its non-null cells, deduplicated, the name removed); later matches are
    never considered. *)
Theorem alias_first_match_column_major (df : DataFrame) (name : str)
  (r c : nat) :
  well_formed df ->
  (forall r', cell_at df r' 0 <> Some (Str name)) ->
  (1 <= c)%nat ->
  cell_at df r c = Some (Str name) ->
  (forall c' r', (1 <= c' < c)%nat -> cell_at df r' c' <> Some (Str name)) ->
  (forall r', (r' < r)%nat -> cell_at df r' c <> Some (Str name)) ->
  find_alternate_campaign_name_with_new_structure df name =
  Ok (filter (fun x => negb (cell_eqb x (Str name)))
             (unique (dropna (iloc df r)))).
Proof.
  intros Hwf. now apply find_alternate_column_major.
Qed.

Lemma alias_first_match_column_major_witness :
  find_alternate_campaign_name_with_new_structure
    settings_two_columns (py "North") =
  Ok (filter (fun x => negb (cell_eqb x (Str (py "North"))))
             (unique (dropna (iloc settings_two_columns 1)))).
Proof.
  apply (alias_first_match_column_major settings_two_columns (py "North")
           1%nat 1%nat).
  - exact settings_two_columns_wf.
  - intros [|[|[|r']]]; cbv; discriminate.
  - lia.
  - reflexivity.
  - intros c' r' Hc'. lia.
  - intros [|r'] Hr'; [cbv; discriminate|lia].
Defined.

(** C4 (as stated). Whenever B stands in a column >= 1 of a row whose
    column 0 is A, resolving A would list B and resolving B would list A.
    Here "Camp X" is an alternate of both "Camp Y" and "Camp Z": resolving
    it yields the first row that holds it, which does not contain
    "Camp Z". *)
Lemma alias_resolution_not_symmetric :
  find_alternate_campaign_name_with_new_structure
    settings_shared_alias (py "Camp X") = Ok [Str (py "Camp Y")] /\
  ~ (forall (df : DataFrame) (A B : str) (r c : nat),
       well_formed df ->
       A <> B -> A <> [] -> B <> [] ->
       cell_at df r 0 = Some (Str A) ->
       (1 <= c)%nat ->
       cell_at df r c = Some (Str B) ->
       exists la lb,
         find_alternate_campaign_name_with_new_structure df A = Ok la /\
         In (Str B) la /\
         find_alternate_campaign_name_with_new_structure df B = Ok lb /\
         In (Str A) lb).
Proof.
  split; [reflexivity|].
  intros H.
  destruct (H settings_shared_alias (py "Camp Z") (py "Camp X") 1%nat 1%nat)
    as (la & lb & _ & _ & Hb & Hin).
  - exact settings_shared_alias_wf.
  - discriminate.
  - discriminate.
  - discriminate.
  - reflexivity.
  - lia.
  - reflexivity.
  - vm_compute in Hb. inversion Hb; subst lb.
    destruct Hin as [Hin|[]]. discriminate.
Qed.

(** C4 (amended). Alias resolution is symmetric on the row the resolver
    selects: when [r] is the first row whose column 0 holds A, B (other than
    A) stands in a column >= 1 of that row, B is in column 0 of no row, and
    that cell is the first to hold B in the resolver's scan (columns left to
    right, rows top to bottom within a column), then resolving A returns a
    list containing B and resolving B returns a list containing A. *)
Theorem alias_resolution_symmetric (df : DataFrame) (A B : str) (r c : nat) :
  well_formed df ->
  A <> B ->
  cell_at df r 0 = Some (Str A) ->
  (forall r', (r' < r)%nat -> cell_at df r' 0 <> Some (Str A)) ->
  (1 <= c)%nat ->
  cell_at df r c = Some (Str B) ->
  (forall r', cell_at df r' 0 <> Some (Str B)) ->
  (forall c' r', (1 <= c' < c)%nat -> cell_at df r' c' <> Some (Str B)) ->
  (forall r', (r' < r)%nat -> cell_at df r' c <> Some (Str B)) ->
  exists la lb,
    find_alternate_campaign_name_with_new_structure df A = Ok la /\
    In (Str B) la /\
    find_alternate_campaign_name_with_new_structure df B = Ok lb /\
    In (Str A) lb.
Proof.
  intros Hwf Hne HA HAfirst Hc HB HB0 HBcols HBrows.
  pose proof (cell_at_iloc df r 0 _ HA) as HAr.
  pose proof (cell_at_iloc df r c _ HB) as HBr.
  eexists. eexists.
  split; [apply (find_alternate_canonical df Hwf A r HA HAfirst)|].
  split.
  - apply In_unique; [reflexivity|]. apply filter_In. split; [|reflexivity].
    apply (nth_error_In _ (c - 1)). rewrite nth_error_skipn.
    replace (1 + (c - 1))%nat with c by lia. exact HBr.
  - split;
      [apply (find_alternate_column_major df Hwf B r c HB0 Hc HB HBcols HBrows)|].
    apply filter_In. split.
    + apply In_unique; [reflexivity|]. apply filter_In. split; [|reflexivity].
      apply (nth_error_In _ 0). exact HAr.
    + simpl. apply negb_true_iff. now apply pystr_eqb_neq.
Qed.

Lemma alias_resolution_symmetric_witness :
  exists la lb,
    find_alternate_campaign_name_with_new_structure
      settings_two_columns (py "Camp Y") = Ok la /\
    In (Str (py "North")) la /\
    find_alternate_campaign_name_with_new_structure
      settings_two_columns (py "North") = Ok lb /\
    In (Str (py "Camp Y")) lb.
Proof.
  apply (alias_resolution_symmetric settings_two_columns
           (py "Camp Y") (py "North") 1%nat 1%nat).
  - exact settings_two_columns_wf.
  - discriminate.
  - reflexivity.
  - intros [|r'] Hr'; [cbv; discriminate|lia].
  - lia.
  - reflexivity.
  - intros [|[|[|r']]]; cbv; discriminate.
  - intros c' r' Hc'. lia.
  - intros [|r'] Hr'; [cbv; discriminate|lia].
Defined.

(** ** Aggregators *)

Lemma insert_key_perm (k : str) (l : list str) :
  Permutation (insert_key k l) (k :: l).
Proof.
  induction l as [|x l IH]; simpl.
  - apply Permutation_refl.
  - destruct (PyStr.ltb x k).
    + eapply perm_trans; [apply perm_skip, IH|apply perm_swap].
    + apply Permutation_refl.
Qed.

Lemma sort_keys_perm (l : list str) : Permutation (sort_keys l) l.
Proof.
  induction l as [|k l IH]; simpl.
  - apply perm_nil.
  - eapply perm_trans; [apply insert_key_perm|]. now apply perm_skip.
Qed.

Lemma group_keys_NoDup (keys : list str) : NoDup (group_keys keys).
Proof.
  unfold group_keys.
  eapply Permutation_NoDup; [apply Permutation_sym, sort_keys_perm|].
  apply NoDup_nodup.
Qed.

Lemma group_keys_In (keys : list str) (k : str) :
  In k (group_keys keys) <-> In k keys.
Proof.
  unfold group_keys. rewrite <- (nodup_In (list_eq_dec N.eq_dec) keys k).
  split; apply Permutation_in;
    [apply sort_keys_perm|apply Permutation_sym, sort_keys_perm].
Qed.

Lemma In_present {A B : Type} (f : A -> option B) (l : list A) (y : B) :
  In y (present (map f l)) <-> exists x, In x l /\ f x = Some y.
Proof.
  induction l as [|a l IH]; simpl.
  - split; [contradiction|]. intros (x & [] & _).
  - destruct (f a) as [b|] eqn:E; simpl; rewrite IH; split.
    + intros [<-|(x & Hin & Hx)]; [exists a; auto|exists x; auto].
    + intros (x & [<-|Hin] & Hx); [left; congruence|right; exists x; auto].
    + intros (x & Hin & Hx). exists x; auto.
    + intros (x & [<-|Hin] & Hx); [congruence|exists x; auto].
Qed.

Lemma is_key_Some (camp : str) (key : option str) :
  is_key camp key = true <-> key = Some camp.
Proof.
  destruct key as [x|]; simpl; [|split; discriminate].
  rewrite pystr_eqb_eq. split; congruence.
Qed.

Lemma filter_filter_key {A : Type} (key : A -> option str) (camp : str)
  (l : list A) (q : A -> bool) :
  (forall x, is_key camp (key x) = true -> q x = true) ->
  filter (fun x => is_key camp (key x)) (filter q l) =
  filter (fun x => is_key camp (key x)) l.
Proof.
  intros Hq. induction l as [|a l IH]; simpl; [reflexivity|].
  destruct (q a) eqn:Ea; simpl.
  - now rewrite IH.
  - destruct (is_key camp (key a)) eqn:Ek; [|exact IH].
    apply Hq in Ek. congruence.
Qed.

(** The summary of a report, written with the groups taken in the report
    itself. *)
Lemma load_and_process_csv_rows (file : list CtcReport.row) :
  load_and_process_csv file =
  map (fun camp =>
         let group := rows_of camp file in
         {| CtcSummary.Camp := camp;
            CtcSummary.Calls :=
              nansum (is_int64 (map CtcReport.Calls file))
                     (map CtcReport.Calls group);
            CtcSummary.Connects :=
              nansum (is_int64 (map CtcReport.Connects file))
                     (map CtcReport.Connects group);
            CtcSummary.CTC := nanmean (map CtcReport.Calls_to_Connect group);
            CtcSummary.Abandoned :=
              nansum (is_int64 (map CtcReport.Abandoned file))
                     (map CtcReport.Abandoned group) |})
      (group_keys (present (map CtcReport.Campaign
         (filter (fun r => isSome (CtcReport.Campaign r)) file)))).
Proof.
  unfold load_and_process_csv, rows_of. apply map_ext. intros camp.
  cbv zeta. rewrite filter_filter_key; [reflexivity|].
  intros x Hx. apply is_key_Some in Hx. now rewrite Hx.
Qed.

Lemma load_and_process_csv_camps (file : list CtcReport.row) :
  map CtcSummary.Camp (load_and_process_csv file) =
  group_keys (present (map CtcReport.Campaign
    (filter (fun r => isSome (CtcReport.Campaign r)) file))).
Proof.
  unfold load_and_process_csv. rewrite map_map. simpl. apply map_id.
Qed.

Lemma In_campaigns (file : list CtcReport.row) (camp : str) :
  In camp (map CtcSummary.Camp (load_and_process_csv file)) <->
  exists r, In r file /\ CtcReport.Campaign r = Some camp.
Proof.
  rewrite load_and_process_csv_camps, group_keys_In, In_present. split.
  - intros (r & Hin & Hr). apply filter_In in Hin. exists r. tauto.
  - intros (r & Hin & Hr). exists r. split; [|exact Hr].
    apply filter_In. split; [exact Hin|]. now rewrite Hr.
Qed.

(** The summary row of a campaign of the report. *)
Lemma summary_row_of (file : list CtcReport.row) (row : CtcSummary.row) :
  In row (load_and_process_csv file) ->
  let group := rows_of (CtcSummary.Camp row) file in
  CtcSummary.Calls row =
    nansum (is_int64 (map CtcReport.Calls file))
           (map CtcReport.Calls group) /\
  CtcSummary.Connects row =
    nansum (is_int64 (map CtcReport.Connects file))
           (map CtcReport.Connects group) /\
  CtcSummary.CTC row = nanmean (map CtcReport.Calls_to_Connect group) /\
  CtcSummary.Abandoned row =
    nansum (is_int64 (map CtcReport.Abandoned file))
           (map CtcReport.Abandoned group).
Proof.
  intros Hrow. rewrite load_and_process_csv_rows in Hrow.
  apply in_map_iff in Hrow. destruct Hrow as (camp & <- & Hcamp).
  cbn [CtcSummary.Camp CtcSummary.Calls CtcSummary.Connects CtcSummary.CTC
       CtcSummary.Abandoned]. cbv zeta.
  repeat split; reflexivity.
Qed.

Lemma wrap64_in_range (z : Z) : in_int64 z = true -> wrap64 z = z.
Proof.
  unfold in_int64, wrap64. intros H. apply andb_true_iff in H.
  destruct H as [Hlo Hhi]. apply Z.leb_le in Hlo. apply Z.ltb_lt in Hhi.
  rewrite Z.mod_small; lia.
Qed.

Lemma ints_Int (zs : list Z) : ints (map Int zs) = zs.
Proof.
  unfold ints. induction zs as [|z zs IH]; [reflexivity|].
  simpl. now rewrite IH.
Qed.

Lemma floats_Float (fs : list float) : floats (map Float fs) = fs.
Proof.
  unfold floats. rewrite map_map. apply map_id.
Qed.

Lemma filter_all {A : Type} (p : A -> bool) (l : list A) :
  Forall (fun x => p x = true) l -> filter p l = l.
Proof.
  induction 1 as [|x l Hx _ IH]; simpl; [reflexivity|].
  now rewrite Hx, IH.
Qed.

(** The sum of integers is exact as long as it fits in 64 bits. *)
Lemma nansum_int64 (zs : list Z) :
  nansum true (map Int zs) = Int (wrap64 (Zsum zs)) /\
  (in_int64 (Zsum zs) = true -> nansum true (map Int zs) = Int (Zsum zs)).
Proof.
  unfold nansum. rewrite ints_Int. split; [reflexivity|].
  intros H. now rewrite wrap64_in_range.
Qed.

Lemma nansum_float64 (fs : list float) :
  Forall (fun f => notnan f = true) fs ->
  nansum false (map Float fs) = Float (kahan_sum fs).
Proof.
  intros H. unfold nansum. now rewrite floats_Float, filter_all.
Qed.

Lemma nanmean_float64 (fs : list float) :
  Forall (fun f => notnan f = true) fs -> fs <> [] ->
  nanmean (map Float fs) = (kahan_sum fs / to_float (len fs))%float.
Proof.
  intros H Hne. unfold nanmean. rewrite floats_Float, filter_all by exact H.
  destruct fs; [contradiction|reflexivity].
Qed.

(** C1 (as stated). The Calls of a campaign would be the sum of the Calls
    of its rows. Two rows of 2^62 calls each, in a column of integers, are
    summed in 64 bits: the summary holds -2^63, not 2^63. *)
Lemma sum_of_calls_wraps :
  load_and_process_csv [camp_a_many_calls; camp_a_many_calls] =
  [{| CtcSummary.Camp := py "Camp A";
      CtcSummary.Calls := Int (- 2 ^ 63);
      CtcSummary.Connects := Int 2;
      CtcSummary.CTC := 1;
      CtcSummary.Abandoned := Int 0 |}] /\
  ~ (forall (file : list CtcReport.row) (row : CtcSummary.row)
            (calls : list Z),
       In row (load_and_process_csv file) ->
       map CtcReport.Calls (rows_of (CtcSummary.Camp row) file)
       = map Int calls ->
       CtcSummary.Calls row = Int (Zsum calls)).
Proof.
  split; [reflexivity|]. intros H.
  specialize (H [camp_a_many_calls; camp_a_many_calls]
                {| CtcSummary.Camp := py "Camp A";
                   CtcSummary.Calls := Int (- 2 ^ 63);
                   CtcSummary.Connects := Int 2;
                   CtcSummary.CTC := 1;
                   CtcSummary.Abandoned := Int 0 |}
                [2 ^ 62; 2 ^ 62] (or_introl eq_refl) eq_refl).
  discriminate.
Qed.

(** C1 (amended). On a report whose columns are read as 64-bit integers or
    as floats, CTC aggregation yields exactly one row per distinct
    campaign of the report; the row of a campaign reduces the report rows
    of that campaign with Calls = sum, Connects = sum, CTC = mean,
    Abandoned = sum, in the arithmetic of the column: integers add up in
    64 bits (the exact sum as long as it fits, its value modulo 2^64
    beyond), floats add up and are averaged in float64, missing values
    skipped; two rows for "Camp A" with Calls 10, 20, Connects 5, 10,
    CTC 50, 60 and Abandoned 1, 2 give Calls 30, Connects 15, CTC 55.0,
    Abandoned 3. *)
Theorem load_and_process_csv_groups (file : list CtcReport.row) :
  int64_report file ->
  let summary := load_and_process_csv file in
  NoDup (map CtcSummary.Camp summary) /\
  (forall camp,
     In camp (map CtcSummary.Camp summary) <->
     exists r, In r file /\ CtcReport.Campaign r = Some camp) /\
  (forall row, In row summary ->
     let group := rows_of (CtcSummary.Camp row) file in
     CtcSummary.Calls row =
       nansum (is_int64 (map CtcReport.Calls file))
              (map CtcReport.Calls group) /\
     CtcSummary.Connects row =
       nansum (is_int64 (map CtcReport.Connects file))
              (map CtcReport.Connects group) /\
     CtcSummary.CTC row = nanmean (map CtcReport.Calls_to_Connect group) /\
     CtcSummary.Abandoned row =
       nansum (is_int64 (map CtcReport.Abandoned file))
              (map CtcReport.Abandoned group)) /\
  (forall zs : list Z,
     Forall (fun z => in_int64 z = true) zs ->
     nansum true (map Int zs) = Int (wrap64 (Zsum zs)) /\
     (in_int64 (Zsum zs) = true -> nansum true (map Int zs) = Int (Zsum zs))) /\
  (forall fs : list float,
     Forall (fun f => notnan f = true) fs ->
     nansum false (map Float fs) = Float (kahan_sum fs) /\
     (fs <> [] ->
      nanmean (map Float fs) = (kahan_sum fs / to_float (len fs))%float)) /\
  (rows_of (py "Camp A") file = [camp_a_first; camp_a_second] ->
   exists row,
     In row summary /\ CtcSummary.Camp row = py "Camp A" /\
     is_number (CtcSummary.Calls row) 30 /\
     is_number (CtcSummary.Connects row) 15 /\
     CtcSummary.CTC row = 55%float /\
     is_number (CtcSummary.Abandoned row) 3).
Proof.
  intros _ summary. subst summary.
  split; [|split; [|split; [|split; [|split]]]].
  - rewrite load_and_process_csv_camps. apply group_keys_NoDup.
  - apply In_campaigns.
  - intros row Hrow. exact (summary_row_of file row Hrow).
  - intros zs _. exact (nansum_int64 zs).
  - intros fs Hfs. split; [now apply nansum_float64|].
    now apply nanmean_float64.
  - intros Hgroup.
    assert (Hin : In (py "Camp A")
                     (map CtcSummary.Camp (load_and_process_csv file))).
    { apply In_campaigns. exists camp_a_first. split; [|reflexivity].
      assert (H : In camp_a_first (rows_of (py "Camp A") file))
        by (rewrite Hgroup; now left).
      apply filter_In in H. tauto. }
    rewrite load_and_process_csv_rows in *. rewrite map_map in Hin.
    cbn [CtcSummary.Camp] in Hin. rewrite map_id in Hin.
    eexists. split; [apply in_map; exact Hin|].
    cbn [CtcSummary.Camp CtcSummary.Calls CtcSummary.Connects CtcSummary.CTC
         CtcSummary.Abandoned]. cbv zeta. rewrite Hgroup.
    split; [reflexivity|].
    split; [destruct (is_int64 _); [left|right]; reflexivity|].
    split; [destruct (is_int64 _); [left|right]; reflexivity|].
    split; [reflexivity|].
    destruct (is_int64 _); [left|right]; reflexivity.
Qed.

(** The mean of 50, 60 and 50 is the float64 nearest to 160/3,
    53.333333333333336. *)
Lemma load_and_process_csv_groups_witness :
  (exists row,
     In row (load_and_process_csv [camp_a_first; camp_b_row; camp_a_second]) /\
     CtcSummary.Camp row = py "Camp A" /\
     is_number (CtcSummary.Calls row) 30 /\
     is_number (CtcSummary.Connects row) 15 /\
     CtcSummary.CTC row = 55%float /\
     is_number (CtcSummary.Abandoned row) 3) /\
  nansum true (map Int [2 ^ 62; 2 ^ 62]) = Int (- 2 ^ 63) /\
  nansum true (map Int [10; 20]) = Int 30 /\
  nanmean (map Float [50; 60; 50]%float) = 0x1.aaaaaaaaaaaabp+5%float.
Proof.
  destruct (load_and_process_csv_groups
              [camp_a_first; camp_b_row; camp_a_second])
    as (_ & _ & _ & Hint & Hfloat & Hscenario);
    [repeat constructor|].
  split; [apply Hscenario; reflexivity|].
  split; [exact (proj1 (Hint [2 ^ 62; 2 ^ 62] ltac:(repeat constructor)))|].
  split; [apply (proj2 (Hint [10; 20] ltac:(repeat constructor)));
          reflexivity|].
  apply (proj2 (Hfloat [50; 60; 50]%float
                  ltac:(repeat constructor))).
  discriminate.
Defined.

Lemma bind_Ok {A B : Type} (m : result A) (k : A -> result B) (b : B) :
  bind m k = Ok b -> exists a, m = Ok a /\ k a = Ok b.
Proof.
  destruct m as [a|e]; simpl; [|discriminate]. intros H. exists a. auto.
Qed.

Lemma filter_drop {A : Type} (keep : A -> bool) (l1 l2 : list A) (x : A) :
  keep x = false -> filter keep (l1 ++ x :: l2) = filter keep (l1 ++ l2).
Proof.
  intros Hx. rewrite !filter_app. simpl. now rewrite Hx.
Qed.

Lemma process_campaign_data_by_name_camps (file : list LogReport.row)
  (summary : list LogSummary.row) :
  process_campaign_data_by_name file = Ok summary ->
  exists keys, map LogSummary.Camp summary = group_keys keys.
Proof.
  unfold process_campaign_data_by_name. intros H.
  apply bind_Ok in H. destruct H as (lengths & _ & H).
  inversion H; subst summary. eexists.
  rewrite map_map. simpl. apply map_id.
Qed.

(** ** Dial Time *)

Lemma digits_fuel_acc (fuel : nat) :
  forall (n : N) (acc : str),
    digits_fuel fuel n acc = digits_fuel fuel n [] ++ acc.
Proof.
  induction fuel as [|fuel IH]; intros n acc; cbn [digits_fuel];
    [reflexivity|].
  destruct (n / 10 =? 0)%N; [reflexivity|].
  rewrite IH. rewrite (IH _ [_]). now rewrite <- app_assoc.
Qed.

Lemma decimal_value_snoc (t : str) (c : N) :
  decimal_value (t ++ [c]) = 10 * decimal_value t + (Z.of_N c - 48).
Proof.
  unfold decimal_value. now rewrite fold_left_app.
Qed.

(** The facts [lia] needs about a division by ten. *)
Ltac div10 n :=
  pose proof (N.Div0.div_mod n 10);
  pose proof (N.mod_lt n 10 ltac:(discriminate));
  pose proof (N.le_0_l (n / 10));
  pose proof (N.le_0_l (n mod 10)).

Lemma half_bound (n p : N) : (n < 2 * p -> n / 10 < p)%N.
Proof.
  intros H. div10 n. lia.
Qed.

(** With enough fuel the digits denote the number. *)
Lemma decimal_value_digits_fuel (fuel : nat) :
  forall n : N,
    (n < 2 ^ N.of_nat fuel)%N ->
    decimal_value (digits_fuel fuel n []) = Z.of_N n.
Proof.
  induction fuel as [|fuel IH]; intros n Hn.
  - change (N.of_nat 0) with 0%N in Hn. rewrite N.pow_0_r in Hn.
    assert (n = 0%N) by lia. now subst n.
  - rewrite Nat2N.inj_succ, N.pow_succ_r' in Hn.
    div10 n.
    cbn [digits_fuel]. destruct (n / 10 =? 0)%N eqn:E.
    + apply N.eqb_eq in E. unfold decimal_value. cbn [fold_left]. lia.
    + rewrite digits_fuel_acc, decimal_value_snoc, IH.
      * lia.
      * now apply half_bound.
Qed.

Lemma decimal_fuel (n : N) :
  (n < 2 ^ N.of_nat (S (N.to_nat (N.log2 n))))%N.
Proof.
  rewrite Nat2N.inj_succ, N2Nat.id.
  destruct n as [|p]; [reflexivity|].
  apply N.log2_spec. reflexivity.
Qed.

Lemma decimal_value_decimal (n : N) : decimal_value (decimal n) = Z.of_N n.
Proof.
  unfold decimal. apply decimal_value_digits_fuel, decimal_fuel.
Qed.

Lemma digits_fuel_all_digits (fuel : nat) :
  forall (n : N) (acc : str),
    all_digits acc -> all_digits (digits_fuel fuel n acc).
Proof.
  induction fuel as [|fuel IH]; intros n acc Hacc; cbn [digits_fuel];
    [exact Hacc|].
  assert (Hd : all_digits ((48 + n mod 10)%N :: acc)).
  { constructor; [|exact Hacc]. div10 n.
    unfold is_digit. apply andb_true_iff. split; apply N.leb_le; lia. }
  destruct (n / 10 =? 0)%N; [exact Hd|]. now apply IH.
Qed.

(** The first digit of a positive number is not a zero. *)
Lemma digits_fuel_leading (fuel : nat) :
  forall (n : N) (acc : str),
    n <> 0%N -> (n < 2 ^ N.of_nat fuel)%N ->
    nth 0 (digits_fuel fuel n acc) 48%N <> 48%N.
Proof.
  induction fuel as [|fuel IH]; intros n acc Hn Hlt.
  - change (N.of_nat 0) with 0%N in Hlt. rewrite N.pow_0_r in Hlt. lia.
  - rewrite Nat2N.inj_succ, N.pow_succ_r' in Hlt.
    div10 n.
    cbn [digits_fuel]. destruct (n / 10 =? 0)%N eqn:E.
    + apply N.eqb_eq in E. cbn [nth]. lia.
    + apply N.eqb_neq in E. apply IH; [exact E|now apply half_bound].
Qed.

Lemma decimal_nonempty (n : N) : (1 <= length (decimal n))%nat.
Proof.
  unfold decimal. cbn [digits_fuel]. destruct (n / 10 =? 0)%N; [simpl; lia|].
  rewrite digits_fuel_acc, length_app. simpl. lia.
Qed.

Lemma decimal_value_zfill (width : nat) (d : str) :
  decimal_value (zfill width d) = decimal_value d.
Proof.
  unfold zfill. induction (width - length d)%nat as [|k IH]; [reflexivity|].
  exact IH.
Qed.

Lemma format_02_nonneg (n : Z) :
  0 <= n ->
  let field := format_02 n in
  all_digits field /\ decimal_value field = n /\
  (2 <= length field)%nat /\
  (length field = 2%nat \/ nth 0 field 48%N <> 48%N).
Proof.
  intros Hn field. subst field. unfold format_02.
  destruct (n <? 0) eqn:E; [apply Z.ltb_lt in E; lia|].
  set (d := decimal (Z.to_N n)).
  pose proof (decimal_nonempty (Z.to_N n)) as Hlen. fold d in Hlen.
  split; [|split; [|split]].
  - unfold zfill. apply Forall_app. split.
    + apply Forall_forall. intros c Hc. apply repeat_spec in Hc. now subst c.
    + apply digits_fuel_all_digits. constructor.
  - rewrite decimal_value_zfill. unfold d. rewrite decimal_value_decimal. lia.
  - unfold zfill. rewrite length_app, repeat_length. lia.
  - unfold zfill. rewrite length_app, repeat_length.
    destruct (le_lt_dec 2 (length d)) as [Hge|Hlt]; [|left; lia].
    right. replace (2 - length d)%nat with O by lia. simpl.
    apply digits_fuel_leading; [|apply decimal_fuel].
    intros H0. unfold d in Hge. rewrite H0 in Hge. simpl in Hge. lia.
Qed.

Lemma format_02_two_digits (n : Z) :
  0 <= n < 60 -> length (format_02 n) = 2%nat.
Proof.
  intros Hn.
  assert (H : forallb (fun k => length (format_02 (Z.of_nat k)) =? 2)%nat
                      (seq 0 60) = true) by (vm_compute; reflexivity).
  rewrite forallb_forall in H. specialize (H (Z.to_nat n)).
  rewrite Z2Nat.id in H by lia. apply Nat.eqb_eq, H, in_seq. lia.
Qed.

(** C8. For a non-negative number of seconds the Dial Time is
    [HH:MM:SS], three fields of decimal digits: the hours are the total
    divided by 3600, not reduced modulo 24, zero-padded to two digits and
    longer when they need more; the minutes are (seconds mod 3600) div 60
    and the seconds are seconds mod 60, two digits each. 3661 seconds
    format as "01:01:01" and 90000 seconds as "25:00:00". *)
Theorem seconds_to_hms_format (seconds : Z) :
  0 <= seconds ->
  (exists hh mm ss : str,
     seconds_to_hms seconds = hh ++ py ":" ++ mm ++ py ":" ++ ss /\
     all_digits hh /\ all_digits mm /\ all_digits ss /\
     (2 <= length hh)%nat /\
     (length hh = 2%nat \/ nth 0 hh 48%N <> 48%N) /\
     length mm = 2%nat /\ length ss = 2%nat /\
     decimal_value hh = seconds / 3600 /\
     decimal_value mm = (seconds mod 3600) / 60 /\
     decimal_value ss = seconds mod 60) /\
  seconds_to_hms 3661 = py "01:01:01" /\
  seconds_to_hms 90000 = py "25:00:00".
Proof.
  intros Hs. split; [|split; reflexivity].
  assert (Hh : 0 <= seconds / 3600) by (apply Z.div_pos; lia).
  pose proof (Z.mod_pos_bound seconds 3600 eq_refl) as Hm3600.
  assert (Hm : 0 <= (seconds mod 3600) / 60 < 60).
  { split; [apply Z.div_pos; lia|]. apply Z.div_lt_upper_bound; lia. }
  pose proof (Z.mod_pos_bound seconds 60 eq_refl) as Hsec.
  destruct (format_02_nonneg _ Hh) as (Hh1 & Hh2 & Hh3 & Hh4).
  destruct (format_02_nonneg ((seconds mod 3600) / 60)) as (Hm1 & Hm2 & _);
    [lia|].
  destruct (format_02_nonneg (seconds mod 60)) as (Hs1 & Hs2 & _); [lia|].
  exists (format_02 (seconds / 3600)), (format_02 ((seconds mod 3600) / 60)),
    (format_02 (seconds mod 60)).
  split; [reflexivity|].
  repeat split; try assumption.
  - now apply format_02_two_digits.
  - now apply format_02_two_digits.
Qed.

Lemma seconds_to_hms_format_witness :
  0 <= 3661 /\
  (exists hh mm ss : str,
     seconds_to_hms 3661 = hh ++ py ":" ++ mm ++ py ":" ++ ss /\
     all_digits hh /\ all_digits mm /\ all_digits ss /\
     (2 <= length hh)%nat /\
     (length hh = 2%nat \/ nth 0 hh 48%N <> 48%N) /\
     length mm = 2%nat /\ length ss = 2%nat /\
     decimal_value hh = 3661 / 3600 /\
     decimal_value mm = (3661 mod 3600) / 60 /\
     decimal_value ss = 3661 mod 60) /\
  seconds_to_hms 3661 = py "01:01:01" /\
  seconds_to_hms 90000 = py "25:00:00".
Proof.
  split; [lia|]. apply (seconds_to_hms_format 3661). lia.
Defined.

(** ** Log mode *)

Lemma mapM_Raise {A B : Type} (f : A -> result B) (l : list A) (x : A) :
  In x l -> (exists e, f x = Raise e) -> exists e, mapM f l = Raise e.
Proof.
  intros Hin (e & He). induction l as [|a l IH]; [contradiction|].
  simpl. destruct Hin as [->|Hin].
  - rewrite He. simpl. eauto.
  - destruct (f a) as [b|e']; simpl; [|eauto].
    destruct (IH Hin) as (e'' & ->). simpl. eauto.
Qed.

Lemma mapM_Ok {A B : Type} (f : A -> result B) (g : A -> B) (l : list A) :
  (forall x, In x l -> f x = Ok (g x)) -> mapM f l = Ok (map g l).
Proof.
  intros H. induction l as [|a l IH]; [reflexivity|].
  simpl. rewrite (H a) by now left. simpl.
  rewrite IH; [reflexivity|]. intros x Hx. apply H. now right.
Qed.

Lemma combine_map {A B C : Type} (f : A -> B) (g : A -> C) (l : list A) :
  combine (map f l) (map g l) = map (fun x => (f x, g x)) l.
Proof.
  induction l as [|a l IH]; simpl; [reflexivity|now rewrite IH].
Qed.

Lemma filter_map {A B : Type} (g : A -> B) (p : B -> bool) (l : list A) :
  filter p (map g l) = map g (filter (fun x => p (g x)) l).
Proof.
  induction l as [|a l IH]; simpl; [reflexivity|].
  destruct (p (g a)); simpl; now rewrite IH.
Qed.

Lemma filter_filter {A : Type} (p q : A -> bool) (l : list A) :
  filter p (filter q l) = filter (fun x => p x && q x) l.
Proof.
  induction l as [|a l IH]; simpl; [reflexivity|].
  destruct (q a); simpl.
  - destruct (p a); simpl; now rewrite IH.
  - rewrite andb_false_r. exact IH.
Qed.

Lemma mapM_Raise_inv {A B : Type} (f : A -> result B) (l : list A) (e : exn) :
  mapM f l = Raise e -> exists x, In x l /\ f x = Raise e.
Proof.
  induction l as [|a l IH]; simpl; [discriminate|].
  destruct (f a) as [b|e'] eqn:Ea; simpl.
  - destruct (mapM f l) as [ys|e'']; simpl; [discriminate|].
    intros H. destruct (IH H) as (x & Hx & Hfx). exists x. auto.
  - intros H. inversion H; subst e'. exists a. auto.
Qed.

Lemma mapM_length {A B : Type} (f : A -> result B) (l : list A) :
  forall ys, mapM f l = Ok ys -> length ys = length l.
Proof.
  induction l as [|a l IH]; intros ys H; simpl in H.
  - now inversion H.
  - apply bind_Ok in H. destruct H as (y & _ & H).
    apply bind_Ok in H. destruct H as (ys' & Hys & H).
    inversion H. simpl. now rewrite (IH ys').
Qed.

(** The conversion of the rows of one campaign, read off the conversion of
    the whole column. *)
Lemma mapM_group {R A B : Type} (f : A -> result B) (g : R -> A)
  (k : R -> option str) (camp : str) (l : list R) :
  forall ys,
    mapM f (map g l) = Ok ys ->
    mapM f (map g (filter (fun r => is_key camp (k r)) l)) =
    Ok (map snd (filter (fun p => is_key camp (fst p))
                        (combine (map k l) ys))).
Proof.
  induction l as [|r l IH]; intros ys H; simpl in H.
  - inversion H. reflexivity.
  - apply bind_Ok in H. destruct H as (y & Hy & H).
    apply bind_Ok in H. destruct H as (ys' & Hys & H).
    inversion H; subst ys. simpl.
    destruct (is_key camp (k r)); simpl.
    + rewrite Hy. simpl. rewrite (IH ys' Hys). reflexivity.
    + exact (IH ys' Hys).
Qed.

Lemma calls_of_complete (camp : str) (file : list LogReport.row) :
  filter (fun r => is_key camp (LogReport.Current_campaign r))
         (complete_calls file) = calls_of camp file.
Proof.
  unfold complete_calls, calls_of. rewrite filter_filter. apply filter_ext.
  intros r. destruct (LogReport.Current_campaign r) as [k|]; reflexivity.
Qed.

Lemma length_filter_combine {A B : Type} (p : A -> bool) (l : list A) :
  forall ys : list B,
    length l = length ys ->
    length (filter (fun x => p (fst x)) (combine l ys)) = length (filter p l).
Proof.
  induction l as [|a l IH]; intros [|y ys] H; simpl in *;
    try discriminate; [reflexivity|].
  destruct (p a); simpl; rewrite IH; auto.
Qed.

(** The summary of a log, written with the calls of each campaign taken
    in the log itself: the number of calls, and the sum in 64 bits of
    their converted lengths. *)
Lemma process_campaign_data_by_name_rows (file : list LogReport.row)
  (summary : list LogSummary.row) (row : LogSummary.row) :
  process_campaign_data_by_name file = Ok summary ->
  In row summary ->
  let calls := calls_of (LogSummary.Camp row) file in
  LogSummary.Logged_Calls row = len calls /\
  exists lengths,
    mapM (astype_int (dtype_of (map LogReport.Recording_Length file)))
         (map LogReport.Recording_Length calls) = Ok lengths /\
    LogSummary.Recording_Length_Seconds row = wrap64 (Zsum lengths) /\
    LogSummary.Dial_Time row = seconds_to_hms (wrap64 (Zsum lengths)).
Proof.
  unfold process_campaign_data_by_name. fold (complete_calls file).
  intros H Hrow. apply bind_Ok in H. destruct H as (lengths & Hlengths & H).
  inversion H as [Hsummary]. clear H. subst summary.
  apply in_map_iff in Hrow. destruct Hrow as (camp & <- & _).
  cbn [LogSummary.Camp LogSummary.Logged_Calls LogSummary.Dial_Time
       LogSummary.Recording_Length_Seconds]. cbv zeta.
  pose proof (mapM_group _ LogReport.Recording_Length
                LogReport.Current_campaign camp _ _ Hlengths) as Hgroup.
  rewrite calls_of_complete in Hgroup.
  split.
  - unfold len. rewrite length_filter_combine.
    + rewrite <- calls_of_complete, <- (length_map LogReport.Current_campaign).
      rewrite filter_map. reflexivity.
    + rewrite (mapM_length _ _ _ Hlengths), !length_map. reflexivity.
  - eexists. split; [exact Hgroup|]. split; reflexivity.
Qed.

Lemma dtype_of_object (column : list value) (t : str) :
  In (VStr t) column -> dtype_of column = object.
Proof.
  intros H. unfold dtype_of.
  replace (existsb is_text column) with true; [reflexivity|].
  symmetry. apply existsb_exists. exists (VStr t). auto.
Qed.

Lemma forallb_false {A : Type} (f : A -> bool) (l : list A) :
  forallb f l = false -> exists x, In x l /\ f x = false.
Proof.
  induction l as [|a l IH]; simpl; [discriminate|].
  destruct (f a) eqn:E; simpl.
  - intros H. destruct (IH H) as (x & Hx & Hfx). exists x. auto.
  - intros _. exists a. auto.
Qed.

Lemma existsb_none {A : Type} (f : A -> bool) (l : list A) :
  Forall (fun x => f x = false) l -> existsb f l = false.
Proof.
  induction 1 as [|x l Hx _ IH]; simpl; [reflexivity|]. now rewrite Hx.
Qed.

Lemma dtype_of_numeric (column : list value) :
  Forall numeric column ->
  (dtype_of column = int64 /\ Forall (fun v => is_integer v = true) column) \/
  (dtype_of column = float64 /\
   exists v, In v column /\ is_integer v = false).
Proof.
  intros H. unfold dtype_of. rewrite (existsb_none is_text column H).
  destruct (forallb is_integer column) eqn:E.
  - left. split; [reflexivity|]. apply Forall_forall.
    now apply forallb_forall.
  - right. split; [reflexivity|]. now apply forallb_false.
Qed.

(** What [astype(int)] raises. *)
Lemma astype_int_raises (column : dtype) (v : value) (e : exn) :
  astype_int column v = Raise e ->
  (e = ValueError \/ e = OverflowError) /\
  (column <> object -> e = ValueError).
Proof.
  unfold astype_int, float64_to_int, int64_of.
  destruct column, v as [z|f|t];
    repeat match goal with
           | |- context [if ?c then _ else _] => destruct c
           | |- context [match py_int ?t with _ => _ end] =>
               destruct (py_int t)
           end;
    intros H; inversion H; split; auto; intros Hc; congruence.
Qed.

(** The conversion of a number that is not infinite. *)
Lemma astype_int_numeric (column : list value) (v : value) :
  Forall numeric column -> In v column ->
  notnull v = true -> infinite v = false ->
  astype_int (dtype_of column) v = Ok (whole_seconds (dtype_of column) v).
Proof.
  intros Hnum Hin Hnn Hfin.
  destruct (dtype_of_numeric column Hnum) as [[-> Hint]|[-> _]].
  - rewrite Forall_forall in Hint. specialize (Hint v Hin).
    destruct v; try discriminate. reflexivity.
  - destruct v as [z|f|t];
      cbn [infinite notnull astype_int whole_seconds] in *.
    + unfold float64_to_int. apply negb_false_iff in Hfin.
      now rewrite Hfin.
    + unfold float64_to_int, isfinite. unfold notnan in Hnn.
      apply negb_true_iff in Hnn. now rewrite Hnn, Hfin.
    + rewrite Forall_forall in Hnum. specialize (Hnum _ Hin). discriminate.
Qed.

(** The summary of a log whose recording lengths are numbers, none of
    them infinite. *)
Lemma process_numeric (file : list LogReport.row) :
  Forall (fun r => numeric (LogReport.Recording_Length r)) file ->
  Forall (fun r => infinite (LogReport.Recording_Length r) = false) file ->
  let column := dtype_of (map LogReport.Recording_Length file) in
  process_campaign_data_by_name file =
  Ok (map (fun camp =>
             let seconds :=
               wrap64 (Zsum (map (fun r => whole_seconds column
                                             (LogReport.Recording_Length r))
                                 (calls_of camp file))) in
             {| LogSummary.Camp := camp;
                LogSummary.Recording_Length_Seconds := seconds;
                LogSummary.Logged_Calls := len (calls_of camp file);
                LogSummary.Dial_Time := seconds_to_hms seconds |})
          (group_keys
             (present (map LogReport.Current_campaign
                           (complete_calls file))))).
Proof.
  intros Hnum Hfin column. unfold process_campaign_data_by_name.
  fold (complete_calls file). fold column.
  rewrite (mapM_Ok (astype_int column) (whole_seconds column)).
  - cbn [bind]. rewrite map_map, combine_map. f_equal.
    rewrite map_map. cbn [fst]. apply map_ext. intros camp. cbv zeta.
    rewrite filter_map. cbn [fst].
    rewrite calls_of_complete, map_map. cbn [snd]. unfold len.
    rewrite length_map. reflexivity.
  - intros v Hv. apply in_map_iff in Hv. destruct Hv as (r & <- & Hr).
    apply filter_In in Hr. destruct Hr as [Hin Hkeep].
    apply andb_true_iff in Hkeep. unfold column.
    apply astype_int_numeric.
    + apply Forall_map. exact Hnum.
    + apply in_map. exact Hin.
    + tauto.
    + rewrite Forall_forall in Hfin. now apply Hfin.
Qed.

(** A failure of the aggregation ends the run there. *)
Lemma main_not_aggregated (req : request) (day_index : Z)
  (data : list (list str)) (settings_df : DataFrame) (e : exn) :
  aggregate req = Raise e ->
  main req day_index data settings_df = ([], Raise e).
Proof.
  intros H. unfold main. rewrite H. reflexivity.
Qed.

Lemma process_raises (file : list LogReport.row) (r : LogReport.row) :
  In r file ->
  LogReport.Current_campaign r <> None ->
  notnull (LogReport.Recording_Length r) = true ->
  (exists e,
     astype_int (dtype_of (map LogReport.Recording_Length file))
                (LogReport.Recording_Length r) = Raise e) ->
  exists e,
    process_campaign_data_by_name file = Raise e /\
    (e = ValueError \/ e = OverflowError) /\
    (dtype_of (map LogReport.Recording_Length file) <> object ->
     e = ValueError).
Proof.
  intros Hin Hcamp Hnn Hraise. unfold process_campaign_data_by_name.
  fold (complete_calls file).
  destruct (mapM_Raise
              (astype_int (dtype_of (map LogReport.Recording_Length file)))
              (map LogReport.Recording_Length (complete_calls file))
              (LogReport.Recording_Length r)) as (e & He).
  - apply in_map. apply filter_In. split; [exact Hin|]. rewrite Hnn.
    destruct (LogReport.Current_campaign r); [reflexivity|congruence].
  - exact Hraise.
  - exists e. rewrite He. split; [reflexivity|].
    apply mapM_Raise_inv in He. destruct He as (v & _ & Hv).
    exact (astype_int_raises _ _ _ Hv).
Qed.

(** C6 (as stated). Any report with a present recording length that is not
    an integer would make the coercion fail and abort the run. A length of
    12.5 in a column read as numbers is truncated to 12 and the summary is
    produced. *)
Lemma fractional_length_is_truncated :
  non_integer (LogReport.Recording_Length fractional_call) /\
  process_campaign_data_by_name [fractional_call] =
  Ok [{| LogSummary.Camp := py "Camp A";
         LogSummary.Recording_Length_Seconds := 12;
         LogSummary.Logged_Calls := 1;
         LogSummary.Dial_Time := py "00:00:12" |}] /\
  ~ (forall (file : list LogReport.row) (r : LogReport.row),
       In r file ->
       LogReport.Current_campaign r <> None ->
       non_integer (LogReport.Recording_Length r) ->
       exists e, process_campaign_data_by_name file = Raise e).
Proof.
  assert (Hfrac : non_integer (LogReport.Recording_Length fractional_call)).
  { split; [reflexivity|]. intros H.
    apply (f_equal (fun x => PrimFloat.eqb x 12.5)) in H.
    vm_compute in H. discriminate. }
  split; [exact Hfrac|]. split; [reflexivity|].
  intros H.
  destruct (H [fractional_call] fractional_call) as (e & He).
  - now left.
  - discriminate.
  - exact Hfrac.
  - discriminate.
Qed.

(** C6 (amended). In Log mode a recording length read as text that is not
    an integer literal, on a row that has a campaign, makes the integer
    coercion raise ([ValueError], or [OverflowError] when an earlier
    length does not fit in 64 bits): no summary is produced and the run
    ends on that exception before any message or write. A column read as
    numbers fails, in the same way, only on an infinite value: a finite
    value (taken within 64 bits) is truncated toward zero (12.5 counts as
    12) and the seconds of a campaign are summed in 64 bits. The integer literals are those of
    [int()]: the text "12.5" is none, " +1_000 " and the Arabic-Indic
    digits U+0661 U+0662 are (a log with that length is summarised with
    12 seconds), a leading U+001C is not skipped, and 4300 digits are read
    where 4301 are not. *)
Theorem recording_length_coercion :
  (forall (file : list LogReport.row) (r : LogReport.row) (t : str),
     In r file ->
     LogReport.Current_campaign r <> None ->
     LogReport.Recording_Length r = VStr t ->
     py_int t = None ->
     exists e,
       (e = ValueError \/ e = OverflowError) /\
       process_campaign_data_by_name file = Raise e /\
       forall day_index data settings_df,
         main (Log_type file) day_index data settings_df = ([], Raise e)) /\
  (forall file : list LogReport.row,
     Forall (fun r => numeric (LogReport.Recording_Length r)) file ->
     Forall (fun r => infinite (LogReport.Recording_Length r) = false) file ->
     int64_log file ->
     exists summary,
       process_campaign_data_by_name file = Ok summary /\
       forall row, In row summary ->
         LogSummary.Recording_Length_Seconds row =
         wrap64
           (Zsum (map (fun r =>
                         whole_seconds
                           (dtype_of (map LogReport.Recording_Length file))
                           (LogReport.Recording_Length r))
                      (calls_of (LogSummary.Camp row) file)))) /\
  (forall (file : list LogReport.row) (r : LogReport.row) (f : float),
     Forall (fun r => numeric (LogReport.Recording_Length r)) file ->
     In r file ->
     LogReport.Current_campaign r <> None ->
     LogReport.Recording_Length r = VFloat f ->
     notnan f = true ->
     PrimFloat.is_infinity f = true ->
     process_campaign_data_by_name file = Raise ValueError /\
     forall day_index data settings_df,
       main (Log_type file) day_index data settings_df
       = ([], Raise ValueError)) /\
  whole_seconds float64 (VFloat 12.5) = 12 /\
  whole_seconds float64 (VFloat (-12.5)) = -12 /\
  py_int (py "12.5") = None /\
  py_int (py " +1_000 ") = Some 1000 /\
  py_int [1633; 1634]%N = Some 12 /\
  py_int (28%N :: py "12") = None /\
  py_int (repeat 49%N 4300) <> None /\
  py_int (repeat 49%N 4301) = None /\
  process_campaign_data_by_name [arabic_indic_call] =
  Ok [{| LogSummary.Camp := py "Camp A";
         LogSummary.Recording_Length_Seconds := 12;
         LogSummary.Logged_Calls := 1;
         LogSummary.Dial_Time := py "00:00:12" |}].
Proof.
  split; [|split; [|split;
    [|repeat split; try reflexivity;
      vm_compute; (discriminate || reflexivity)]]].
  - intros file r t Hin Hcamp Hlen Hint.
    destruct (process_raises file r Hin Hcamp) as (e & He & Hkind & _).
    + now rewrite Hlen.
    + exists ValueError.
      rewrite (dtype_of_object _ t), Hlen; [simpl; now rewrite Hint|].
      rewrite <- Hlen. now apply in_map.
    + exists e. split; [exact Hkind|]. split; [exact He|].
      intros day_index data settings_df. apply main_not_aggregated.
      simpl. now rewrite He.
  - intros file Hnum Hfin _. eexists.
    split; [apply (process_numeric file Hnum Hfin)|].
    intros row Hrow. apply in_map_iff in Hrow.
    destruct Hrow as (camp & <- & _). reflexivity.
  - intros file r f Hnum Hin Hcamp Hlen Hnn Hinf.
    assert (Hnan : PrimFloat.is_nan f = false)
      by (now apply negb_true_iff in Hnn).
    assert (Hcol : dtype_of (map LogReport.Recording_Length file) = float64).
    { destruct (dtype_of_numeric (map LogReport.Recording_Length file))
        as [[_ Hint]|[Hd _]]; [now apply Forall_map| |exact Hd].
      rewrite Forall_forall in Hint.
      specialize (Hint (VFloat f)). rewrite <- Hlen in Hint.
      specialize (Hint (in_map _ _ _ Hin)). rewrite Hlen in Hint.
      discriminate. }
    destruct (process_raises file r Hin Hcamp) as (e & He & _ & Hkind).
    + rewrite Hlen. simpl. unfold notnan. now rewrite Hnan.
    + exists ValueError. rewrite Hcol, Hlen. simpl.
      unfold float64_to_int, isfinite. now rewrite Hnan, Hinf.
    + rewrite Hcol in Hkind. rewrite (Hkind ltac:(discriminate)) in He.
      split; [exact He|].
      intros day_index data settings_df. apply main_not_aggregated.
      simpl. now rewrite He.
Qed.

Lemma recording_length_coercion_witness :
  (exists e,
     (e = ValueError \/ e = OverflowError) /\
     process_campaign_data_by_name [fractional_call; text_call] = Raise e /\
     forall day_index data settings_df,
       main (Log_type [fractional_call; text_call]) day_index data
            settings_df = ([], Raise e)) /\
  (exists summary,
     process_campaign_data_by_name
       [long_call; fractional_call; call_without_length; long_call]
     = Ok summary /\
     forall row, In row summary ->
       LogSummary.Recording_Length_Seconds row =
       wrap64
         (Zsum (map (fun r =>
                       whole_seconds
                         (dtype_of
                            (map LogReport.Recording_Length
                                 [long_call; fractional_call;
                                  call_without_length; long_call]))
                         (LogReport.Recording_Length r))
                    (calls_of (LogSummary.Camp row)
                       [long_call; fractional_call; call_without_length;
                        long_call])))) /\
  (process_campaign_data_by_name [fractional_call; infinite_call]
   = Raise ValueError /\
   forall day_index data settings_df,
     main (Log_type [fractional_call; infinite_call]) day_index data
          settings_df = ([], Raise ValueError)).
Proof.
  destruct recording_length_coercion as (Htext & Hnumeric & Hinfinite & _).
  split; [|split].
  - apply (Htext [fractional_call; text_call] text_call (py "12.5"));
      [simpl; tauto|discriminate|reflexivity|reflexivity].
  - apply Hnumeric; repeat constructor.
  - apply (Hinfinite [fractional_call; infinite_call] infinite_call infinity);
      [repeat constructor|simpl; tauto|discriminate|reflexivity|reflexivity
      |reflexivity].
Defined.

(** A missing value does not enter a sum or a mean. *)
Lemma nansum_skips (int64 : bool) (l1 l2 : list num) (n : num) :
  isna n = true -> nansum int64 (l1 ++ n :: l2) = nansum int64 (l1 ++ l2).
Proof.
  intros H. destruct n as [z|f]; [discriminate|]. simpl in H.
  unfold nansum, ints, floats.
  rewrite !flat_map_app, !map_app, !filter_app. simpl.
  unfold notnan. now rewrite H.
Qed.

Lemma nanmean_skips (l1 l2 : list num) (n : num) :
  isna n = true -> nanmean (l1 ++ n :: l2) = nanmean (l1 ++ l2).
Proof.
  intros H. destruct n as [z|f]; [discriminate|]. simpl in H.
  unfold nanmean, floats. rewrite !map_app, !filter_app. simpl.
  unfold notnan. now rewrite H.
Qed.

(** C7 (as stated). Every CTC row missing one of Campaign, Calls, Connects,
    Calls to Connect, Abandoned would be dropped before aggregation and
    contribute to no sum. A row with a campaign and no [Calls] value is
    kept: its campaign is summarised and its [Connects] value is in the
    sum. *)
Lemma row_without_calls_is_aggregated :
  misses_field camp_a_without_calls /\
  load_and_process_csv [camp_a_without_calls] =
  [{| CtcSummary.Camp := py "Camp A";
      CtcSummary.Calls := Float 0;
      CtcSummary.Connects := Int 5;
      CtcSummary.CTC := 50;
      CtcSummary.Abandoned := Int 1 |}] /\
  ~ (forall (l1 l2 : list CtcReport.row) (r : CtcReport.row),
       misses_field r ->
       load_and_process_csv (l1 ++ r :: l2) = load_and_process_csv (l1 ++ l2)).
Proof.
  split; [right; left; reflexivity|]. split; [reflexivity|].
  intros H.
  specialize (H [] [] camp_a_without_calls
                (or_intror (or_introl eq_refl))).
  discriminate.
Qed.

(** C7 (amended). On a report whose numbers are within 64 bits: before
    aggregation, CTC mode drops the rows whose Campaign is missing, and Log mode the rows missing the campaign or the
    recording length: such a row is in no group, and without it the
    summary is the same as long as the columns are read with the same
    types. A CTC row that has a campaign and misses Calls, Connects,
    Calls to Connect or Abandoned is kept: its campaign has a summary row,
    which reduces all the rows of the campaign, this one included, a
    missing value being skipped by the sum or the mean of its column.
    Camp values of a summary are unique. *)
Theorem rows_dropped_before_aggregation :
  (forall (l1 l2 : list CtcReport.row) (r : CtcReport.row),
     int64_report (l1 ++ r :: l2) ->
     CtcReport.Campaign r = None ->
     sum_dtypes (l1 ++ r :: l2) = sum_dtypes (l1 ++ l2) ->
     load_and_process_csv (l1 ++ r :: l2) = load_and_process_csv (l1 ++ l2)) /\
  (forall (file : list CtcReport.row) (r : CtcReport.row) (camp : str),
     In r (rows_of camp file) -> CtcReport.Campaign r = Some camp) /\
  (forall (file : list CtcReport.row) (r : CtcReport.row) (camp : str),
     int64_report file ->
     In r file ->
     CtcReport.Campaign r = Some camp ->
     In r (rows_of camp file) /\
     exists row,
       In row (load_and_process_csv file) /\
       CtcSummary.Camp row = camp /\
       CtcSummary.Calls row =
         nansum (is_int64 (map CtcReport.Calls file))
                (map CtcReport.Calls (rows_of camp file)) /\
       CtcSummary.Connects row =
         nansum (is_int64 (map CtcReport.Connects file))
                (map CtcReport.Connects (rows_of camp file)) /\
       CtcSummary.CTC row =
         nanmean (map CtcReport.Calls_to_Connect (rows_of camp file)) /\
       CtcSummary.Abandoned row =
         nansum (is_int64 (map CtcReport.Abandoned file))
                (map CtcReport.Abandoned (rows_of camp file))) /\
  (forall (int64 : bool) (l1 l2 : list num) (n : num),
     isna n = true ->
     nansum int64 (l1 ++ n :: l2) = nansum int64 (l1 ++ l2) /\
     nanmean (l1 ++ n :: l2) = nanmean (l1 ++ l2)) /\
  (forall (l1 l2 : list LogReport.row) (r : LogReport.row),
     int64_log (l1 ++ r :: l2) ->
     LogReport.Current_campaign r = None \/
     notnull (LogReport.Recording_Length r) = false ->
     dtype_of (map LogReport.Recording_Length (l1 ++ r :: l2)) =
     dtype_of (map LogReport.Recording_Length (l1 ++ l2)) ->
     process_campaign_data_by_name (l1 ++ r :: l2) =
     process_campaign_data_by_name (l1 ++ l2)) /\
  (forall (file : list LogReport.row) (r : LogReport.row) (camp : str),
     In r (calls_of camp file) ->
     LogReport.Current_campaign r = Some camp /\
     notnull (LogReport.Recording_Length r) = true) /\
  (forall (file : list LogReport.row) (summary : list LogSummary.row)
          (row : LogSummary.row),
     int64_log file ->
     process_campaign_data_by_name file = Ok summary ->
     In row summary ->
     let calls := calls_of (LogSummary.Camp row) file in
     LogSummary.Logged_Calls row = len calls /\
     exists lengths,
       mapM (astype_int (dtype_of (map LogReport.Recording_Length file)))
            (map LogReport.Recording_Length calls) = Ok lengths /\
       LogSummary.Recording_Length_Seconds row = wrap64 (Zsum lengths)) /\
  (forall file, NoDup (map CtcSummary.Camp (load_and_process_csv file))) /\
  (forall file summary,
     process_campaign_data_by_name file = Ok summary ->
     NoDup (map LogSummary.Camp summary)).
Proof.
  repeat match goal with |- _ /\ _ => split end.
  - intros l1 l2 r _ Hr Htypes. unfold sum_dtypes in Htypes.
    inversion Htypes as [[Hcalls Hconnects Habandoned]].
    unfold load_and_process_csv.
    rewrite Hcalls, Hconnects, Habandoned.
    rewrite filter_drop; [reflexivity|]. now rewrite Hr.
  - intros file r camp Hr. apply filter_In in Hr.
    now apply is_key_Some.
  - intros file r camp _ Hin Hcamp.
    assert (Hgroup : In r (rows_of camp file)).
    { apply filter_In. split; [exact Hin|]. now apply is_key_Some. }
    split; [exact Hgroup|].
    assert (Hkey : In camp (map CtcSummary.Camp (load_and_process_csv file)))
      by (apply In_campaigns; eauto).
    apply in_map_iff in Hkey. destruct Hkey as (row & Hrow & Hsum).
    exists row. split; [exact Hsum|]. split; [exact Hrow|].
    rewrite <- Hrow. exact (summary_row_of file row Hsum).
  - intros int64 l1 l2 n Hn.
    split; [now apply nansum_skips|now apply nanmean_skips].
  - intros l1 l2 r _ Hr Htype. unfold process_campaign_data_by_name.
    rewrite Htype. rewrite filter_drop; [reflexivity|].
    destruct Hr as [Hr|Hr]; rewrite Hr; [reflexivity|].
    apply andb_false_r.
  - intros file r camp Hr. apply filter_In in Hr. destruct Hr as [_ Hr].
    apply andb_true_iff in Hr. destruct Hr as [Hk Hn].
    split; [now apply is_key_Some|exact Hn].
  - intros file summary row _ H Hrow.
    destruct (process_campaign_data_by_name_rows file summary row H Hrow)
      as (Hcalls & lengths & Hlengths & Hseconds & _).
    split; [exact Hcalls|]. exists lengths. auto.
  - intros file. rewrite load_and_process_csv_camps. apply group_keys_NoDup.
  - intros file summary H.
    destruct (process_campaign_data_by_name_camps file summary H) as (k & ->).
    apply group_keys_NoDup.
Qed.

Lemma rows_dropped_before_aggregation_witness :
  load_and_process_csv [camp_a_first; row_without_campaign; camp_a_second] =
  load_and_process_csv [camp_a_first; camp_a_second] /\
  (In camp_a_without_calls
      (rows_of (py "Camp A") [camp_a_without_calls; camp_a_first]) /\
   exists row,
     In row (load_and_process_csv [camp_a_without_calls; camp_a_first]) /\
     CtcSummary.Camp row = py "Camp A" /\
     CtcSummary.Calls row = Float 10 /\
     CtcSummary.Connects row = Int 10 /\
     CtcSummary.CTC row = 50%float /\
     CtcSummary.Abandoned row = Int 2) /\
  process_campaign_data_by_name
    [fractional_call; call_without_campaign; call_without_length] =
  process_campaign_data_by_name [fractional_call; call_without_length] /\
  process_campaign_data_by_name [fractional_call; call_without_length] =
  process_campaign_data_by_name [fractional_call].
Proof.
  destruct rows_dropped_before_aggregation
    as (Hctc & _ & Hkept & _ & Hlog & _).
  split; [|split; [|split]].
  - apply (Hctc [camp_a_first] [camp_a_second] row_without_campaign);
      [repeat constructor|reflexivity|reflexivity].
  - destruct (Hkept [camp_a_without_calls; camp_a_first] camp_a_without_calls
                (py "Camp A") ltac:(repeat constructor)
                (or_introl eq_refl) eq_refl)
      as (Hin & row & Hrow & Hcamp & Hcalls & Hconnects & Hmean & Habandoned).
    split; [exact Hin|]. exists row.
    split; [exact Hrow|]. split; [exact Hcamp|].
    split; [rewrite Hcalls; reflexivity|].
    split; [rewrite Hconnects; reflexivity|].
    split; [rewrite Hmean; reflexivity|].
    rewrite Habandoned; reflexivity.
  - apply (Hlog [fractional_call] [call_without_length] call_without_campaign);
      [repeat constructor|left; reflexivity|reflexivity].
  - apply (Hlog [fractional_call] [] call_without_length);
      [repeat constructor|right; reflexivity|reflexivity].
Defined.

(** ** Update orchestrator *)

Lemma get_column_index_total (label : str) (index : Z) (header_row : list str) :
  0 <= index ->
  exists o, get_column_index label index header_row = Ok o.
Proof.
  intros Hi. unfold get_column_index.
  destruct (index <? len (occurrences label header_row)) eqn:E; [|eauto].
  apply Z.ltb_lt in E. unfold len in E.
  destruct (nth_error (occurrences label header_row) (Z.to_nat index))
    as [p|] eqn:Hp.
  - rewrite (getitem_nonneg _ _ _ Hi Hp). simpl. eauto.
  - apply nth_error_None in Hp. lia.
Qed.

Lemma get_column_index_None (label : str) (index : Z) (header_row : list str) :
  get_column_index label index header_row = Ok None -> 0 <= index.
Proof.
  unfold get_column_index.
  destruct (index <? len (occurrences label header_row)) eqn:E.
  - destruct (getitem _ index); simpl; discriminate.
  - intros _. apply Z.ltb_ge in E. unfold len in E. lia.
Qed.

Lemma getitem_nth_error {A : Type} (l : list A) (n : nat) (x : A) :
  nth_error l n = Some x -> getitem l (Z.of_nat n) = Ok x.
Proof.
  intros H. apply getitem_nonneg; [lia|]. now rewrite Nat2Z.id.
Qed.

(** C9. If a metric label required by the selected mode resolves to
    not-found for the chosen day index in the header row, the run issues no
    cell write: once the report is aggregated it reports the invalid day
    index and stops. *)
Theorem unresolved_column_aborts (req : request) (day_index : Z)
  (data : list (list str)) (settings_df : DataFrame)
  (header_row : list str) (label : str) :
  nth_error data 1 = Some header_row ->
  In label (update_columns req) ->
  get_column_index label day_index header_row = Ok None ->
  writes (main req day_index data settings_df) = [] /\
  (forall summary,
     aggregate req = Ok summary ->
     main req day_index data settings_df =
     ([st_write; st_error Invalid_day_index], Ok tt)).
Proof.
  intros Hheader Hlabel Hnone.
  pose proof (get_column_index_None _ _ _ Hnone) as Hday.
  set (resolve := fun col =>
         match get_column_index col day_index header_row with
         | Ok o => (col, o)
         | Raise _ => (col, None)
         end).
  assert (Hcols :
    mapM (fun col => i <- get_column_index col day_index header_row ;;
                     Ok (col, i)) (update_columns req)
    = Ok (map resolve (update_columns req))).
  { apply mapM_Ok. intros col _. unfold resolve.
    destruct (get_column_index_total col day_index header_row Hday)
      as (o & ->). reflexivity. }
  assert (Hmissing :
    existsb isNone (map snd (map resolve (update_columns req))) = true).
  { apply existsb_exists. exists None. split; [|reflexivity].
    rewrite map_map. apply in_map_iff. exists label. split; [|exact Hlabel].
    unfold resolve. now rewrite Hnone. }
  assert (Hrun : forall summary,
     aggregate req = Ok summary ->
     main req day_index data settings_df =
     ([st_write; st_error Invalid_day_index], Ok tt)).
  { intros summary Hagg. unfold main. rewrite Hagg.
    change 1 with (Z.of_nat 1).
    rewrite (getitem_nth_error data 1 header_row Hheader).
    cbn [lift io_bind emit]. rewrite Hcols. cbn [io_bind].
    rewrite Hmissing. reflexivity. }
  split; [|exact Hrun].
  destruct (aggregate req) as [summary|e] eqn:Hagg.
  - rewrite (Hrun summary eq_refl). reflexivity.
  - unfold main. rewrite Hagg. reflexivity.
Qed.

Lemma unresolved_column_aborts_witness :
  writes (main (CTC [camp_a_first; camp_a_second]) 2 two_day_sheet
               settings_two_columns) = [] /\
  (forall summary,
     aggregate (CTC [camp_a_first; camp_a_second]) = Ok summary ->
     main (CTC [camp_a_first; camp_a_second]) 2 two_day_sheet
          settings_two_columns =
     ([st_write; st_error Invalid_day_index], Ok tt)).
Proof.
  apply (unresolved_column_aborts
           (CTC [camp_a_first; camp_a_second]) 2 two_day_sheet
           settings_two_columns
           [py "Campaign"; py "Calls"; py "CTC"; py "Abandoned";
            py "Connects"; py "Calls"; py "CTC"; py "Abandoned";
            py "Connects"]
           (py "CTC")).
  - reflexivity.
  - simpl. tauto.
  - reflexivity.
Defined.

(** * Further properties of the code *)

(** ** Trimming *)

Lemma lstrip_split (t : str) :
  exists w, t = w ++ PyStr.lstrip t /\
            Forall (fun c => PyStr.isspace c = true) w.
Proof.
  induction t as [|c t (w & Hw & Hsp)].
  - exists []. split; [reflexivity|constructor].
  - simpl. destruct (PyStr.isspace c) eqn:E.
    + exists (c :: w). split; [simpl; now rewrite <- Hw|now constructor].
    + exists []. split; [reflexivity|constructor].
Qed.

Lemma lstrip_head (t : str) :
  match PyStr.lstrip t with
  | [] => True
  | c :: _ => PyStr.isspace c = false
  end.
Proof.
  induction t as [|c t IH]; simpl; [exact I|].
  destruct (PyStr.isspace c) eqn:E; [exact IH|exact E].
Qed.

Lemma lstrip_fixed (t : str) :
  match t with [] => True | c :: _ => PyStr.isspace c = false end ->
  PyStr.lstrip t = t.
Proof.
  destruct t as [|c t]; simpl; [reflexivity|]. now intros ->.
Qed.

Lemma strip_idempotent (t : str) : PyStr.strip (PyStr.strip t) = PyStr.strip t.
Proof.
  unfold PyStr.strip, PyStr.rstrip.
  set (a := PyStr.lstrip t).
  pose proof (lstrip_head t) as Ha. fold a in Ha.
  set (u := PyStr.lstrip (rev a)).
  pose proof (lstrip_head (rev a)) as Hu. fold u in Hu.
  destruct (lstrip_split (rev a)) as (w & Hw & _). fold u in Hw.
  assert (Hrev : a = rev u ++ rev w).
  { rewrite <- (rev_involutive a), Hw, rev_app_distr. reflexivity. }
  assert (Hfix : PyStr.lstrip (rev u) = rev u).
  { apply lstrip_fixed. destruct (rev u) as [|c r] eqn:E; [exact I|].
    rewrite Hrev in Ha. simpl in Ha. exact Ha. }
  rewrite Hfix, rev_involutive. f_equal. now apply lstrip_fixed.
Qed.

(** ** Column resolver: range, order, untrimmed labels *)

Lemma getitem_In {A : Type} (l : list A) (i : Z) (x : A) :
  getitem l i = Ok x -> In x l.
Proof.
  unfold getitem.
  destruct ((if i <? 0 then len l + i else i) <? 0); [discriminate|].
  destruct (nth_error l _) as [y|] eqn:E; [|discriminate].
  intros H. inversion H; subst y. eapply nth_error_In; eauto.
Qed.

Lemma In_occurrences_from (label : str) (h : list str) :
  forall (start p : Z),
    In p (occurrences_from start label h) ->
    exists n cell,
      p = start + Z.of_nat n /\ nth_error h n = Some cell /\
      PyStr.strip cell = label.
Proof.
  induction h as [|cell h IH]; intros start p Hin.
  - contradiction.
  - rewrite occurrences_from_cons in Hin.
    destruct (PyStr.eqb (PyStr.strip cell) label) eqn:E.
    + destruct Hin as [<-|Hin].
      * exists O, cell. split; [lia|]. split; [reflexivity|].
        now apply pystr_eqb_eq.
      * destruct (IH _ _ Hin) as (n & c & -> & Hn & Hc).
        exists (S n), c. split; [lia|]. auto.
    + destruct (IH _ _ Hin) as (n & c & -> & Hn & Hc).
      exists (S n), c. split; [lia|]. auto.
Qed.

Lemma get_column_index_Some (label : str) (index : Z) (h : list str) (c : Z) :
  get_column_index label index h = Ok (Some c) ->
  index < len (occurrences label h) /\ getitem (occurrences label h) index
                                       = Ok (c - 1).
Proof.
  unfold get_column_index.
  destruct (index <? len (occurrences label h)) eqn:E; [|discriminate].
  apply Z.ltb_lt in E. destruct (getitem _ index) as [p|e]; simpl;
    [|discriminate].
  intros H. inversion H. split; [exact E|]. f_equal. lia.
Qed.

(** X1. Whatever the index, a column returned by the resolver is a column
    of the header row (between 1 and its length) whose cell, once trimmed,
    is the label. *)
Theorem get_column_index_in_range (label : str) (index : Z)
  (header_row : list str) (c : Z) :
  get_column_index label index header_row = Ok (Some c) ->
  1 <= c <= len header_row /\
  exists cell,
    nth_error header_row (Z.to_nat (c - 1)) = Some cell /\
    PyStr.strip cell = label.
Proof.
  intros H. apply get_column_index_Some in H. destruct H as [_ H].
  apply getitem_In in H. rewrite occurrences_from_0 in H.
  apply In_occurrences_from in H. destruct H as (n & cell & Hp & Hn & Hc).
  assert (Hlen : (n < length header_row)%nat)
    by (apply nth_error_Some; congruence).
  unfold len. split; [lia|]. exists cell.
  replace (Z.to_nat (c - 1)) with n by lia. auto.
Qed.

Lemma get_column_index_in_range_witness :
  let header_row := [py "Calls"; py " CTC"; py "Calls "; py "CTC"] in
  1 <= 4 <= len header_row /\
  exists cell,
    nth_error header_row (Z.to_nat (4 - 1)) = Some cell /\
    PyStr.strip cell = py "CTC".
Proof.
  apply (get_column_index_in_range (py "CTC") 1
           [py "Calls"; py " CTC"; py "Calls "; py "CTC"] 4).
  reflexivity.
Defined.

Lemma occurrences_from_increasing (label : str) (h : list str) :
  forall (start : Z) (i j : nat) (a b : Z),
    (i < j)%nat ->
    nth_error (occurrences_from start label h) i = Some a ->
    nth_error (occurrences_from start label h) j = Some b ->
    a < b.
Proof.
  induction h as [|cell h IH]; intros start i j a b Hij Ha Hb.
  - destruct i; discriminate.
  - rewrite occurrences_from_cons in Ha, Hb.
    destruct (PyStr.eqb (PyStr.strip cell) label).
    + destruct j as [|j]; [lia|]. simpl in Hb. destruct i as [|i].
      * simpl in Ha. inversion Ha; subst a.
        apply nth_error_In, In_occurrences_from in Hb.
        destruct Hb as (n & _ & -> & _). lia.
      * simpl in Ha. apply (IH (start + 1) i j); [lia|assumption..].
    + now apply (IH (start + 1) i j).
Qed.

Lemma getitem_nonneg_inv {A : Type} (l : list A) (i : Z) (x : A) :
  0 <= i -> getitem l i = Ok x -> nth_error l (Z.to_nat i) = Some x.
Proof.
  intros Hi. unfold getitem.
  destruct (i <? 0) eqn:E; [apply Z.ltb_lt in E; lia|]. rewrite E.
  destruct (nth_error l (Z.to_nat i)); [|discriminate]. congruence.
Qed.

(** X2. Later occurrence indexes resolve to columns further right: the
    columns of two days are in the order of the days. *)
Theorem get_column_index_increasing (label : str) (header_row : list str)
  (i j ci cj : Z) :
  0 <= i < j ->
  get_column_index label i header_row = Ok (Some ci) ->
  get_column_index label j header_row = Ok (Some cj) ->
  ci < cj.
Proof.
  intros Hij Hi Hj.
  apply get_column_index_Some in Hi, Hj.
  destruct Hi as [_ Hi], Hj as [_ Hj].
  apply getitem_nonneg_inv in Hi; [|lia].
  apply getitem_nonneg_inv in Hj; [|lia].
  rewrite occurrences_from_0 in Hi, Hj.
  pose proof (occurrences_from_increasing label header_row 0
                (Z.to_nat i) (Z.to_nat j) _ _ ltac:(lia) Hi Hj).
  lia.
Qed.

Lemma get_column_index_increasing_witness : 2 < 6.
Proof.
  apply (get_column_index_increasing (py "Calls")
           [py "Campaign"; py "Calls"; py "CTC"; py "Abandoned";
            py "Connects"; py "Calls"; py "CTC"; py "Abandoned";
            py "Connects"] 0 1 2 6).
  - lia.
  - reflexivity.
  - reflexivity.
Defined.

Lemma count_matches_untrimmed (label : str) (h : list str) :
  PyStr.strip label <> label -> count_matches label h = O.
Proof.
  intros Hl. induction h as [|cell h IH]; [reflexivity|].
  rewrite count_matches_cons.
  destruct (PyStr.eqb (PyStr.strip cell) label) eqn:E; [|exact IH].
  apply pystr_eqb_eq in E. exfalso. apply Hl.
  rewrite <- E. apply strip_idempotent.
Qed.

(** X3. A label that itself carries leading or trailing whitespace is never
    found: the cells are trimmed before the comparison and the label is
    not, so every non-negative index resolves to not-found. *)
Theorem get_column_index_untrimmed_label (label : str) (index : Z)
  (header_row : list str) :
  PyStr.strip label <> label ->
  0 <= index ->
  get_column_index label index header_row = Ok None.
Proof.
  intros Hl Hi. unfold get_column_index.
  rewrite len_occurrences, (count_matches_untrimmed label header_row Hl).
  destruct (index <? Z.of_nat 0) eqn:E; [|reflexivity].
  apply Z.ltb_lt in E. lia.
Qed.

Lemma get_column_index_untrimmed_label_witness :
  get_column_index (py "Calls ") 0 [py "Calls "; py "Calls"] = Ok None.
Proof.
  apply get_column_index_untrimmed_label.
  - discriminate.
  - lia.
Defined.

(** ** Row matcher: the three outcomes *)

Lemma locate_row_from_None (name : str) (data : list (list str)) :
  forall start : Z,
    locate_row_from start data (Str name) = Ok None <->
    Forall (fun row => exists c rest,
                row = c :: rest /\ PyStr.strip c <> name) data.
Proof.
  induction data as [|row data IH]; intros start.
  - simpl. split; [constructor|reflexivity].
  - destruct row as [|c row].
    + simpl. split; [discriminate|].
      intros H. inversion H as [|? ? (c & rest & Hc & _) _]. discriminate.
    + cbn [locate_row_from]. rewrite getitem_head. cbn [bind cell_eqb].
      destruct (PyStr.eqb (PyStr.strip c) name) eqn:E.
      * apply pystr_eqb_eq in E. split; [discriminate|].
        intros H. inversion H as [|? ? (c' & rest & Hc & Hne) _].
        inversion Hc; subst. contradiction.
      * apply pystr_eqb_neq in E. rewrite IH. split.
        -- intros H. constructor; [exists c, row; auto|exact H].
        -- intros H. now inversion H.
Qed.

Lemma locate_row_from_Raise (name : str) (data : list (list str)) :
  forall (start : Z) (e : exn),
    locate_row_from start data (Str name) = Raise e <->
    e = IndexError /\ exists j, first_empty_row data name j.
Proof.
  induction data as [|row data IH]; intros start e.
  - simpl. split; [discriminate|].
    intros (_ & j & Hj & _). destruct j; discriminate.
  - destruct row as [|c row].
    + simpl. split.
      * intros H. inversion H. split; [reflexivity|].
        exists O. split; [reflexivity|]. intros j' Hj'. lia.
      * intros (-> & _). reflexivity.
    + cbn [locate_row_from]. rewrite getitem_head. cbn [bind cell_eqb].
      destruct (PyStr.eqb (PyStr.strip c) name) eqn:E.
      * apply pystr_eqb_eq in E. split; [discriminate|].
        intros (_ & j & Hj & Hbefore). destruct j as [|j]; [discriminate|].
        destruct (Hbefore O) as (c' & rest & Hc & Hne); [lia|].
        simpl in Hc. inversion Hc; subst. contradiction.
      * apply pystr_eqb_neq in E. rewrite IH. split.
        -- intros (-> & j & Hj & Hbefore). split; [reflexivity|].
           exists (S j). split; [exact Hj|].
           intros [|j'] Hj'; [exists c, row; auto|apply Hbefore; lia].
        -- intros (-> & j & Hj & Hbefore). split; [reflexivity|].
           destruct j as [|j]; [discriminate|].
           exists j. split; [exact Hj|].
           intros j' Hj'. apply (Hbefore (S j')). lia.
Qed.

(** X4. The row search has three outcomes. A row found is a row of the
    grid (1-based, at most the number of rows); not-found means that every
    row has a first cell and none equals the name once trimmed; and the
    search raises, always [IndexError], exactly when an empty row comes
    before any matching row. *)
Theorem locate_row_outcomes (data : list (list str)) (name : str) :
  (forall i, locate_row data (Str name) = Ok (Some i) -> 1 <= i <= len data) /\
  (locate_row data (Str name) = Ok None <->
   Forall (fun row => exists c rest,
               row = c :: rest /\ PyStr.strip c <> name) data) /\
  (forall e,
     locate_row data (Str name) = Raise e <->
     e = IndexError /\ exists j, first_empty_row data name j).
Proof.
  split; [|split].
  - intros i H. apply locate_row_from_spec in H.
    destruct H as (j & -> & (c & rest & Hj & _) & _).
    assert ((j < length data)%nat) by (apply nth_error_Some; congruence).
    unfold len. lia.
  - apply locate_row_from_None.
  - intros e. apply locate_row_from_Raise.
Qed.

(** X5. A campaign name that carries leading or trailing whitespace is
    never matched directly: the sheet cell is trimmed before the
    comparison and the name is not. *)
Theorem locate_row_untrimmed_name (data : list (list str)) (name : str)
  (i : Z) :
  PyStr.strip name <> name ->
  locate_row data (Str name) <> Ok (Some i).
Proof.
  intros Hname H. apply locate_row_from_spec in H.
  destruct H as (j & _ & (c & rest & _ & Hc) & _).
  apply Hname. rewrite <- Hc. apply strip_idempotent.
Qed.

Lemma locate_row_untrimmed_name_witness :
  locate_row [[py "Week 1"]; [py "Campaign"]; [py "Camp A "]]
             (Str (py "Camp A ")) <> Ok (Some 3).
Proof.
  apply locate_row_untrimmed_name. discriminate.
Defined.

(** ** Alias resolver: shape of the answer, missing column, absent name *)

Lemma cell_eqb_refl (x : cell) : notna x = true -> cell_eqb x x = true.
Proof.
  destruct x as [|t|z]; simpl; intros H; try discriminate.
  - apply pystr_eqb_refl.
  - apply Z.eqb_refl.
Qed.

Lemma unique_In (x : cell) (l : list cell) : In x (unique l) -> In x l.
Proof.
  induction l as [|a l IH]; simpl; [auto|].
  intros [->|H]; [now left|]. apply filter_In in H. right. tauto.
Qed.

Lemma unique_NoDup (l : list cell) :
  Forall (fun x => notna x = true) l -> NoDup (unique l).
Proof.
  induction l as [|a l IH]; intros H; simpl; [constructor|].
  inversion H as [|? ? Ha Hl]; subst. constructor.
  - intros Hin. apply filter_In in Hin. destruct Hin as [_ Hne].
    rewrite (cell_eqb_refl a Ha) in Hne. discriminate.
  - apply NoDup_filter. now apply IH.
Qed.

Lemma dropna_notna (l : list cell) :
  Forall (fun x => notna x = true) (dropna l).
Proof.
  apply Forall_forall. intros x Hx. apply filter_In in Hx. tauto.
Qed.

Lemma alias_list_shape (l : list cell) :
  NoDup (unique (dropna l)) /\ ~ In NaN (unique (dropna l)).
Proof.
  split; [apply unique_NoDup, dropna_notna|].
  intros H. apply unique_In, filter_In in H. destruct H as [_ H].
  discriminate.
Qed.

Lemma scan_columns_shape (df : DataFrame) (name : str) (cols : list str) :
  forall l, scan_columns df name cols = Ok l ->
            NoDup l /\ ~ In NaN l /\ ~ In (Str name) l.
Proof.
  induction cols as [|col cols IH]; intros l H.
  - simpl in H. inversion H. repeat split; auto. constructor.
  - cbn [scan_columns] in H. apply bind_Ok in H.
    destruct H as (vals & _ & H).
    destruct (contains vals name); [|now apply IH].
    apply bind_Ok in H. destruct H as (r & _ & H). inversion H.
    destruct (alias_list_shape (iloc df r)) as [Hnd Hnan].
    split; [now apply NoDup_filter|]. split.
    + intros Hin. apply filter_In in Hin. tauto.
    + intros Hin. apply filter_In in Hin. destruct Hin as [_ Hne].
      simpl in Hne. rewrite pystr_eqb_refl in Hne. discriminate.
Qed.

(** X6. An alias list never holds a missing value and never holds the same
    entry twice; when the name was found outside column 0 the list does not
    hold the name itself. *)
Theorem alias_list_well_formed (settings_df : DataFrame)
  (campaign_name : str) (l : list cell) :
  find_alternate_campaign_name_with_new_structure settings_df campaign_name
  = Ok l ->
  NoDup l /\ ~ In NaN l /\
  ((forall r, cell_at settings_df r 0 <> Some (Str campaign_name)) ->
   well_formed settings_df -> ~ In (Str campaign_name) l).
Proof.
  unfold find_alternate_campaign_name_with_new_structure. intros H.
  apply bind_Ok in H. destruct H as (camp & Hcamp & H).
  destruct (contains camp campaign_name) eqn:Hin.
  - apply bind_Ok in H. destruct H as (r & _ & H). inversion H.
    destruct (alias_list_shape (skipn 1 (iloc settings_df r))) as [Hnd Hnan].
    repeat split; try assumption.
    intros Hcol0 Hwf. exfalso.
    rewrite (camp_column settings_df Hwf) in Hcamp. inversion Hcamp; subst camp.
    rewrite column_miss in Hin; [discriminate|exact Hwf| |exact Hcol0].
    destruct Hwf as (_ & Hhd & _).
    destruct (columns settings_df); [discriminate|simpl; lia].
  - apply scan_columns_shape in H. tauto.
Qed.

Lemma alias_list_well_formed_witness :
  let l := [Str (py "Camp Y"); Str (py "")] in
  NoDup l /\ ~ In NaN l /\
  ((forall r, cell_at settings_two_columns r 0 <> Some (Str (py "North"))) ->
   well_formed settings_two_columns -> ~ In (Str (py "North")) l).
Proof.
  apply (alias_list_well_formed settings_two_columns (py "North")).
  reflexivity.
Defined.

Lemma find_index_None {A : Type} (p : A -> bool) (l : list A) :
  (forall x, In x l -> p x = false) -> find_index p l = None.
Proof.
  induction l as [|a l IH]; intros H; [reflexivity|].
  simpl. rewrite (H a) by now left.
  rewrite IH; [reflexivity|]. intros x Hx. apply H. now right.
Qed.

(** X7. Without a column named [Camp] (in particular on the frame of a
    settings sheet that has no records) the resolver raises [KeyError],
    whatever the name. *)
Theorem alias_resolver_needs_camp_column (settings_df : DataFrame)
  (campaign_name : str) :
  ~ In (py "Camp") (columns settings_df) ->
  find_alternate_campaign_name_with_new_structure settings_df campaign_name
  = Raise KeyError.
Proof.
  intros H. unfold find_alternate_campaign_name_with_new_structure,
    column_values.
  rewrite find_index_None; [reflexivity|].
  intros x Hx. apply pystr_eqb_neq. intros <-. contradiction.
Qed.

Lemma alias_resolver_needs_camp_column_witness :
  find_alternate_campaign_name_with_new_structure settings_empty (py "Camp A")
  = Raise KeyError.
Proof.
  apply alias_resolver_needs_camp_column. simpl. tauto.
Defined.

Lemma skipn_nth_error_cons {A : Type} (l : list A) :
  forall (k : nat) (x : A) (rest : list A),
    skipn k l = x :: rest ->
    nth_error l k = Some x /\ skipn (S k) l = rest.
Proof.
  induction l as [|a l IH]; intros k x rest H.
  - destruct k; discriminate.
  - destruct k as [|k]; simpl in *.
    + inversion H. auto.
    + now apply IH.
Qed.

Lemma scan_columns_absent (df : DataFrame) (name : str) :
  well_formed df ->
  (forall r c, cell_at df r c <> Some (Str name)) ->
  forall (cols : list str) (k : nat),
    skipn k (columns df) = cols -> scan_columns df name cols = Ok [].
Proof.
  intros Hwf Habs. induction cols as [|col cols IH]; intros k Hk.
  - reflexivity.
  - apply skipn_nth_error_cons in Hk. destruct Hk as [Hcol Hrest].
    cbn [scan_columns]. rewrite (named_column df Hwf k col Hcol). cbn [bind].
    rewrite column_miss; [now apply (IH (S k))|exact Hwf| |].
    + apply nth_error_Some. congruence.
    + intros r. apply Habs.
Qed.

(** X8. A name that stands nowhere in a well-formed settings table has no
    alternates: the answer is the empty list. *)
Theorem alias_resolver_absent_name (settings_df : DataFrame)
  (campaign_name : str) :
  well_formed settings_df ->
  (forall r c, cell_at settings_df r c <> Some (Str campaign_name)) ->
  find_alternate_campaign_name_with_new_structure settings_df campaign_name
  = Ok [].
Proof.
  intros Hwf Habs. unfold find_alternate_campaign_name_with_new_structure.
  rewrite (camp_column settings_df Hwf). cbn [bind].
  rewrite column_miss; [|exact Hwf| |intros r; apply Habs].
  - apply (scan_columns_absent settings_df campaign_name Hwf Habs _ 1%nat).
    destruct (columns settings_df); reflexivity.
  - destruct Hwf as (_ & Hhd & _).
    destruct (columns settings_df); [discriminate|simpl; lia].
Qed.

Lemma alias_resolver_absent_name_witness :
  find_alternate_campaign_name_with_new_structure
    settings_two_columns (py "South") = Ok [].
Proof.
  apply alias_resolver_absent_name.
  - exact settings_two_columns_wf.
  - intros [|[|[|r]]] [|[|[|[|c]]]]; cbv; discriminate.
Defined.

Lemma find_index_Some {A : Type} (p : A -> bool) (l : list A) :
  existsb p l = true ->
  exists n x, find_index p l = Some n /\ nth_error l n = Some x /\ p x = true.
Proof.
  induction l as [|a l IH]; simpl; [discriminate|].
  destruct (p a) eqn:E.
  - intros _. exists O, a. auto.
  - simpl. intros H. destruct (IH H) as (n & x & Hn & Hx & Hp).
    exists (S n), x. rewrite Hn. auto.
Qed.

(** The row selected in a column that holds the name: it exists and the
    name stands on it. *)
Lemma selected_row (df : DataFrame) (name : str) (c : nat) :
  let vals := map (fun row => nth c row NaN) (rows df) in
  contains vals name = true ->
  exists r row,
    first_row vals name = Ok r /\ nth_error (rows df) r = Some row /\
    iloc df r = row /\ In (Str name) row.
Proof.
  intros vals H. apply find_index_Some in H.
  destruct H as (r & x & Hr & Hx & Hp). apply cell_eqb_Str in Hp. subst x.
  unfold vals in Hx. rewrite nth_error_map in Hx.
  destruct (nth_error (rows df) r) as [row|] eqn:Hrow; [|discriminate].
  simpl in Hx. inversion Hx as [Hcell].
  exists r, row. unfold first_row. fold vals. rewrite Hr.
  repeat split; try reflexivity; try assumption.
  - unfold iloc. now apply nth_error_nth.
  - destruct (nth_in_or_default c row NaN) as [Hin|Hd].
    + exact Hin.
    + rewrite Hcell in Hd. discriminate.
Qed.

Lemma scan_columns_source (df : DataFrame) (name : str) :
  well_formed df ->
  forall (cols : list str) (k : nat),
    skipn k (columns df) = cols ->
    exists l,
      scan_columns df name cols = Ok l /\
      forall x, In x l ->
        exists r row,
          nth_error (rows df) r = Some row /\ In x row /\ In (Str name) row.
Proof.
  intros Hwf. induction cols as [|col cols IH]; intros k Hk.
  - exists []. split; [reflexivity|]. intros x [].
  - apply skipn_nth_error_cons in Hk. destruct Hk as [Hcol Hrest].
    cbn [scan_columns]. rewrite (named_column df Hwf k col Hcol). cbn [bind].
    destruct (contains _ name) eqn:Hin; [|now apply (IH (S k))].
    destruct (selected_row df name k Hin) as (r & row & -> & Hrow & Hil & Hname).
    cbn [bind]. eexists. split; [reflexivity|].
    intros x Hx. apply filter_In in Hx. destruct Hx as [Hx _].
    apply unique_In, filter_In in Hx. rewrite Hil in Hx.
    exists r, row. tauto.
Qed.

Lemma find_alternate_source (settings_df : DataFrame)
  (campaign_name : str) :
  well_formed settings_df ->
  exists l,
    find_alternate_campaign_name_with_new_structure settings_df campaign_name
    = Ok l /\
    forall x, In x l ->
      exists r row,
        nth_error (rows settings_df) r = Some row /\
        In x row /\ In (Str campaign_name) row.
Proof.
  intros Hwf. unfold find_alternate_campaign_name_with_new_structure.
  rewrite (camp_column settings_df Hwf). cbn [bind].
  destruct (contains _ campaign_name) eqn:Hin.
  - destruct (selected_row settings_df campaign_name 0 Hin)
      as (r & row & -> & Hrow & Hil & Hname).
    cbn [bind]. eexists. split; [reflexivity|].
    intros x Hx. apply unique_In, filter_In in Hx. destruct Hx as [Hx _].
    rewrite Hil in Hx. exists r, row. split; [exact Hrow|].
    split; [|exact Hname].
    destruct row as [|a row]; [contradiction|]. now right.
  - apply (scan_columns_source settings_df campaign_name Hwf _ 1%nat).
    destruct (columns settings_df); reflexivity.
Qed.

(** X9. On a well-formed settings table the resolver always answers, and
    every alternate it returns stands on a row of the table on which the
    campaign name stands too. *)
Theorem alias_resolver_answers_from_one_row (settings_df : DataFrame)
  (campaign_name : str) :
  well_formed settings_df ->
  exists l,
    find_alternate_campaign_name_with_new_structure settings_df campaign_name
    = Ok l /\
    forall x, In x l ->
      exists r row,
        nth_error (rows settings_df) r = Some row /\
        In x row /\ In (Str campaign_name) row.
Proof.
  exact (find_alternate_source settings_df campaign_name).
Qed.

Lemma alias_resolver_answers_from_one_row_witness :
  exists l,
    find_alternate_campaign_name_with_new_structure
      settings_shared_alias (py "Camp X") = Ok l /\
    forall x, In x l ->
      exists r row,
        nth_error (rows settings_shared_alias) r = Some row /\
        In x row /\ In (Str (py "Camp X")) row.
Proof.
  apply alias_resolver_answers_from_one_row.
  exact settings_shared_alias_wf.
Defined.

(** ** Aggregators: order of the rows, empty summaries *)

Lemma ltb_irrefl (a : str) : PyStr.ltb a a = false.
Proof.
  induction a as [|x a IH]; simpl; [reflexivity|].
  rewrite N.ltb_irrefl, N.eqb_refl, IH. reflexivity.
Qed.

Lemma ltb_trans (a : str) :
  forall b c, PyStr.ltb a b = true -> PyStr.ltb b c = true ->
              PyStr.ltb a c = true.
Proof.
  induction a as [|x a IH]; intros [|y b] [|z c] Hab Hbc; simpl in *;
    try discriminate; try reflexivity.
  apply orb_true_iff in Hab, Hbc. apply orb_true_iff.
  destruct Hab as [Hab|Hab], Hbc as [Hbc|Hbc];
    rewrite ?andb_true_iff, ?N.ltb_lt, ?N.eqb_eq in *.
  - left. lia.
  - left. destruct Hbc as [-> _]. exact Hab.
  - left. destruct Hab as [-> _]. exact Hbc.
  - right. destruct Hab as [-> Hab], Hbc as [-> Hbc].
    split; [reflexivity|]. now apply (IH b c).
Qed.

Lemma ltb_total (a : str) :
  forall b, PyStr.ltb a b = false -> a <> b -> PyStr.ltb b a = true.
Proof.
  induction a as [|x a IH]; intros [|y b] Hab Hne; simpl in *;
    try congruence.
  apply orb_false_iff in Hab. destruct Hab as [Hlt Hrest].
  apply N.ltb_ge in Hlt. apply orb_true_iff.
  destruct (N.eq_dec x y) as [->|Hxy].
  - right. rewrite N.eqb_refl in *. simpl in *.
    apply IH; [exact Hrest|congruence].
  - left. apply N.ltb_lt. lia.
Qed.

Lemma insert_key_In (k x : str) (l : list str) :
  In x (insert_key k l) <-> x = k \/ In x l.
Proof.
  split.
  - intros H. apply (Permutation_in _ (insert_key_perm k l)) in H.
    destruct H; auto.
  - intros H. apply (Permutation_in _ (Permutation_sym (insert_key_perm k l))).
    destruct H; [left|right]; auto.
Qed.

Lemma insert_key_sorted (k : str) (l : list str) :
  StronglySorted key_lt l -> ~ In k l ->
  StronglySorted key_lt (insert_key k l).
Proof.
  induction l as [|x l IH]; intros Hs Hk; simpl.
  - repeat constructor.
  - inversion Hs as [|? ? Hl Hx]; subst.
    destruct (PyStr.ltb x k) eqn:E.
    + constructor.
      * apply IH; [exact Hl|]. intros H. apply Hk. now right.
      * apply Forall_forall. intros y Hy. apply insert_key_In in Hy.
        destruct Hy as [->|Hy]; [exact E|].
        rewrite Forall_forall in Hx. now apply Hx.
    + assert (Hkx : key_lt k x).
      { apply ltb_total; [exact E|]. intros ->. apply Hk. now left. }
      constructor; [exact Hs|]. constructor; [exact Hkx|].
      apply Forall_forall. intros y Hy. rewrite Forall_forall in Hx.
      exact (ltb_trans _ _ _ Hkx (Hx y Hy)).
Qed.

Lemma sort_keys_sorted (l : list str) :
  NoDup l -> StronglySorted key_lt (sort_keys l).
Proof.
  induction l as [|k l IH]; intros H; simpl; [constructor|].
  inversion H as [|? ? Hk Hl]; subst.
  apply insert_key_sorted; [now apply IH|].
  intros Hin. apply Hk. exact (Permutation_in _ (sort_keys_perm l) Hin).
Qed.

Lemma group_keys_sorted (keys : list str) :
  StronglySorted key_lt (group_keys keys).
Proof.
  apply sort_keys_sorted, NoDup_nodup.
Qed.

(** X10. The summary rows come in increasing order of campaign name
    (code point order), in CTC mode and in Log mode: this is the order in
    which the campaigns are then written to the sheet. *)
Theorem summaries_sorted_by_camp :
  (forall file,
     StronglySorted key_lt (map CtcSummary.Camp (load_and_process_csv file))) /\
  (forall file summary,
     process_campaign_data_by_name file = Ok summary ->
     StronglySorted key_lt (map LogSummary.Camp summary)).
Proof.
  split.
  - intros file. rewrite load_and_process_csv_camps. apply group_keys_sorted.
  - intros file summary H.
    destruct (process_campaign_data_by_name_camps file summary H) as (k & ->).
    apply group_keys_sorted.
Qed.

(** X11. The CTC summary is empty exactly when no report row has a
    campaign (an empty report included). *)
Theorem load_and_process_csv_empty (file : list CtcReport.row) :
  load_and_process_csv file = [] <->
  Forall (fun r => CtcReport.Campaign r = None) file.
Proof.
  split.
  - intros H. apply Forall_forall. intros r Hr.
    destruct (CtcReport.Campaign r) as [camp|] eqn:E; [|reflexivity].
    assert (Hin : In camp (map CtcSummary.Camp (load_and_process_csv file)))
      by (apply In_campaigns; eauto).
    rewrite H in Hin. contradiction.
  - intros H.
    destruct (load_and_process_csv file) as [|row summary] eqn:E;
      [reflexivity|].
    assert (Hin : In (CtcSummary.Camp row)
                     (map CtcSummary.Camp (load_and_process_csv file)))
      by (rewrite E; now left).
    apply In_campaigns in Hin. destruct Hin as (r & Hr & Hcamp).
    rewrite Forall_forall in H. rewrite (H r Hr) in Hcamp. discriminate.
Qed.

(** ** Aggregators: uniqueness of the sorted keys *)

Lemma sorted_keys_unique (l1 : list str) :
  forall l2,
    StronglySorted key_lt l1 -> StronglySorted key_lt l2 ->
    (forall x, In x l1 <-> In x l2) -> l1 = l2.
Proof.
  induction l1 as [|a l1 IH]; intros [|b l2] H1 H2 Hin.
  - reflexivity.
  - destruct (proj2 (Hin b)); now left.
  - destruct (proj1 (Hin a)); now left.
  - inversion H1 as [|? ? Hs1 Ha]; inversion H2 as [|? ? Hs2 Hb]; subst.
    rewrite Forall_forall in Ha, Hb.
    assert (Hab : a = b).
    { destruct (proj1 (Hin a) (or_introl eq_refl)) as [Hba|Hba]; [auto|].
      destruct (proj2 (Hin b) (or_introl eq_refl)) as [Hab|Hab]; [auto|].
      pose proof (ltb_trans _ _ _ (Ha b Hab) (Hb a Hba)) as Hcyc.
      rewrite ltb_irrefl in Hcyc. discriminate. }
    subst b. f_equal. apply IH; try assumption.
    intros x. split; intros Hx.
    + destruct (proj1 (Hin x) (or_intror Hx)) as [<-|H]; [|exact H].
      pose proof (Ha a Hx) as Hcyc. unfold key_lt in Hcyc.
      rewrite ltb_irrefl in Hcyc. discriminate.
    + destruct (proj2 (Hin x) (or_intror Hx)) as [<-|H]; [|exact H].
      pose proof (Hb a Hx) as Hcyc. unfold key_lt in Hcyc.
      rewrite ltb_irrefl in Hcyc. discriminate.
Qed.

Lemma group_keys_perm (k1 k2 : list str) :
  Permutation k1 k2 -> group_keys k1 = group_keys k2.
Proof.
  intros H. apply sorted_keys_unique; try apply group_keys_sorted.
  intros x. rewrite !group_keys_In.
  split; apply Permutation_in; [exact H|now apply Permutation_sym].
Qed.

Lemma filter_perm {A : Type} (p : A -> bool) (l l' : list A) :
  Permutation l l' -> Permutation (filter p l) (filter p l').
Proof.
  induction 1 as [|x l l' _ IH|x y l|l l' l'' _ IH1 _ IH2]; simpl.
  - constructor.
  - destruct (p x); [now constructor|exact IH].
  - destruct (p x), (p y); try apply Permutation_refl. apply perm_swap.
  - now apply perm_trans with (filter p l').
Qed.

Lemma present_perm {A : Type} (l l' : list (option A)) :
  Permutation l l' -> Permutation (present l) (present l').
Proof.
  induction 1 as [|x l l' _ IH|x y l|l l' l'' _ IH1 _ IH2]; simpl.
  - constructor.
  - destruct x; [now constructor|exact IH].
  - destruct x, y; try apply Permutation_refl. apply perm_swap.
  - now apply perm_trans with (present l').
Qed.

(** ** Aggregators: the groups partition the rows kept *)

Lemma filter_split_perm {A : Type} (p : A -> bool) (l : list A) :
  Permutation (filter p l ++ filter (fun x => negb (p x)) l) l.
Proof.
  induction l as [|a l IH]; simpl; [constructor|].
  destruct (p a); simpl.
  - now constructor.
  - apply Permutation_sym, Permutation_cons_app, Permutation_sym, IH.
Qed.

Lemma flat_map_ext_in {A B : Type} (f g : A -> list B) (l : list A) :
  (forall a, In a l -> f a = g a) -> flat_map f l = flat_map g l.
Proof.
  induction l as [|a l IH]; intros H; simpl; [reflexivity|].
  rewrite (H a) by now left. rewrite IH; [reflexivity|].
  intros b Hb. apply H. now right.
Qed.

Section Partition.

Variable A : Type.
Variable key : A -> option str.

Let group (k : str) (l : list A) : list A :=
  filter (fun x => is_key k (key x)) l.

Lemma groups_partition (K : list str) :
  forall l : list A,
    NoDup K ->
    (forall x, In x l -> exists k, In k K /\ key x = Some k) ->
    Permutation (flat_map (fun k => group k l) K) l.
Proof.
  induction K as [|k K IH]; intros l Hnd Hkeys.
  - destruct l as [|x l]; [constructor|].
    destruct (Hkeys x (or_introl eq_refl)) as (k & [] & _).
  - inversion Hnd as [|? ? Hk HK]; subst. simpl.
    set (rest := filter (fun x => negb (is_key k (key x))) l).
    assert (Hrest : flat_map (fun k' => group k' l) K =
                    flat_map (fun k' => group k' rest) K).
    { apply flat_map_ext_in. intros k' Hk'. unfold group, rest.
      rewrite filter_filter. apply filter_ext. intros x.
      destruct (is_key k' (key x)) eqn:E; [|reflexivity].
      apply is_key_Some in E. rewrite E. simpl.
      destruct (PyStr.eqb k' k) eqn:E'; [|reflexivity].
      apply pystr_eqb_eq in E'. subst k'. contradiction. }
    rewrite Hrest.
    eapply perm_trans; [|apply (filter_split_perm
                                  (fun x => is_key k (key x)) l)].
    apply Permutation_app_head. apply IH; [exact HK|].
    intros x Hx. apply filter_In in Hx. destruct Hx as [Hx Hne].
    destruct (Hkeys x Hx) as (k0 & [<-|Hk0] & Hkey); [|eauto].
    rewrite Hkey in Hne. simpl in Hne. rewrite pystr_eqb_refl in Hne.
    discriminate.
Qed.

(** The groups of [groupby] taken together are the rows, each once. *)
Lemma group_keys_partition (l : list A) :
  (forall x, In x l -> isSome (key x) = true) ->
  Permutation
    (flat_map (fun k => group k l) (group_keys (present (map key l)))) l.
Proof.
  intros Hsome. apply groups_partition; [apply group_keys_NoDup|].
  intros x Hx. specialize (Hsome x Hx).
  destruct (key x) as [k|] eqn:E; [|discriminate].
  exists k. split; [|reflexivity].
  apply group_keys_In, In_present. eauto.
Qed.

End Partition.

Lemma Zsum_app (l1 l2 : list Z) : Zsum (l1 ++ l2) = Zsum l1 + Zsum l2.
Proof.
  induction l1 as [|a l1 IH]; simpl; [reflexivity|]. rewrite IH. lia.
Qed.

Lemma Zsum_perm (l l' : list Z) : Permutation l l' -> Zsum l = Zsum l'.
Proof.
  induction 1 as [|x l l' _ IH|x y l|l l' l'' _ IH1 _ IH2]; simpl; lia.
Qed.

Lemma Zsum_flat_map {A B : Type} (f : B -> Z) (g : A -> list B) (K : list A) :
  Zsum (map (fun k => Zsum (map f (g k))) K) = Zsum (map f (flat_map g K)).
Proof.
  induction K as [|k K IH]; simpl; [reflexivity|].
  rewrite map_app, Zsum_app, IH. reflexivity.
Qed.

Lemma len_flat_map {A B : Type} (g : A -> list B) (K : list A) :
  Zsum (map (fun k => len (g k)) K) = len (flat_map g K).
Proof.
  induction K as [|k K IH]; simpl; [reflexivity|].
  rewrite IH. unfold len. rewrite length_app. lia.
Qed.

(** *** Sums in 64 bits *)

Lemma wrap64_mod (z : Z) : wrap64 z mod 2 ^ 64 = z mod 2 ^ 64.
Proof.
  unfold wrap64.
  rewrite <- (Zminus_mod_idemp_l ((z + 2 ^ 63) mod 2 ^ 64)).
  rewrite Z.mod_mod by lia. rewrite Zminus_mod_idemp_l.
  f_equal. lia.
Qed.

Lemma wrap64_congr (a b : Z) :
  a mod 2 ^ 64 = b mod 2 ^ 64 -> wrap64 a = wrap64 b.
Proof.
  intros H. unfold wrap64.
  rewrite <- (Zplus_mod_idemp_l a), <- (Zplus_mod_idemp_l b), H.
  reflexivity.
Qed.

Lemma wrap64_range (z : Z) : in_int64 (wrap64 z) = true.
Proof.
  unfold in_int64, wrap64.
  pose proof (Z.mod_pos_bound (z + 2 ^ 63) (2 ^ 64) ltac:(lia)) as H.
  apply andb_true_iff. split; [apply Z.leb_le|apply Z.ltb_lt]; lia.
Qed.

(** Adding up sums taken in 64 bits, in 64 bits, is adding up the
    values. *)
Lemma Zsum_wrap64 {A : Type} (g : A -> Z) (K : list A) :
  wrap64 (Zsum (map (fun k => wrap64 (g k)) K)) = wrap64 (Zsum (map g K)).
Proof.
  apply wrap64_congr. induction K as [|k K IH]; [reflexivity|].
  cbn [map Zsum fold_right]. fold (Zsum (map (fun k => wrap64 (g k)) K)).
  fold (Zsum (map g K)).
  rewrite Zplus_mod, IH, wrap64_mod, <- Zplus_mod. reflexivity.
Qed.

Lemma ints_app (l1 l2 : list num) : ints (l1 ++ l2) = ints l1 ++ ints l2.
Proof.
  unfold ints. apply flat_map_app.
Qed.

Lemma ints_perm (l l' : list num) :
  Permutation l l' -> Permutation (ints l) (ints l').
Proof.
  induction 1 as [|x l l' _ IH|x y l|l l' l'' _ IH1 _ IH2].
  - constructor.
  - destruct x; simpl; [now constructor|exact IH].
  - destruct x, y; simpl; try apply Permutation_refl. apply perm_swap.
  - now apply perm_trans with (ints l').
Qed.

Lemma is_int64_perm (l l' : list num) :
  Permutation l l' -> is_int64 l = is_int64 l'.
Proof.
  unfold is_int64.
  induction 1 as [|x l l' _ IH|x y l|l l' l'' _ IH1 _ IH2]; simpl.
  - reflexivity.
  - now rewrite IH.
  - destruct (is_int x), (is_int y); reflexivity.
  - congruence.
Qed.

Lemma nansum_int64_perm (l l' : list num) :
  Permutation l l' -> nansum true l = nansum true l'.
Proof.
  intros H. unfold nansum. do 2 f_equal. now apply Zsum_perm, ints_perm.
Qed.

Lemma int64_sums_perm (f : CtcReport.row -> num)
  (file file' : list CtcReport.row) (keys : list str) :
  Permutation file file' ->
  is_int64 (map f file) = true ->
  map (fun camp => nansum (is_int64 (map f file))
                          (map f (rows_of camp file))) keys =
  map (fun camp => nansum (is_int64 (map f file'))
                          (map f (rows_of camp file'))) keys.
Proof.
  intros H Hint. apply map_ext. intros camp.
  rewrite <- (is_int64_perm _ _ (Permutation_map f H)), Hint.
  apply nansum_int64_perm, Permutation_map, filter_perm, H.
Qed.

(** X12. For a report whose integers are within 64 bits, the campaigns of
    the CTC summary and their order do not depend on the order of the
    report rows, nor do the sums of a column read as integers (a column
    of floats is added up in the order of the rows). *)
Theorem load_and_process_csv_order_independent
  (file file' : list CtcReport.row) :
  int64_report file ->
  Permutation file file' ->
  map CtcSummary.Camp (load_and_process_csv file) =
  map CtcSummary.Camp (load_and_process_csv file') /\
  (is_int64 (map CtcReport.Calls file) = true ->
   map CtcSummary.Calls (load_and_process_csv file) =
   map CtcSummary.Calls (load_and_process_csv file')) /\
  (is_int64 (map CtcReport.Connects file) = true ->
   map CtcSummary.Connects (load_and_process_csv file) =
   map CtcSummary.Connects (load_and_process_csv file')) /\
  (is_int64 (map CtcReport.Abandoned file) = true ->
   map CtcSummary.Abandoned (load_and_process_csv file) =
   map CtcSummary.Abandoned (load_and_process_csv file')).
Proof.
  intros _ H.
  assert (Hkeys :
    group_keys (present (map CtcReport.Campaign
      (filter (fun r => isSome (CtcReport.Campaign r)) file))) =
    group_keys (present (map CtcReport.Campaign
      (filter (fun r => isSome (CtcReport.Campaign r)) file')))).
  { apply group_keys_perm, present_perm, Permutation_map, filter_perm, H. }
  split; [now rewrite !load_and_process_csv_camps|].
  rewrite !load_and_process_csv_rows, !map_map, <- Hkeys.
  cbn [CtcSummary.Calls CtcSummary.Connects CtcSummary.Abandoned].
  repeat split; intros Hint; now apply int64_sums_perm.
Qed.

Lemma load_and_process_csv_order_independent_witness :
  map CtcSummary.Camp
      (load_and_process_csv [camp_a_first; camp_b_row; camp_a_many_calls]) =
  map CtcSummary.Camp
      (load_and_process_csv [camp_b_row; camp_a_many_calls; camp_a_first]) /\
  map CtcSummary.Calls
      (load_and_process_csv [camp_a_first; camp_b_row; camp_a_many_calls]) =
  map CtcSummary.Calls
      (load_and_process_csv [camp_b_row; camp_a_many_calls; camp_a_first]) /\
  map CtcSummary.Connects
      (load_and_process_csv [camp_a_first; camp_b_row; camp_a_many_calls]) =
  map CtcSummary.Connects
      (load_and_process_csv [camp_b_row; camp_a_many_calls; camp_a_first]) /\
  map CtcSummary.Abandoned
      (load_and_process_csv [camp_a_first; camp_b_row; camp_a_many_calls]) =
  map CtcSummary.Abandoned
      (load_and_process_csv [camp_b_row; camp_a_many_calls; camp_a_first]).
Proof.
  destruct (load_and_process_csv_order_independent
              [camp_a_first; camp_b_row; camp_a_many_calls]
              [camp_b_row; camp_a_many_calls; camp_a_first])
    as (Hcamps & Hcalls & Hconnects & Habandoned).
  - repeat constructor.
  - apply (Permutation_cons_app [_; _] []). apply Permutation_refl.
  - split; [exact Hcamps|]. split; [apply Hcalls; reflexivity|].
    split; [apply Hconnects; reflexivity|apply Habandoned; reflexivity].
Defined.

Lemma ints_flat_map {A : Type} (f : A -> num) (g : str -> list A)
  (K : list str) :
  Zsum (map (fun k => Zsum (ints (map f (g k)))) K) =
  Zsum (ints (map f (flat_map g K))).
Proof.
  induction K as [|k K IH]; simpl; [reflexivity|].
  rewrite map_app, ints_app, Zsum_app, IH. reflexivity.
Qed.

Lemma ctc_total (f : CtcReport.row -> num) (file : list CtcReport.row) :
  wrap64 (Zsum (ints (map (fun camp =>
                             nansum true
                               (map f (filter (fun r =>
                                  is_key camp (CtcReport.Campaign r))
                                  (with_campaign file))))
                          (group_keys (present (map CtcReport.Campaign
                                          (with_campaign file)))))))
  = wrap64 (Zsum (ints (map f (with_campaign file)))).
Proof.
  unfold nansum.
  rewrite <- (map_map (fun camp => wrap64 (Zsum (ints (map f (filter (fun r =>
               is_key camp (CtcReport.Campaign r)) (with_campaign file))))))
              Int), ints_Int.
  rewrite (Zsum_wrap64 (fun camp => Zsum (ints (map f (filter (fun r =>
               is_key camp (CtcReport.Campaign r)) (with_campaign file)))))).
  rewrite (ints_flat_map f
             (fun camp => filter (fun r => is_key camp (CtcReport.Campaign r))
                                 (with_campaign file))).
  f_equal. apply Zsum_perm, ints_perm, Permutation_map.
  apply (group_keys_partition CtcReport.row CtcReport.Campaign).
  intros x Hx. apply filter_In in Hx. tauto.
Qed.

(** X13. For a report whose integers are within 64 bits, CTC aggregation
    preserves the totals of the columns read as integers, in the
    arithmetic of these columns: over the whole summary the Calls,
    Connects and Abandoned values add up, in 64 bits, to the
    totals of the report rows that have a campaign (every such row is
    counted in exactly one campaign). *)
Theorem ctc_totals_preserved (file : list CtcReport.row) :
  int64_report file ->
  let summary := load_and_process_csv file in
  let kept := with_campaign file in
  (is_int64 (map CtcReport.Calls file) = true ->
   wrap64 (Zsum (ints (map CtcSummary.Calls summary))) =
   wrap64 (Zsum (ints (map CtcReport.Calls kept)))) /\
  (is_int64 (map CtcReport.Connects file) = true ->
   wrap64 (Zsum (ints (map CtcSummary.Connects summary))) =
   wrap64 (Zsum (ints (map CtcReport.Connects kept)))) /\
  (is_int64 (map CtcReport.Abandoned file) = true ->
   wrap64 (Zsum (ints (map CtcSummary.Abandoned summary))) =
   wrap64 (Zsum (ints (map CtcReport.Abandoned kept)))).
Proof.
  intros _. cbv zeta. unfold load_and_process_csv. fold (with_campaign file).
  rewrite !map_map.
  cbn [CtcSummary.Calls CtcSummary.Connects CtcSummary.Abandoned].
  repeat split; intros ->; apply ctc_total.
Qed.

Lemma ctc_totals_preserved_witness :
  wrap64 (Zsum (ints (map CtcSummary.Calls
     (load_and_process_csv
        [camp_a_many_calls; camp_b_row; row_without_campaign;
         camp_a_many_calls])))) = - 2 ^ 63 + 4 /\
  wrap64 (Zsum (ints (map CtcReport.Calls
     (with_campaign
        [camp_a_many_calls; camp_b_row; row_without_campaign;
         camp_a_many_calls])))) = - 2 ^ 63 + 4 /\
  wrap64 (Zsum (ints (map CtcSummary.Connects
     (load_and_process_csv
        [camp_a_many_calls; camp_b_row; row_without_campaign;
         camp_a_many_calls])))) =
  wrap64 (Zsum (ints (map CtcReport.Connects
     (with_campaign
        [camp_a_many_calls; camp_b_row; row_without_campaign;
         camp_a_many_calls])))).
Proof.
  destruct (ctc_totals_preserved
              [camp_a_many_calls; camp_b_row; row_without_campaign;
               camp_a_many_calls]) as (Hcalls & Hconnects & _);
    [repeat constructor|].
  split; [reflexivity|]. split; [|apply Hconnects; reflexivity].
  rewrite <- Hcalls; reflexivity.
Defined.

Lemma map_snd_combine {A B : Type} (l1 : list A) :
  forall l2 : list B,
    length l1 = length l2 -> map snd (combine l1 l2) = l2.
Proof.
  induction l1 as [|a l1 IH]; intros [|b l2] H; simpl in *;
    try discriminate; [reflexivity|].
  rewrite IH; [reflexivity|lia].
Qed.

(** X14. For a log whose numeric lengths are within 64 bits, Log
    aggregation preserves the totals: the Logged Calls of the summary
    add up to the number of log rows that have a campaign and a
    recording length, and the summed seconds add up, in 64 bits, to the
    total of their coerced lengths; every campaign summarised has at least
    one call, and its Dial Time is the formatting of its summed seconds. *)
Theorem log_totals_preserved (file : list LogReport.row)
  (summary : list LogSummary.row) :
  int64_log file ->
  process_campaign_data_by_name file = Ok summary ->
  Zsum (map LogSummary.Logged_Calls summary) = len (complete_calls file) /\
  (exists lengths,
     mapM (astype_int (dtype_of (map LogReport.Recording_Length file)))
          (map LogReport.Recording_Length (complete_calls file))
     = Ok lengths /\
     wrap64 (Zsum (map LogSummary.Recording_Length_Seconds summary)) =
     wrap64 (Zsum lengths)) /\
  (forall row, In row summary ->
     1 <= LogSummary.Logged_Calls row /\
     in_int64 (LogSummary.Recording_Length_Seconds row) = true /\
     LogSummary.Dial_Time row =
     seconds_to_hms (LogSummary.Recording_Length_Seconds row)).
Proof.
  intros _. unfold process_campaign_data_by_name. fold (complete_calls file).
  intros H. apply bind_Ok in H. destruct H as (lengths & Hlengths & H).
  inversion H as [Hsummary]. clear H.
  set (df := combine (map LogReport.Current_campaign (complete_calls file))
                     lengths).
  assert (Hlen : length (map LogReport.Current_campaign (complete_calls file))
                 = length lengths).
  { rewrite (mapM_length _ _ _ Hlengths), !length_map. reflexivity. }
  assert (Hsome : forall x, In x df -> isSome (fst x) = true).
  { intros [k z] Hx. apply in_combine_l in Hx. apply in_map_iff in Hx.
    destruct Hx as (r & <- & Hr). apply filter_In in Hr.
    destruct Hr as [_ Hr]. apply andb_true_iff in Hr. tauto. }
  pose proof (group_keys_partition _ fst df Hsome) as Hpart.
  split; [|split].
  - rewrite map_map. cbn [LogSummary.Logged_Calls].
    rewrite (len_flat_map (fun camp => filter (fun r => is_key camp (fst r)) df)).
    unfold len. rewrite (Permutation_length Hpart). unfold df.
    rewrite length_combine, <- Hlen, Nat.min_id, length_map. reflexivity.
  - exists lengths. split; [exact Hlengths|].
    rewrite map_map. cbn [LogSummary.Recording_Length_Seconds].
    rewrite (Zsum_wrap64 (fun camp =>
               Zsum (map snd (filter (fun r => is_key camp (fst r)) df)))).
    rewrite (Zsum_flat_map snd
               (fun camp => filter (fun r => is_key camp (fst r)) df)).
    rewrite (Zsum_perm _ _ (Permutation_map snd Hpart)). unfold df.
    now rewrite map_snd_combine.
  - intros row Hrow. apply in_map_iff in Hrow.
    destruct Hrow as (camp & <- & Hcamp).
    cbn [LogSummary.Logged_Calls LogSummary.Dial_Time
         LogSummary.Recording_Length_Seconds].
    split; [|split; [apply wrap64_range|reflexivity]].
    apply group_keys_In, In_present in Hcamp.
    destruct Hcamp as (x & Hx & Hkey).
    assert (Hin : In x (filter (fun r => is_key camp (fst r)) df)).
    { apply filter_In. split; [exact Hx|]. now apply is_key_Some. }
    unfold len. destruct (filter _ df); [contradiction|simpl; lia].
Qed.

Lemma log_totals_preserved_witness :
  exists summary,
    process_campaign_data_by_name [long_call; fractional_call; long_call]
    = Ok summary /\
    Zsum (map LogSummary.Logged_Calls summary) =
    len (complete_calls [long_call; fractional_call; long_call]) /\
    (exists lengths,
       mapM (astype_int
               (dtype_of (map LogReport.Recording_Length
                              [long_call; fractional_call; long_call])))
            (map LogReport.Recording_Length
                 (complete_calls [long_call; fractional_call; long_call]))
       = Ok lengths /\
       wrap64 (Zsum (map LogSummary.Recording_Length_Seconds summary)) =
       wrap64 (Zsum lengths)) /\
    (forall row, In row summary ->
       1 <= LogSummary.Logged_Calls row /\
       in_int64 (LogSummary.Recording_Length_Seconds row) = true /\
       LogSummary.Dial_Time row =
       seconds_to_hms (LogSummary.Recording_Length_Seconds row)).
Proof.
  eexists. split; [reflexivity|].
  apply (log_totals_preserved [long_call; fractional_call; long_call]);
    [repeat constructor|reflexivity].
Defined.

(** ** Dial Time: distinct totals, distinct texts *)

Lemma decimal_all_digits (n : N) : all_digits (decimal n).
Proof.
  unfold decimal. apply digits_fuel_all_digits. constructor.
Qed.

Lemma zfill_all_digits (width : nat) (d : str) :
  all_digits d -> all_digits (zfill width d).
Proof.
  intros H. unfold zfill. apply Forall_app. split; [|exact H].
  apply Forall_forall. intros c Hc. apply repeat_spec in Hc. now subst c.
Qed.

Lemma format_02_negative (n : Z) :
  n < 0 ->
  exists d, format_02 n = 45%N :: d /\ all_digits d /\ decimal_value d = - n.
Proof.
  intros Hn. unfold format_02.
  destruct (n <? 0) eqn:E; [|apply Z.ltb_ge in E; lia].
  eexists. split; [reflexivity|]. split.
  - apply zfill_all_digits, decimal_all_digits.
  - rewrite decimal_value_zfill, decimal_value_decimal. lia.
Qed.

Lemma digit_not_colon (t : str) : all_digits t -> ~ In 58%N t.
Proof.
  intros H Hin. unfold all_digits in H. rewrite Forall_forall in H.
  specialize (H _ Hin). discriminate.
Qed.

Lemma format_02_no_colon (n : Z) : ~ In 58%N (format_02 n).
Proof.
  destruct (Z_lt_le_dec n 0) as [Hn|Hn].
  - destruct (format_02_negative n Hn) as (d & -> & Hd & _).
    intros [H|H]; [discriminate|]. now apply digit_not_colon in H.
  - destruct (format_02_nonneg n Hn) as (Hd & _). now apply digit_not_colon.
Qed.

Lemma format_02_injective (a b : Z) : format_02 a = format_02 b -> a = b.
Proof.
  intros H.
  destruct (Z_lt_le_dec a 0) as [Ha|Ha], (Z_lt_le_dec b 0) as [Hb|Hb].
  - destruct (format_02_negative a Ha) as (da & Hfa & _ & Hva).
    destruct (format_02_negative b Hb) as (db & Hfb & _ & Hvb).
    rewrite Hfa, Hfb in H. inversion H; subst db. lia.
  - destruct (format_02_negative a Ha) as (da & Hfa & _).
    destruct (format_02_nonneg b Hb) as (Hd & _).
    rewrite <- H, Hfa in Hd. inversion Hd as [|? ? Hminus _]. discriminate.
  - destruct (format_02_negative b Hb) as (db & Hfb & _).
    destruct (format_02_nonneg a Ha) as (Hd & _).
    rewrite H, Hfb in Hd. inversion Hd as [|? ? Hminus _]. discriminate.
  - destruct (format_02_nonneg a Ha) as (_ & Hva & _).
    destruct (format_02_nonneg b Hb) as (_ & Hvb & _).
    rewrite <- Hva, <- Hvb, H. reflexivity.
Qed.

Lemma split_at_colon (h1 : str) :
  forall (h2 r1 r2 : str),
    ~ In 58%N h1 -> ~ In 58%N h2 ->
    h1 ++ 58%N :: r1 = h2 ++ 58%N :: r2 -> h1 = h2 /\ r1 = r2.
Proof.
  induction h1 as [|c h1 IH]; intros [|c2 h2] r1 r2 H1 H2 H; simpl in H.
  - inversion H. auto.
  - inversion H; subst c2. exfalso. apply H2. now left.
  - inversion H; subst c. exfalso. apply H1. now left.
  - inversion H; subst c2.
    destruct (IH h2 r1 r2) as [-> ->]; auto.
    + intros Hin. apply H1. now right.
    + intros Hin. apply H2. now right.
Qed.

(** X15. The Dial Time text determines the total: two different numbers
    of seconds, of either sign, are never formatted to the same text. *)
Theorem seconds_to_hms_injective (a b : Z) :
  a <> b -> seconds_to_hms a <> seconds_to_hms b.
Proof.
  intros Hne H. apply Hne. unfold seconds_to_hms in H.
  change (py ":") with [58%N] in H. simpl app in H.
  apply split_at_colon in H; try apply format_02_no_colon.
  destruct H as [Hh H].
  apply split_at_colon in H; try apply format_02_no_colon.
  destruct H as [Hm Hs].
  apply format_02_injective in Hh, Hm, Hs.
  Z.div_mod_to_equations. lia.
Qed.

Lemma seconds_to_hms_injective_witness :
  seconds_to_hms 3661 <> seconds_to_hms (-3661).
Proof.
  apply seconds_to_hms_injective. lia.
Defined.

(** ** Update orchestrator: exceptions *)


Lemma io_bind_Ok {A B : Type} (t : list event) (a : A) (k : A -> io B) :
  io_bind (t, Ok a) k = (t ++ fst (k a), snd (k a)).
Proof.
  simpl. destruct (k a). reflexivity.
Qed.



Lemma getitem_short {A : Type} (l : list A) (i : Z) :
  len l <= i -> getitem l i = Raise IndexError.
Proof.
  intros H. unfold getitem, len in *.
  destruct (i <? 0) eqn:E; [apply Z.ltb_lt in E; lia|]. rewrite E.
  destruct (nth_error l (Z.to_nat i)) eqn:Hn; [|reflexivity].
  assert ((Z.to_nat i < length l)%nat) by (apply nth_error_Some; congruence).
  lia.
Qed.

(** X17. On a worksheet with fewer than two rows there is no header row:
    once the report is aggregated the run reports the [IndexError] and
    stops, without any write. *)
Theorem main_without_header_row (req : request) (day_index : Z)
  (data : list (list str)) (settings_df : DataFrame)
  (summary : list summary_row) :
  (length data < 2)%nat ->
  aggregate req = Ok summary ->
  main req day_index data settings_df =
  ([st_write; st_error (An_error_occurred IndexError)], Ok tt).
Proof.
  intros Hlen Hagg. unfold main. rewrite Hagg.
  rewrite (getitem_short data 1) by (unfold len; lia). reflexivity.
Qed.

Lemma main_without_header_row_witness :
  main (CTC [camp_a_first]) 0 [[py "Week 1"]] settings_two_columns =
  ([st_write; st_error (An_error_occurred IndexError)], Ok tt).
Proof.
  apply (main_without_header_row (CTC [camp_a_first]) 0 [[py "Week 1"]]
           settings_two_columns
           (map CtcRow (load_and_process_csv [camp_a_first]))).
  - simpl. lia.
  - reflexivity.
Defined.

(** ** Update orchestrator: alternates, and where the writes go *)

Lemma try_alternates_first (data : list (list str)) (camp_name : str)
  (alt : cell) (after : list cell) (i : Z) :
  locate_row data alt = Ok (Some i) ->
  forall before,
    Forall (fun a => locate_row data a = Ok None) before ->
    try_alternates data camp_name (before ++ alt :: after) =
    ([st_info alt camp_name], Ok (Some i)).
Proof.
  intros Halt. induction before as [|a before IH]; intros H; simpl.
  - rewrite Halt. reflexivity.
  - inversion H as [|? ? Ha Hb]; subst. rewrite Ha. simpl.
    rewrite (IH Hb). reflexivity.
Qed.

Lemma try_alternates_none (data : list (list str)) (camp_name : str)
  (aliases : list cell) :
  Forall (fun a => locate_row data a = Ok None) aliases ->
  try_alternates data camp_name aliases = ([], Ok None).
Proof.
  induction aliases as [|a aliases IH]; intros H; simpl; [reflexivity|].
  inversion H as [|? ? Ha Hb]; subst. rewrite Ha. simpl.
  rewrite (IH Hb). reflexivity.
Qed.

(** X18. When the campaign name matches no sheet row, its alternates are
    tried in the order of the alias list and the first one that matches a
    row gives the destination, announced by one info message; when none
    matches the campaign has no destination. *)
Theorem alternates_tried_in_order (data : list (list str))
  (settings_df : DataFrame) (camp_name : str) (aliases : list cell) :
  locate_row data (Str camp_name) = Ok None ->
  find_alternate_campaign_name_with_new_structure settings_df camp_name
  = Ok aliases ->
  (forall before alt after i,
     aliases = before ++ alt :: after ->
     Forall (fun a => locate_row data a = Ok None) before ->
     locate_row data alt = Ok (Some i) ->
     find_camp_row data settings_df camp_name =
     ([st_info alt camp_name], Ok (Some i))) /\
  (Forall (fun a => locate_row data a = Ok None) aliases ->
   find_camp_row data settings_df camp_name = ([], Ok None)).
Proof.
  intros Hdirect Haliases. unfold find_camp_row.
  rewrite Hdirect, Haliases. unfold lift. rewrite !io_bind_Ok.
  split.
  - intros before alt after i -> Hbefore Halt.
    now rewrite (try_alternates_first data camp_name alt after i Halt before).
  - intros Hnone. now rewrite try_alternates_none.
Qed.

Lemma alternates_tried_in_order_witness :
  (forall before alt after i,
     [Str (py "Camp Y")] = before ++ alt :: after ->
     Forall (fun a => locate_row camp_y_sheet a = Ok None) before ->
     locate_row camp_y_sheet alt = Ok (Some i) ->
     find_camp_row camp_y_sheet settings_shared_alias (py "Camp X") =
     ([st_info alt (py "Camp X")], Ok (Some i))) /\
  (Forall (fun a => locate_row camp_y_sheet a = Ok None)
          [Str (py "Camp Y")] ->
   find_camp_row camp_y_sheet settings_shared_alias (py "Camp X")
   = ([], Ok None)).
Proof.
  apply (alternates_tried_in_order camp_y_sheet settings_shared_alias
           (py "Camp X") [Str (py "Camp Y")]); reflexivity.
Defined.

Lemma locate_row_from_bounds (name : cell) (data : list (list str)) :
  forall (start i : Z),
    locate_row_from start data name = Ok (Some i) ->
    start + 1 <= i <= start + len data.
Proof.
  unfold len. induction data as [|row data IH]; intros start i H.
  - discriminate.
  - cbn [locate_row_from] in H. apply bind_Ok in H.
    destruct H as (c & _ & H).
    destruct (cell_eqb (Str (PyStr.strip c)) name).
    + inversion H. simpl length. lia.
    + apply IH in H. simpl length. lia.
Qed.

Lemma Forall_io_bind {A B : Type} (P : event -> Prop) (m : io A)
  (k : A -> io B) :
  Forall P (fst m) ->
  (forall a, snd m = Ok a -> Forall P (fst (k a))) ->
  Forall P (fst (io_bind m k)).
Proof.
  intros Hm Hk. destruct m as [t [a|e]]; simpl in *; [|exact Hm].
  specialize (Hk a eq_refl). destruct (k a) as [t' r]. simpl in *.
  apply Forall_app. auto.
Qed.

Lemma Forall_try_except (P : event -> Prop) (m : io unit) :
  (forall msg, P (st_error msg)) ->
  Forall P (fst m) -> Forall P (fst (try_except m)).
Proof.
  intros Herr Hm. destruct m as [t [[]|e]]; simpl in *; [exact Hm|].
  apply Forall_app. split; [exact Hm|]. constructor; [apply Herr|constructor].
Qed.

Lemma Forall_for_each {A : Type} (P : event -> Prop) (l : list A)
  (body : A -> io unit) :
  (forall x, In x l -> Forall P (fst (body x))) ->
  Forall P (fst (for_each l body)).
Proof.
  induction l as [|x l IH]; intros H; simpl; [constructor|].
  apply Forall_io_bind; [apply H; now left|].
  intros _ _. apply IH. intros y Hy. apply H. now right.
Qed.

Section Destination.

Variable data : list (list str).

(** The search for a campaign's row writes nothing and, when it finds a
    row, finds a row of the grid. *)
Lemma try_alternates_in_grid (camp_name : str) (aliases : list cell) :
  Forall (in_grid data) (fst (try_alternates data camp_name aliases)) /\
  forall i, snd (try_alternates data camp_name aliases) = Ok (Some i) ->
            1 <= i <= len data.
Proof.
  induction aliases as [|a aliases [IHt IHr]]; simpl.
  - split; [constructor|discriminate].
  - destruct (locate_row data a) as [[i|]|e] eqn:E; simpl.
    + split; [repeat constructor|]. intros j Hj. inversion Hj; subst j.
      apply locate_row_from_bounds in E. lia.
    + destruct (try_alternates data camp_name aliases) as [t r]. simpl in *.
      auto.
    + split; [constructor|discriminate].
Qed.

Lemma find_camp_row_in_grid (settings_df : DataFrame) (camp_name : str) :
  Forall (in_grid data) (fst (find_camp_row data settings_df camp_name)) /\
  forall i, snd (find_camp_row data settings_df camp_name) = Ok (Some i) ->
            1 <= i <= len data.
Proof.
  unfold find_camp_row.
  destruct (locate_row data (Str camp_name)) as [[i|]|e] eqn:E; simpl.
  - split; [constructor|]. intros j Hj. inversion Hj; subst j.
    apply locate_row_from_bounds in E. lia.
  - destruct (find_alternate_campaign_name_with_new_structure _ _)
      as [aliases|e]; simpl; [|split; [constructor|discriminate]].
    destruct (try_alternates_in_grid camp_name aliases) as [Ht Hr].
    destruct (try_alternates data camp_name aliases) as [t r]. simpl in *.
    auto.
  - split; [constructor|discriminate].
Qed.

End Destination.

Lemma resolved_column_bounds (label : str) (index : Z) (h : list str) (c : Z) :
  get_column_index label index h = Ok (Some c) -> 1 <= c <= len h.
Proof.
  intros H. apply get_column_index_Some in H. destruct H as [_ H].
  apply getitem_In in H. rewrite occurrences_from_0 in H.
  apply In_occurrences_from in H. destruct H as (n & cell & Hp & Hn & _).
  assert ((n < length h)%nat) by (apply nth_error_Some; congruence).
  unfold len. lia.
Qed.

Lemma mapM_In {A B : Type} (f : A -> result B) (l : list A) :
  forall ys y, mapM f l = Ok ys -> In y ys -> exists x, In x l /\ f x = Ok y.
Proof.
  induction l as [|a l IH]; intros ys y H Hy; simpl in H.
  - inversion H; subst. contradiction.
  - apply bind_Ok in H. destruct H as (b & Hb & H).
    apply bind_Ok in H. destruct H as (ys' & Hys & H).
    inversion H; subst ys. destruct Hy as [<-|Hy].
    + exists a. split; [now left|exact Hb].
    + destruct (IH ys' y Hys Hy) as (x & Hx & Hfx). exists x. split; auto.
      now right.
Qed.

Lemma dict_get_In {V : Type} (d : list (str * V)) (k : str) (v : V) :
  dict_get d k = Ok v -> In (k, v) d.
Proof.
  induction d as [|[k' v'] d IH]; simpl; [discriminate|].
  destruct (PyStr.eqb k' k) eqn:E.
  - apply pystr_eqb_eq in E. subst k'. intros H. inversion H. now left.
  - intros H. right. now apply IH.
Qed.

Section Writes.

Variable data : list (list str).
Variable header_row : list str.
Variable day_index : Z.
Variable cols : list str.
Variable target_columns : list (str * option Z).

Hypothesis Hheader : nth_error data 1 = Some header_row.
Hypothesis Htarget :
  mapM (fun col => i <- get_column_index col day_index header_row ;;
                   Ok (col, i)) cols = Ok target_columns.
Hypothesis Hresolved : existsb isNone (map snd target_columns) = false.

Lemma target_column_resolved (label : str) (col : option Z) :
  dict_get target_columns label = Ok col ->
  exists c, col = Some c /\
            get_column_index label day_index header_row = Ok (Some c).
Proof.
  intros H. apply dict_get_In in H.
  destruct (mapM_In _ _ _ _ Htarget H) as (x & _ & Hx).
  apply bind_Ok in Hx. destruct Hx as (o & Ho & Hx).
  inversion Hx; subst x o.
  destruct col as [c|]; [eauto|].
  exfalso. assert (Hex : existsb isNone (map snd target_columns) = true).
  { apply existsb_exists. exists None. split; [|reflexivity].
    apply in_map_iff. exists (label, None). auto. }
  rewrite Hresolved in Hex. discriminate.
Qed.

Lemma write_in_grid (i : Z) (label : str) (v : written) :
  1 <= i <= len data ->
  Forall (in_grid data) (fst (write target_columns i label v)).
Proof.
  intros Hi. unfold write.
  destruct (dict_get target_columns label) as [col|e] eqn:E; simpl;
    [|constructor].
  destruct (target_column_resolved label col E) as (c & -> & Hc).
  constructor; [|constructor]. simpl. split; [exact Hi|].
  exists c, header_row. split; [exact Hheader|]. split; [reflexivity|].
  now apply resolved_column_bounds in Hc.
Qed.

Lemma update_row_in_grid (i : Z) (row : summary_row) :
  1 <= i <= len data ->
  Forall (in_grid data) (fst (update_row target_columns i row)).
Proof.
  intros Hi. destruct row as [r|r]; unfold update_row.
  - repeat (apply Forall_io_bind; [now apply write_in_grid|intros _ _]).
    now apply write_in_grid.
  - apply Forall_io_bind; [now apply write_in_grid|intros _ _].
    destruct (dict_mem target_columns (py "Dial Time"));
      [now apply write_in_grid|constructor].
Qed.

End Writes.

(** X19. Every cell write of a run stays inside the worksheet that was
    read: its row is a row of the grid and its column is a column of the
    header row (both 1-based), whatever the report, the day index, the
    sheet and the settings. *)
Theorem writes_stay_in_grid (req : request) (day_index : Z)
  (data : list (list str)) (settings_df : DataFrame) :
  Forall (in_grid data) (fst (main req day_index data settings_df)).
Proof.
  unfold main.
  apply Forall_io_bind; [constructor|]. intros summary _.
  apply Forall_io_bind; [repeat constructor|]. intros _ _.
  apply Forall_try_except; [intros msg; exact I|].
  apply Forall_io_bind; [constructor|]. intros header_row Hheader.
  simpl in Hheader. apply (getitem_nonneg_inv data 1) in Hheader; [|lia].
  change (Z.to_nat 1) with 1%nat in Hheader.
  apply Forall_io_bind; [constructor|]. intros target_columns Htarget.
  simpl in Htarget.
  destruct (existsb isNone (map snd target_columns)) eqn:Hres;
    [repeat constructor|].
  apply Forall_for_each. intros row _.
  destruct (find_camp_row_in_grid data settings_df (camp_of row)) as [Ht Hr].
  apply Forall_io_bind; [exact Ht|]. intros [i|] Hfound;
    [|repeat constructor].
  apply Forall_io_bind; [|intros _ _; repeat constructor].
  apply (update_row_in_grid data header_row day_index
           (update_columns req) target_columns Hheader Htarget Hres).
  now apply Hr.
Qed.

(** ** Update orchestrator: a run that meets no failure *)

Lemma locate_row_from_total (name : cell) (data : list (list str)) :
  Forall (fun row => row <> []) data ->
  forall start, exists o, locate_row_from start data name = Ok o.
Proof.
  induction 1 as [|row data Hrow _ IH]; intros start;
    cbn [locate_row_from]; [eauto|].
  destruct row as [|c row]; [contradiction|]. rewrite getitem_head.
  cbn [bind].
  destruct (cell_eqb (Str (PyStr.strip c)) name); [eauto|apply IH].
Qed.

Lemma dict_get_mem {V : Type} (d : list (str * V)) (k : str) (v : V) :
  dict_get d k = Ok v -> dict_mem d k = true.
Proof.
  intros H. apply dict_get_In in H. apply existsb_exists.
  exists (k, v). split; [exact H|apply pystr_eqb_refl].
Qed.

Lemma update_columns_of_row (req : request) (row : summary_row) :
  row_kind_ok req row ->
  update_columns req =
  match row with
  | CtcRow _ => [py "Calls"; py "CTC"; py "Abandoned"; py "Connects"]
  | LogRow _ => [py "Logged Calls"; py "Dial Time"]
  end.
Proof.
  destruct req, row; simpl; intros H; (reflexivity || contradiction).
Qed.

Section CompleteRun.

Variable req : request.
Variable day_index : Z.
Variable data : list (list str).
Variable settings_df : DataFrame.
Variable header_row : list str.

Hypothesis Hresolved :
  forall label, In label (update_columns req) ->
    exists c, get_column_index label day_index header_row = Ok (Some c).
Hypothesis Hrows : Forall (fun row => row <> []) data.
Hypothesis Hsettings : well_formed settings_df.

Let resolve (col : str) : str * option Z :=
  (col, resolved day_index header_row col).

Let target_columns : list (str * option Z) :=
  map resolve (update_columns req).

Lemma target_columns_built :
  mapM (fun col => i <- get_column_index col day_index header_row ;;
                   Ok (col, i)) (update_columns req) = Ok target_columns.
Proof.
  apply mapM_Ok. intros col Hcol. unfold resolve, resolved.
  destruct (Hresolved col Hcol) as (c & ->). reflexivity.
Qed.

Lemma target_columns_complete :
  existsb isNone (map snd target_columns) = false.
Proof.
  apply existsb_false_nth. intros n o Hn.
  apply nth_error_In, in_map_iff in Hn. destruct Hn as ([k v] & <- & Hkv).
  apply in_map_iff in Hkv. destruct Hkv as (col & Hcol & Hin).
  unfold resolve, resolved in Hcol. inversion Hcol; subst k v.
  destruct (Hresolved col Hin) as (c & ->). reflexivity.
Qed.

Lemma target_column_found (label : str) :
  In label (update_columns req) ->
  dict_get target_columns label = Ok (resolved day_index header_row label).
Proof.
  unfold target_columns. clear Hresolved Hrows Hsettings.
  induction (update_columns req) as [|col cols IH];
    intros Hin; [contradiction|].
  simpl. destruct (PyStr.eqb col label) eqn:E.
  - apply pystr_eqb_eq in E. now subst col.
  - apply IH. destruct Hin as [->|Hin]; [|exact Hin].
    rewrite pystr_eqb_refl in E. discriminate.
Qed.

Lemma write_done (i : Z) (label : str) (v : written) :
  In label (update_columns req) ->
  write target_columns i label v =
  ([update_cell i (resolved day_index header_row label) v], Ok tt).
Proof.
  intros Hin. unfold write. rewrite (target_column_found label Hin).
  reflexivity.
Qed.

Lemma update_row_done (i : Z) (row : summary_row) :
  row_kind_ok req row ->
  update_row target_columns i row =
  (row_writes day_index header_row i row, Ok tt).
Proof.
  intros Hkind. pose proof (update_columns_of_row req row Hkind) as Hcols.
  destruct row as [r|r]; unfold update_row, row_writes.
  - rewrite !write_done by (rewrite Hcols; simpl; tauto). reflexivity.
  - rewrite (dict_get_mem _ _ _ (target_column_found (py "Dial Time")
               ltac:(rewrite Hcols; simpl; tauto))).
    rewrite !write_done by (rewrite Hcols; simpl; tauto). reflexivity.
Qed.

Lemma try_alternates_cases (camp_name : str) (aliases : list cell) :
  (exists before alt_name after i,
     aliases = before ++ alt_name :: after /\
     Forall (fun a => locate_row data a = Ok None) before /\
     locate_row data alt_name = Ok (Some i) /\
     try_alternates data camp_name aliases
     = ([st_info alt_name camp_name], Ok (Some i))) \/
  (Forall (fun a => locate_row data a = Ok None) aliases /\
   try_alternates data camp_name aliases = ([], Ok None)).
Proof.
  induction aliases as [|a aliases IH].
  - right. split; [constructor|reflexivity].
  - destruct (locate_row_from_total a data Hrows 0) as ([i|] & Ha).
    + left. exists [], a, aliases, i.
      split; [reflexivity|]. split; [constructor|]. split; [exact Ha|].
      simpl. unfold locate_row. rewrite Ha. reflexivity.
    + destruct IH as [(before & alt & after & i & -> & Hb & Hi & Ht)
                     |[Hnone Ht]].
      * left. exists (a :: before), alt, after, i.
        split; [reflexivity|]. split; [now constructor|].
        split; [exact Hi|].
        simpl. unfold locate_row at 1. rewrite Ha. simpl. rewrite Ht.
        reflexivity.
      * right. split; [now constructor|].
        simpl. unfold locate_row at 1. rewrite Ha. simpl. rewrite Ht.
        reflexivity.
Qed.

Let treat : summary_row -> io unit :=
  treat_row data settings_df target_columns day_index.

Lemma treat_done (row : summary_row) :
  row_kind_ok req row ->
  exists t,
    treat row = (t, Ok tt) /\
    row_trace data settings_df day_index header_row row t.
Proof.
  intros Hkind. unfold treat, treat_row, find_camp_row, row_trace.
  destruct (locate_row_from_total (Str (camp_of row)) data Hrows 0)
    as ([i|] & Hd); unfold locate_row at 1; rewrite Hd;
    cbn [lift io_bind ret].
  - rewrite (update_row_done i row Hkind). cbn [io_bind emit app].
    eexists. split; [reflexivity|].
    left. exists i. split; [exact Hd|reflexivity].
  - destruct (find_alternate_source settings_df (camp_of row) Hsettings)
      as (aliases & Haliases & _).
    rewrite Haliases. cbn [io_bind app].
    destruct (try_alternates_cases (camp_of row) aliases)
      as [(before & alt & after & i & Hsplit & Hb & Hi & Ht)|[Hnone Ht]];
      rewrite Ht, io_bind_Ok.
    + rewrite (update_row_done i row Hkind). cbn [io_bind emit app fst snd].
      eexists. split; [reflexivity|].
      right. split; [exact Hd|]. exists aliases. split; [reflexivity|].
      left. exists before, alt, after, i. auto.
    + cbn [io_bind emit app fst snd].
      eexists. split; [reflexivity|].
      right. split; [exact Hd|]. exists aliases. split; [reflexivity|].
      right. auto.
Qed.

Lemma pass_done (summary : list summary_row) :
  Forall (row_kind_ok req) summary ->
  exists ts,
    for_each summary treat = (concat ts, Ok tt) /\
    Forall2 (row_trace data settings_df day_index header_row) summary ts.
Proof.
  induction 1 as [|row summary Hrow _ (ts & IH & Hts)].
  - exists []. split; [reflexivity|constructor].
  - destruct (treat_done row Hrow) as (t & Ht & Htrace).
    exists (t :: ts). split; [|now constructor].
    cbn [for_each concat]. rewrite Ht, io_bind_Ok, IH. reflexivity.
Qed.

End CompleteRun.

Lemma aggregate_rows (req : request) (summary : list summary_row) :
  aggregate req = Ok summary -> Forall (row_kind_ok req) summary.
Proof.
  destruct req as [file|file]; simpl; intros H;
    apply bind_Ok in H; destruct H as (data & _ & H).
  - inversion H. apply Forall_forall. intros row Hrow.
    apply in_map_iff in Hrow. destruct Hrow as (r & <- & _). exact I.
  - apply bind_Ok in H. destruct H as (rows & _ & H). inversion H.
    apply Forall_forall. intros row Hrow.
    apply in_map_iff in Hrow. destruct Hrow as (r & <- & _). exact I.
Qed.

(** X20. A run that meets no failure treats every campaign of the summary
    once and in order: when the report is aggregated, the header row
    carries every metric label for the day, no sheet row is empty and the
    settings table is well formed, the run ends normally and its events,
    after the preview, are those of each summary row in turn. A campaign
    found in the sheet, under its own name or under the first of its
    alternate names that matches a row (announced by an info message),
    gets exactly one write per metric column, on its row and in the
    column resolved for the label, then its success message; a campaign
    not found gets its warning and no write. *)
Theorem complete_run (req : request) (day_index : Z)
  (data : list (list str)) (settings_df : DataFrame)
  (summary : list summary_row) (header_row : list str) :
  aggregate req = Ok summary ->
  nth_error data 1 = Some header_row ->
  (forall label, In label (update_columns req) ->
     exists c, get_column_index label day_index header_row = Ok (Some c)) ->
  Forall (fun row => row <> []) data ->
  well_formed settings_df ->
  exists ts,
    main req day_index data settings_df = (st_write :: concat ts, Ok tt) /\
    Forall2 (row_trace data settings_df day_index header_row) summary ts.
Proof.
  intros Hagg Hheader Hresolved Hrows Hsettings.
  destruct (pass_done req day_index data settings_df header_row
              Hrows Hsettings summary (aggregate_rows _ _ Hagg))
    as (ts & Hpass & Htrace).
  exists ts. split; [|exact Htrace].
  unfold main. rewrite Hagg.
  change 1 with (Z.of_nat 1) at 1.
  rewrite (getitem_nth_error data 1 header_row Hheader).
  cbn [lift io_bind emit].
  rewrite (target_columns_built req day_index header_row Hresolved).
  cbn [io_bind].
  rewrite (target_columns_complete req day_index header_row Hresolved).
  unfold treat_row in Hpass. rewrite Hpass. reflexivity.
Qed.

Lemma complete_run_witness :
  (exists ts,
     main (CTC [camp_x_row; camp_a_first; camp_b_row; camp_a_second]) 0
          camp_a_y_sheet settings_shared_alias
     = (st_write :: concat ts, Ok tt) /\
     Forall2 (row_trace camp_a_y_sheet settings_shared_alias 0
                [py "Campaign"; py "Calls"; py "CTC"; py "Abandoned";
                 py "Connects"])
             (map CtcRow
                  (load_and_process_csv
                     [camp_x_row; camp_a_first; camp_b_row; camp_a_second]))
             ts) /\
  main (CTC [camp_x_row; camp_a_first; camp_b_row; camp_a_second]) 0
       camp_a_y_sheet settings_shared_alias =
  ([st_write;
    update_cell 3 (Some 2) (WNumber (Int 30));
    update_cell 3 (Some 5) (WNumber (Int 15));
    update_cell 3 (Some 3) (number 55);
    update_cell 3 (Some 4) (WNumber (Int 3));
    st_success (py "Camp A") 1;
    st_warning (py "Camp B");
    st_info (Str (py "Camp Y")) (py "Camp X");
    update_cell 4 (Some 2) (WNumber (Int 7));
    update_cell 4 (Some 5) (WNumber (Int 2));
    update_cell 4 (Some 3) (number 3.5);
    update_cell 4 (Some 4) (WNumber (Int 0));
    st_success (py "Camp X") 1], Ok tt).
Proof.
  split; [|reflexivity].
  apply (complete_run
           (CTC [camp_x_row; camp_a_first; camp_b_row; camp_a_second]) 0
           camp_a_y_sheet settings_shared_alias _
           [py "Campaign"; py "Calls"; py "CTC"; py "Abandoned";
            py "Connects"]).
  - reflexivity.
  - reflexivity.
  - intros label [<-|[<-|[<-|[<-|[]]]]]; eexists; reflexivity.
  - repeat constructor; discriminate.
  - exact settings_shared_alias_wf.
Defined.

(** ** Update orchestrator: a failure in the middle of a run *)

Lemma for_each_app_Raise {A : Type} (body : A -> io unit) (x : A)
  (tx : list event) (e : exn) (after : list A) :
  body x = (tx, Raise e) ->
  forall (before : list A) (t1 : list event),
    for_each before body = (t1, Ok tt) ->
    for_each (before ++ x :: after) body = (t1 ++ tx, Raise e).
Proof.
  intros Hx. induction before as [|a before IH]; intros t1 H1.
  - simpl in H1. inversion H1. simpl. rewrite Hx. reflexivity.
  - simpl in *. destruct (body a) as [ta [[]|ea]]; simpl in *;
      [|discriminate].
    destruct (for_each before body) as [tb [[]|eb]] eqn:Hb; simpl in *;
      [|discriminate].
    inversion H1; subst t1. rewrite (IH tb eq_refl). simpl.
    now rewrite app_assoc.
Qed.

(** X21. A failure while treating one campaign stops the run without
    rollback: the campaigns before it keep their messages and writes, the
    exception is reported once, and the campaigns after it are not
    treated. *)
Theorem failure_stops_run (req : request) (day_index : Z)
  (data : list (list str)) (settings_df : DataFrame)
  (header_row : list str) (target_columns : list (str * option Z))
  (before after : list summary_row) (row : summary_row)
  (t1 tx : list event) (e : exn) :
  aggregate req = Ok (before ++ row :: after) ->
  nth_error data 1 = Some header_row ->
  resolve_columns (update_columns req) day_index header_row
  = Ok target_columns ->
  existsb isNone (map snd target_columns) = false ->
  for_each before (treat_row data settings_df target_columns day_index)
  = (t1, Ok tt) ->
  treat_row data settings_df target_columns day_index row = (tx, Raise e) ->
  main req day_index data settings_df =
  (st_write :: t1 ++ tx ++ [st_error (An_error_occurred e)], Ok tt).
Proof.
  intros Hagg Hheader Htarget Hres Hbefore Hrow.
  unfold main. rewrite Hagg.
  change 1 with (Z.of_nat 1) at 1.
  rewrite (getitem_nth_error data 1 header_row Hheader).
  cbn [lift io_bind emit].
  unfold resolve_columns in Htarget. rewrite Htarget. cbn [io_bind].
  rewrite Hres.
  unfold treat_row in Hbefore, Hrow.
  rewrite (for_each_app_Raise _ row tx e after Hrow before t1 Hbefore).
  simpl. now rewrite <- app_assoc.
Qed.

Lemma failure_stops_run_witness :
  main (CTC [camp_a_first; camp_b_row; camp_c_row]) 0 camp_a_c_sheet
       settings_empty =
  (st_write ::
   [update_cell 3 (Some 2) (WNumber (Int 10)); update_cell 3 (Some 5) (WNumber (Int 5));
    update_cell 3 (Some 3) (number 50); update_cell 3 (Some 4) (WNumber (Int 1));
    st_success (py "Camp A") 1]
   ++ [] ++ [st_error (An_error_occurred KeyError)], Ok tt).
Proof.
  apply (failure_stops_run
           (CTC [camp_a_first; camp_b_row; camp_c_row]) 0 camp_a_c_sheet
           settings_empty
           [py "Campaign"; py "Calls"; py "CTC"; py "Abandoned";
            py "Connects"]
           [(py "Calls", Some 2); (py "CTC", Some 3);
            (py "Abandoned", Some 4); (py "Connects", Some 5)]
           [CtcRow {| CtcSummary.Camp := py "Camp A";
                      CtcSummary.Calls := Int 10;
                      CtcSummary.Connects := Int 5;
                      CtcSummary.CTC := 50;
                      CtcSummary.Abandoned := Int 1 |}]
           [CtcRow {| CtcSummary.Camp := py "Camp C";
                      CtcSummary.Calls := Int 6;
                      CtcSummary.Connects := Int 3;
                      CtcSummary.CTC := 2;
                      CtcSummary.Abandoned := Int 1 |}]
           (CtcRow {| CtcSummary.Camp := py "Camp B";
                      CtcSummary.Calls := Int 4;
                      CtcSummary.Connects := Int 2;
                      CtcSummary.CTC := 2;
                      CtcSummary.Abandoned := Int 0 |}));
    reflexivity.
Defined.

(** ** Update orchestrator: which value goes to which column *)

(** X22. In CTC mode a campaign found in the sheet gets its four values
    written on its row, each in the column resolved for its own label:
    Calls, then Connects, then CTC, then Abandoned, followed by the
    success message. *)
Theorem ctc_values_written_to_their_columns (data : list (list str))
  (settings_df : DataFrame) (day_index : Z) (header_row : list str)
  (target_columns : list (str * option Z)) (file : list CtcReport.row)
  (r : CtcSummary.row) (i calls connects ctc abandoned : Z) :
  resolve_columns (update_columns (CTC file)) day_index header_row
  = Ok target_columns ->
  get_column_index (py "Calls") day_index header_row = Ok (Some calls) ->
  get_column_index (py "Connects") day_index header_row
  = Ok (Some connects) ->
  get_column_index (py "CTC") day_index header_row = Ok (Some ctc) ->
  get_column_index (py "Abandoned") day_index header_row
  = Ok (Some abandoned) ->
  locate_row data (Str (CtcSummary.Camp r)) = Ok (Some i) ->
  treat_row data settings_df target_columns day_index (CtcRow r) =
  ([update_cell i (Some calls) (WNumber (CtcSummary.Calls r));
    update_cell i (Some connects) (WNumber (CtcSummary.Connects r));
    update_cell i (Some ctc) (number (CtcSummary.CTC r));
    update_cell i (Some abandoned) (WNumber (CtcSummary.Abandoned r));
    st_success (CtcSummary.Camp r) (day_index + 1)], Ok tt).
Proof.
  intros Htarget Hcalls Hconnects Hctc Habandoned Hrow.
  unfold resolve_columns in Htarget. cbn [update_columns mapM] in Htarget.
  rewrite Hcalls, Hconnects, Hctc, Habandoned in Htarget.
  cbn [bind] in Htarget. inversion Htarget; subst target_columns.
  unfold treat_row, find_camp_row. cbn [camp_of]. rewrite Hrow.
  reflexivity.
Qed.

Lemma ctc_values_written_to_their_columns_witness :
  treat_row camp_a_c_sheet settings_empty
    [(py "Calls", Some 2); (py "CTC", Some 3);
     (py "Abandoned", Some 4); (py "Connects", Some 5)] 0
    (CtcRow {| CtcSummary.Camp := py "Camp C";
               CtcSummary.Calls := Int 6;
               CtcSummary.Connects := Int 3;
               CtcSummary.CTC := 2;
               CtcSummary.Abandoned := Int 1 |}) =
  ([update_cell 4 (Some 2) (WNumber (Int 6));
    update_cell 4 (Some 5) (WNumber (Int 3));
    update_cell 4 (Some 3) (number 2);
    update_cell 4 (Some 4) (WNumber (Int 1));
    st_success (py "Camp C") (0 + 1)], Ok tt).
Proof.
  apply (ctc_values_written_to_their_columns camp_a_c_sheet settings_empty 0
           [py "Campaign"; py "Calls"; py "CTC"; py "Abandoned";
            py "Connects"]
           _ [camp_c_row]
           {| CtcSummary.Camp := py "Camp C";
              CtcSummary.Calls := Int 6;
              CtcSummary.Connects := Int 3;
              CtcSummary.CTC := 2;
              CtcSummary.Abandoned := Int 1 |});
    reflexivity.
Defined.

(** X23. In Log mode a campaign found in the sheet gets its number of
    logged calls and its Dial Time text written on its row, each in the
    column resolved for its own label, followed by the success message. *)
Theorem log_values_written_to_their_columns (data : list (list str))
  (settings_df : DataFrame) (day_index : Z) (header_row : list str)
  (target_columns : list (str * option Z)) (file : list LogReport.row)
  (r : LogSummary.row) (i logged dial : Z) :
  resolve_columns (update_columns (Log_type file)) day_index header_row
  = Ok target_columns ->
  get_column_index (py "Logged Calls") day_index header_row
  = Ok (Some logged) ->
  get_column_index (py "Dial Time") day_index header_row = Ok (Some dial) ->
  locate_row data (Str (LogSummary.Camp r)) = Ok (Some i) ->
  treat_row data settings_df target_columns day_index (LogRow r) =
  ([update_cell i (Some logged) (WInt (LogSummary.Logged_Calls r));
    update_cell i (Some dial) (WText (LogSummary.Dial_Time r));
    st_success (LogSummary.Camp r) (day_index + 1)], Ok tt).
Proof.
  intros Htarget Hlogged Hdial Hrow.
  unfold resolve_columns in Htarget. cbn [update_columns mapM] in Htarget.
  rewrite Hlogged, Hdial in Htarget.
  cbn [bind] in Htarget. inversion Htarget; subst target_columns.
  unfold treat_row, find_camp_row. cbn [camp_of]. rewrite Hrow.
  reflexivity.
Qed.

Lemma log_values_written_to_their_columns_witness :
  treat_row [[py "Week 1"];
             [py "Campaign"; py "Logged Calls"; py "Dial Time"];
             [py "Camp A"]]
    settings_empty
    [(py "Logged Calls", Some 2); (py "Dial Time", Some 3)] 0
    (LogRow {| LogSummary.Camp := py "Camp A";
               LogSummary.Recording_Length_Seconds := 12;
               LogSummary.Logged_Calls := 1;
               LogSummary.Dial_Time := py "00:00:12" |}) =
  ([update_cell 3 (Some 2) (WInt 1);
    update_cell 3 (Some 3) (WText (py "00:00:12"));
    st_success (py "Camp A") (0 + 1)], Ok tt).
Proof.
  apply (log_values_written_to_their_columns
           [[py "Week 1"];
            [py "Campaign"; py "Logged Calls"; py "Dial Time"];
            [py "Camp A"]]
           settings_empty 0
           [py "Campaign"; py "Logged Calls"; py "Dial Time"]
           _ [fractional_call]
           {| LogSummary.Camp := py "Camp A";
              LogSummary.Recording_Length_Seconds := 12;
              LogSummary.Logged_Calls := 1;
              LogSummary.Dial_Time := py "00:00:12" |});
    reflexivity.
Defined.

(** ** Whitespace in the sheet, and the index of a given column *)

Lemma occurrences_from_trimmed (label : str) (h : list str) :
  forall (h' : list str) (start : Z),
    map PyStr.strip h = map PyStr.strip h' ->
    occurrences_from start label h = occurrences_from start label h'.
Proof.
  induction h as [|c h IH]; intros [|c' h'] start H; simpl in H;
    try discriminate; [reflexivity|].
  inversion H as [[Hc Hh]]. rewrite !occurrences_from_cons, Hc.
  rewrite (IH h' (start + 1) Hh). reflexivity.
Qed.

(** X24. The column resolver depends on the header cells only through
    their trimmed text: padding header cells with whitespace changes no
    answer. *)
Theorem get_column_index_ignores_padding (label : str) (index : Z)
  (header_row header_row' : list str) :
  map PyStr.strip header_row = map PyStr.strip header_row' ->
  get_column_index label index header_row =
  get_column_index label index header_row'.
Proof.
  intros H. unfold get_column_index.
  rewrite !occurrences_from_0.
  now rewrite (occurrences_from_trimmed label header_row header_row' 0 H).
Qed.

Lemma get_column_index_ignores_padding_witness :
  get_column_index (py "CTC") 1 [py "Calls"; py "CTC"; py "Calls"; py "CTC"] =
  get_column_index (py "CTC") 1
    [py " Calls"; py "CTC  "; py "Calls"; py " CTC "].
Proof.
  apply get_column_index_ignores_padding. reflexivity.
Defined.

Lemma locate_row_from_trimmed (name : cell) (data : list (list str)) :
  forall (data' : list (list str)) (start : Z),
    map trimmed_key data = map trimmed_key data' ->
    locate_row_from start data name = locate_row_from start data' name.
Proof.
  induction data as [|row data IH]; intros [|row' data'] start H;
    simpl in H; try discriminate; [reflexivity|].
  inversion H as [[Hrow Hdata]]. cbn [locate_row_from].
  destruct row as [|c row], row' as [|c' row']; try discriminate.
  - reflexivity.
  - rewrite !getitem_head. cbn [bind]. unfold trimmed_key in Hrow.
    simpl in Hrow. inversion Hrow as [Hc]. rewrite Hc.
    now rewrite (IH data' (start + 1) Hdata).
Qed.

(** X25. The row search depends on the sheet only through the trimmed
    first cell of each row: other columns, and whitespace around the
    campaign names of the sheet, change no answer. *)
Theorem locate_row_ignores_padding (name : cell)
  (data data' : list (list str)) :
  map trimmed_key data = map trimmed_key data' ->
  locate_row data name = locate_row data' name.
Proof.
  intros H. unfold locate_row. now apply locate_row_from_trimmed.
Qed.

Lemma locate_row_ignores_padding_witness :
  locate_row [[py "Week 1"]; [py "Campaign"]; [py "Camp A"; py "7"]]
             (Str (py "Camp A")) =
  locate_row [[py "Week 1"; py "x"]; [py "Campaign "]; [py " Camp A "]]
             (Str (py "Camp A")).
Proof.
  apply locate_row_ignores_padding. reflexivity.
Defined.

Lemma nth_occurrence_of_position (label : str) (h : list str) :
  forall (start : Z) (p : nat) (cell : str),
    nth_error h p = Some cell -> PyStr.strip cell = label ->
    nth_error (occurrences_from start label h)
              (count_matches label (firstn p h))
    = Some (start + Z.of_nat p).
Proof.
  induction h as [|c h IH]; intros start p cell Hp Hcell.
  - destruct p; discriminate.
  - rewrite occurrences_from_cons. destruct p as [|p].
    + simpl in Hp. inversion Hp; subst c.
      rewrite Hcell, pystr_eqb_refl. simpl. f_equal. lia.
    + simpl in Hp. simpl firstn. rewrite count_matches_cons.
      destruct (PyStr.eqb (PyStr.strip c) label).
      * simpl. rewrite (IH (start + 1) p cell Hp Hcell). f_equal. lia.
      * rewrite (IH (start + 1) p cell Hp Hcell). f_equal. lia.
Qed.

(** X26. Every header cell that carries the label is reachable: the cell
    at 0-based position [p] is returned (as column [p + 1]) for the index
    that counts the matching cells before it. *)
Theorem get_column_index_reaches_every_occurrence (label : str)
  (header_row : list str) (p : nat) (cell : str) :
  nth_error header_row p = Some cell ->
  PyStr.strip cell = label ->
  get_column_index label
    (Z.of_nat (count_matches label (firstn p header_row))) header_row
  = Ok (Some (Z.of_nat p + 1)).
Proof.
  intros Hp Hcell.
  pose proof (nth_occurrence_of_position label header_row 0 p cell Hp Hcell)
    as Hnth.
  assert (Hlt : (count_matches label (firstn p header_row)
                 < count_matches label header_row)%nat).
  { rewrite (count_matches_split label header_row p cell Hp Hcell). lia. }
  unfold get_column_index. rewrite len_occurrences.
  destruct (Z.of_nat (count_matches label (firstn p header_row))
            <? Z.of_nat (count_matches label header_row)) eqn:E;
    [|apply Z.ltb_ge in E; lia].
  rewrite occurrences_from_0.
  rewrite (getitem_nonneg _ _ (0 + Z.of_nat p)); [reflexivity|lia|].
  now rewrite Nat2Z.id.
Qed.

Lemma get_column_index_reaches_every_occurrence_witness :
  let header_row := [py "Calls"; py "CTC"; py "Calls "; py "CTC"] in
  get_column_index (py "Calls")
    (Z.of_nat (count_matches (py "Calls") (firstn 2 header_row))) header_row
  = Ok (Some (Z.of_nat 2 + 1)).
Proof.
  apply (get_column_index_reaches_every_occurrence (py "Calls")
           [py "Calls"; py "CTC"; py "Calls "; py "CTC"] 2 (py "Calls "));
    reflexivity.
Defined.
